(** * Shared-session control plane: a shallow embedding of the server core

    The server of the load-board application is a set of TypeScript
    services over a relational store (Prisma).  This development embeds
    the services that decide the authentication, session, geolocation and
    billing behaviour:

    - [JsDate]: the ECMAScript time-value arithmetic behind [Date]
      ([setDate], [setMonth], [setFullYear] and the getters);
    - [Geo]: [utils/geolocation.ts];
    - [Store]: the tables the services read and write, and the monad in
      which a service runs (state survives a thrown error: no service
      opens a transaction);
    - [SecurityAlert], [LoginHistory], [SessionActivity]: the audit
      services;
    - [Auth]: [services/auth.service.ts];
    - [Billing]: [services/billing.service.ts].

    Conventions.  A [Date] is its time value, an integer number of
    milliseconds since the epoch; the process is taken to run in UTC, so
    local time and UTC coincide, and all time values stay inside the range
    on which [TimeClip] is the identity.  Every [new Date()] of one
    service call reads the same instant [now].  JavaScript numbers that
    are never computed with (coordinates, amounts) are rationals. *)

From Stdlib Require Import ZArith QArith Lia Bool List String Ascii DecimalString.
Import ListNotations.

Local Open Scope Z_scope.

(* ================================================================== *)
(** * ECMAScript dates *)
(* ================================================================== *)

Module JsDate.

(** A valid [Date] object, as its time value. *)
Definition Date := Z.

Definition msPerDay : Z := 86400000.
Definition msPerHour : Z := 3600000.

Definition Day (t : Z) : Z := t / msPerDay.
Definition TimeWithinDay (t : Z) : Z := t mod msPerDay.

Definition isLeapYear (y : Z) : bool :=
  ((y mod 4 =? 0) && negb (y mod 100 =? 0)) || (y mod 400 =? 0).

Definition DaysInYear (y : Z) : Z := if isLeapYear y then 366 else 365.

Definition DayFromYear (y : Z) : Z :=
  365 * (y - 1970) + (y - 1969) / 4 - (y - 1901) / 100 + (y - 1601) / 400.

(** The largest year whose first day is not after day [d]: an estimate
    from the mean length of a Gregorian year, moved by at most one. *)
Definition YearFromDay (d : Z) : Z :=
  let y := 1970 + (d * 400) / 146097 in
  if d <? DayFromYear y then y - 1
  else if DayFromYear (y + 1) <=? d then y + 1
  else y.

Definition YearFromTime (t : Z) : Z := YearFromDay (Day t).
Definition InLeapYear (t : Z) : bool := isLeapYear (YearFromTime t).
Definition DayWithinYear (t : Z) : Z := Day t - DayFromYear (YearFromTime t).

Definition leapDay (leap : bool) : Z := if leap then 1 else 0.

(** Day within the year on which month [m] (0 = January) starts. *)
Definition monthStart (leap : bool) (m : Z) : Z :=
  let l := leapDay leap in
  if m =? 0 then 0 else
  if m =? 1 then 31 else
  if m =? 2 then 59 + l else
  if m =? 3 then 90 + l else
  if m =? 4 then 120 + l else
  if m =? 5 then 151 + l else
  if m =? 6 then 181 + l else
  if m =? 7 then 212 + l else
  if m =? 8 then 243 + l else
  if m =? 9 then 273 + l else
  if m =? 10 then 304 + l else 334 + l.

Definition MonthFromDayWithinYear (leap : bool) (d : Z) : Z :=
  let l := leapDay leap in
  if d <? 31 then 0 else
  if d <? 59 + l then 1 else
  if d <? 90 + l then 2 else
  if d <? 120 + l then 3 else
  if d <? 151 + l then 4 else
  if d <? 181 + l then 5 else
  if d <? 212 + l then 6 else
  if d <? 243 + l then 7 else
  if d <? 273 + l then 8 else
  if d <? 304 + l then 9 else
  if d <? 334 + l then 10 else 11.

Definition MonthFromTime (t : Z) : Z :=
  MonthFromDayWithinYear (InLeapYear t) (DayWithinYear t).

Definition DateFromTime (t : Z) : Z :=
  DayWithinYear t - monthStart (InLeapYear t) (MonthFromTime t) + 1.

(** Number of days of month [m] (0..11) of year [y]. *)
Definition DaysInMonth (y m : Z) : Z :=
  if m =? 1 then 28 + leapDay (isLeapYear y)
  else if (m =? 3) || (m =? 5) || (m =? 8) || (m =? 10) then 30
  else 31.

(** [MakeDay]: the month is first brought into 0..11, carrying into the
    year; the date is then added as a plain number of days, so a date
    past the end of the month runs on into the months that follow. *)
Definition MakeDay (year month date : Z) : Z :=
  let ym := year + month / 12 in
  let mn := month mod 12 in
  DayFromYear ym + monthStart (isLeapYear ym) mn + date - 1.

Definition MakeDate (day time : Z) : Z := day * msPerDay + time.

Definition getFullYear (d : Date) : Z := YearFromTime d.
Definition getMonth (d : Date) : Z := MonthFromTime d.
Definition getDate (d : Date) : Z := DateFromTime d.
Definition getTime (d : Date) : Z := d.

Definition setDate (d : Date) (date : Z) : Date :=
  MakeDate (MakeDay (YearFromTime d) (MonthFromTime d) date) (TimeWithinDay d).

Definition setMonth (d : Date) (month : Z) : Date :=
  MakeDate (MakeDay (YearFromTime d) month (DateFromTime d)) (TimeWithinDay d).

Definition setFullYear (d : Date) (year : Z) : Date :=
  MakeDate (MakeDay year (MonthFromTime d) (DateFromTime d)) (TimeWithinDay d).

Definition getHours (d : Date) : Z := (d / msPerHour) mod 24.

Definition setHours (d : Date) (hour : Z) : Date :=
  MakeDate (Day d) (hour * msPerHour + TimeWithinDay d mod msPerHour).

(** [Date.UTC]-style constructor, used to write concrete dates. *)
Definition ofCivil (year month date hours minutes : Z) : Date :=
  MakeDate (MakeDay year month date) (hours * msPerHour + minutes * 60000).

End JsDate.

(* ================================================================== *)
(** * JavaScript values *)
(* ================================================================== *)

Module Js.

(** [x || y] on a string that may be undefined: the empty string is
    falsy as well. *)
Definition truthy (s : option string) : bool :=
  match s with
  | Some s => negb (String.eqb s "")
  | None => false
  end.

Definition orElse (s : option string) (d : string) : string :=
  match s with
  | Some s => if String.eqb s "" then d else s
  | None => d
  end.

(** [x || undefined] (and [x || null]). *)
Definition orUndefined (s : option string) : option string :=
  if truthy s then s else None.

(** [x || undefined] on a number: zero is falsy. *)
Definition numOrUndefined (q : option Q) : option Q :=
  match q with
  | Some q => if Qeq_bool q 0 then None else Some q
  | None => None
  end.

(** Strict [a < b] on numbers. *)
Definition lt (a b : Q) : bool := negb (Qle_bool b a).

(** Decimal rendering of an integer in a template literal. *)
Definition showZ (z : Z) : string :=
  DecimalString.NilZero.string_of_int (Z.to_int z).

(** [Math.ceil (a / b)] for integers [a] and [b > 0]. *)
Definition ceilDiv (a b : Z) : Z := - ((- a) / b).

(** JSON payloads of the audit tables, which are flat objects.
    [JIsoDate d] stands for the string [d.toISOString()] and [JShow n]
    for the string [n.toString()]. *)
Inductive Json :=
| JNull
| JString (s : string)
| JNumber (n : Q)
| JIsoDate (d : JsDate.Date)
| JShow (n : Q).

Definition Object := list (string * Json).

(** [x?.f] for an optional field [f]. *)
Definition optChain {A B} (x : option A) (f : A -> option B) : option B :=
  match x with Some a => f a | None => None end.

Definition jsonOfString (s : option string) : Json :=
  match s with Some s => JString s | None => JNull end.

End Js.

(* ================================================================== *)
(** * The store *)
(* ================================================================== *)

Module Store.

Import JsDate.

Inductive UserRole := SUPER_ADMIN | ADMIN | SUPPORT | USER.
Inductive UserStatus := ACTIVE | SUSPENDED | DISABLED.
Inductive BillingCycle :=
  DAILY | WEEKLY | MONTHLY | THREE_MONTHS | HALF_YEAR | YEARLY.
Inductive PaymentStatus := PAID | UNPAID | PENDING | REFUNDED.
Inductive SecurityAlertType :=
  MULTIPLE_DEVICE_LOGIN | SUSPICIOUS_LOCATION | FORCED_LOGOUT
| FAILED_LOGIN_ATTEMPT.
Inductive SecurityAlertSeverity := LOW | MEDIUM | HIGH | CRITICAL.

Definition UserStatus_eqb (a b : UserStatus) : bool :=
  match a, b with
  | ACTIVE, ACTIVE | SUSPENDED, SUSPENDED | DISABLED, DISABLED => true
  | _, _ => false
  end.

Module User.
Record t := mk {
  id : string;
  email : string;
  passwordHash : string;
  role : UserRole;
  status : UserStatus;
  lastLoginAt : option Date;
  lastLoginIP : option string;
  currentSessionToken : option string;
  billingCycle : option BillingCycle;
  billingCycleStartDate : option Date;
  billingCycleEndDate : option Date;
  trialPeriodHours : option Z;
  trialStartDate : option Date;
  trialEndDate : option Date;
  isTrialActive : bool;
  isBillingActive : bool;
  lastBillingCheckAt : option Date
}.
End User.

Module SessionActivity.
Record t := mk {
  id : string;
  userId : string;
  sessionToken : string;
  ipAddress : option string;
  location : option string;
  city : option string;
  country : option string;
  latitude : option Q;
  longitude : option Q;
  macAddress : option string;
  deviceInfo : option string;
  userAgent : option string;
  loginAt : Date;
  logoutAt : option Date;
  lastActivityAt : Date;
  isActive : bool;
  logoutReason : option string
}.
End SessionActivity.

Module LoginHistory.
Record t := mk {
  id : string;
  userId : string;
  email : string;
  ipAddress : option string;
  location : option string;
  city : option string;
  country : option string;
  latitude : option Q;
  longitude : option Q;
  macAddress : option string;
  deviceInfo : option string;
  userAgent : option string;
  success : bool;
  failureReason : option string;
  loginAt : Date
}.
End LoginHistory.

Module SecurityAlert.
Record t := mk {
  id : string;
  userId : option string;
  alertType : SecurityAlertType;
  severity : SecurityAlertSeverity;
  message : string;
  metadata : Js.Object;
  isRead : bool;
  isDismissed : bool;
  createdAt : Date
}.
End SecurityAlert.

Module Payment.
Record t := mk {
  id : string;
  userId : string;
  amount : Q;
  billingCycle : BillingCycle;
  status : PaymentStatus;
  paymentDate : Date;
  cycleStartDate : Date;
  cycleEndDate : Date;
  memo : option string;
  createdBy : option string;
  createdAt : Date
}.
End Payment.

Module BillingHistory.
Record t := mk {
  id : string;
  userId : string;
  action : string;
  details : Js.Object;
  createdAt : Date
}.
End BillingHistory.

(** The tables, in insertion order, the counter behind [cuid()], and the
    log of the URLs requested from the geolocation provider. *)
Record World := mkWorld {
  users : list User.t;
  sessionActivities : list SessionActivity.t;
  loginHistories : list LoginHistory.t;
  securityAlerts : list SecurityAlert.t;
  payments : list Payment.t;
  billingHistories : list BillingHistory.t;
  nextId : nat;
  httpRequests : list string
}.

Definition cuid (n : nat) : string :=
  String.append "c" (DecimalString.NilZero.string_of_uint (Nat.to_uint n)).

(** The queries the services send to the database; each may be
    rejected. *)
Inductive Query :=
| UserFindUnique | UserFindMany | UserUpdate | UserUpdateMany
| SessionActivityCreate | SessionActivityFindUnique
| SessionActivityFindMany | SessionActivityUpdateMany
| LoginHistoryCreate | SecurityAlertCreate
| PaymentCreate | BillingHistoryCreate.

(** Body of the geolocation provider's JSON answer. *)
Record IpApiData := mkIpApiData {
  api_status : option string;
  api_message : option string;
  api_country : option string;
  api_city : option string;
  api_lat : option Q;
  api_lon : option Q;
  api_regionName : option string
}.

(** [axios.get]: a response, or a rejection (network error, timeout
    after 5 s, non-2xx status). *)
Inductive AxiosResult :=
| AxiosResponse (data : IpApiData)
| AxiosError (message : string).

Record JwtPayload := mkJwtPayload { sub : string; jwtRole : UserRole }.

(** What one service call finds outside the store: the clock, the
    database's willingness to answer, the password hasher and token
    codec ([utils/password.ts] and [utils/token.ts]), the geolocation
    provider, and the device fingerprint of a User-Agent
    ([getDeviceFingerprint (parseDeviceInfo ua)], which the services
    only store). *)
Record Env := mkEnv {
  now : Date;
  fails : Query -> bool;
  comparePassword : string -> string -> bool;
  signAccessToken : string -> UserRole -> string;
  signRefreshToken : string -> UserRole -> string;
  verifyRefreshToken : string -> option JwtPayload;
  axiosGet : string -> AxiosResult;
  deviceFingerprint : option string -> string
}.

Definition faultFree (env : Env) : Prop := forall q, fails env q = false.

Inductive Error :=
| AppError (message : string) (statusCode : Z)
| JsError (message : string)
| PrismaError (q : Query).

(** A service call: it may change the store and then either return or
    throw.  What was written before a throw stays written. *)
Definition M (A : Type) : Type := World -> World * (Error + A).

Definition ret {A} (a : A) : M A := fun w => (w, inr a).
Definition throw {A} (e : Error) : M A := fun w => (w, inl e).
Definition bind {A B} (m : M A) (k : A -> M B) : M B :=
  fun w =>
    match m w with
    | (w', inr a) => k a w'
    | (w', inl e) => (w', inl e)
    end.

(** [try { m } catch (error) { h error }] *)
Definition tryCatch {A} (m : M A) (h : Error -> M A) : M A :=
  fun w =>
    match m w with
    | (w', inr a) => (w', inr a)
    | (w', inl e) => h e w'
    end.

Definition get : M World := fun w => (w, inr w).
Definition modify (f : World -> World) : M unit := fun w => (f w, inr tt).

(** [for (const x of xs) { await body x }] *)
Fixpoint forEach {A} (xs : list A) (body : A -> M unit) : M unit :=
  match xs with
  | [] => ret tt
  | x :: xs' => bind (body x) (fun _ => forEach xs' body)
  end.

Definition when (b : bool) (m : M unit) : M unit :=
  if b then m else ret tt.

Definition set_users (f : list User.t -> list User.t) (w : World) : World :=
  mkWorld (f (users w)) (sessionActivities w) (loginHistories w)
          (securityAlerts w) (payments w) (billingHistories w)
          (nextId w) (httpRequests w).

Definition set_sessionActivities
  (f : list SessionActivity.t -> list SessionActivity.t) (w : World) : World :=
  mkWorld (users w) (f (sessionActivities w)) (loginHistories w)
          (securityAlerts w) (payments w) (billingHistories w)
          (nextId w) (httpRequests w).

Definition set_loginHistories
  (f : list LoginHistory.t -> list LoginHistory.t) (w : World) : World :=
  mkWorld (users w) (sessionActivities w) (f (loginHistories w))
          (securityAlerts w) (payments w) (billingHistories w)
          (nextId w) (httpRequests w).

Definition set_securityAlerts
  (f : list SecurityAlert.t -> list SecurityAlert.t) (w : World) : World :=
  mkWorld (users w) (sessionActivities w) (loginHistories w)
          (f (securityAlerts w)) (payments w) (billingHistories w)
          (nextId w) (httpRequests w).

Definition set_payments
  (f : list Payment.t -> list Payment.t) (w : World) : World :=
  mkWorld (users w) (sessionActivities w) (loginHistories w)
          (securityAlerts w) (f (payments w)) (billingHistories w)
          (nextId w) (httpRequests w).

Definition set_billingHistories
  (f : list BillingHistory.t -> list BillingHistory.t) (w : World) : World :=
  mkWorld (users w) (sessionActivities w) (loginHistories w)
          (securityAlerts w) (payments w) (f (billingHistories w))
          (nextId w) (httpRequests w).

Definition bump_nextId (w : World) : World :=
  mkWorld (users w) (sessionActivities w) (loginHistories w)
          (securityAlerts w) (payments w) (billingHistories w)
          (S (nextId w)) (httpRequests w).

Definition log_request (url : string) (w : World) : World :=
  mkWorld (users w) (sessionActivities w) (loginHistories w)
          (securityAlerts w) (payments w) (billingHistories w)
          (nextId w) (httpRequests w ++ [url]).

Section Prisma.
Variable env : Env.

(** One round trip to the database. *)
Definition prisma {A} (q : Query) (body : M A) : M A :=
  fun w => if fails env q then (w, inl (PrismaError q)) else body w.

(** [@default(cuid())] *)
Definition freshId : M string :=
  fun w => (bump_nextId w, inr (cuid (nextId w))).

(** [prisma.user.findUnique ({ where: { id } })] *)
Definition user_findUnique_id (i : string) : M (option User.t) :=
  prisma UserFindUnique
    (fun w => (w, inr (find (fun u => String.eqb (User.id u) i) (users w)))).

(** [prisma.user.findUnique ({ where: { email } })] *)
Definition user_findUnique_email (e : string) : M (option User.t) :=
  prisma UserFindUnique
    (fun w => (w, inr (find (fun u => String.eqb (User.email u) e) (users w)))).

(** [prisma.user.findMany ({ where })] *)
Definition user_findMany (where_ : User.t -> bool) : M (list User.t) :=
  prisma UserFindMany (fun w => (w, inr (filter where_ (users w)))).

Definition updateWhere {R} (where_ : R -> bool) (data : R -> R) (rows : list R)
  : list R :=
  map (fun r => if where_ r then data r else r) rows.

(** [prisma.user.update ({ where: { id }, data })]: rejected when no
    row has the id; returns the updated row. *)
Definition user_update (i : string) (data : User.t -> User.t) : M User.t :=
  prisma UserUpdate
    (fun w =>
       match find (fun u => String.eqb (User.id u) i) (users w) with
       | Some u =>
           (set_users (updateWhere (fun u => String.eqb (User.id u) i) data) w,
            inr (data u))
       | None => (w, inl (PrismaError UserUpdate))
       end).

(** [prisma.user.updateMany ({ where, data })]: returns the count. *)
Definition user_updateMany (where_ : User.t -> bool) (data : User.t -> User.t)
  : M nat :=
  prisma UserUpdateMany
    (fun w => (set_users (updateWhere where_ data) w,
               inr (List.length (filter where_ (users w))))).

(** [prisma.sessionActivity.updateMany ({ where, data })] *)
Definition sessionActivity_updateMany
  (where_ : SessionActivity.t -> bool)
  (data : SessionActivity.t -> SessionActivity.t) : M nat :=
  prisma SessionActivityUpdateMany
    (fun w => (set_sessionActivities (updateWhere where_ data) w,
               inr (List.length (filter where_ (sessionActivities w))))).

(** [prisma.sessionActivity.findMany ({ where })], before ordering. *)
Definition sessionActivity_findMany (where_ : SessionActivity.t -> bool)
  : M (list SessionActivity.t) :=
  prisma SessionActivityFindMany
    (fun w => (w, inr (filter where_ (sessionActivities w)))).

(** [prisma.sessionActivity.findUnique ({ where: { id } })] *)
Definition sessionActivity_findUnique (i : string)
  : M (option SessionActivity.t) :=
  prisma SessionActivityFindUnique
    (fun w => (w, inr (find (fun s => String.eqb (SessionActivity.id s) i)
                            (sessionActivities w)))).

End Prisma.

(** [orderBy: { <date>: 'desc' }], as a stable insertion sort. *)
Section OrderBy.
Context {R : Type} (key : R -> Date).

Fixpoint insertDesc (r : R) (rows : list R) : list R :=
  match rows with
  | [] => [r]
  | r' :: rest =>
      if key r' <? key r then r :: rows else r' :: insertDesc r rest
  end.

Definition orderByDesc (rows : list R) : list R :=
  fold_right insertDesc [] rows.
End OrderBy.

End Store.

Declare Scope svc_scope.
Delimit Scope svc_scope with svc.
Notation "x <- m ;; k" := (Store.bind m (fun x => k))
  (at level 61, m at next level, right associativity) : svc_scope.
Notation "m ;;; k" := (Store.bind m (fun _ => k))
  (at level 61, right associativity) : svc_scope.

(* ================================================================== *)
(** * utils/geolocation.ts *)
(* ================================================================== *)

Module Geo.

Import Store.
Local Open Scope svc_scope.
Local Open Scope string_scope.

Record LocationData := mkLocationData {
  city : option string;
  region : option string;
  country : option string;
  latitude : option Q;
  longitude : option Q;
  location : option string
}.

Definition localNetwork : LocationData :=
  mkLocationData (Some "Local") None (Some "Local Network") None None
                 (Some "Local Network").

(** The location built from a successful answer of the provider. *)
Definition locationOfResponse (data : IpApiData) : LocationData :=
  mkLocationData
    (Js.orUndefined (api_city data))
    (Js.orUndefined (api_regionName data))
    (Js.orUndefined (api_country data))
    (Js.numOrUndefined (api_lat data))
    (Js.numOrUndefined (api_lon data))
    (Some (Js.orElse (api_city data) "Unknown" ++ ", "
           ++ Js.orElse (api_country data) "Unknown")).

Definition lookupUrl (ip : string) : string := "http://ip-api.com/json/" ++ ip.

Section WithEnv.
Variable env : Env.

(** [axios.get (url, { params, timeout: 5000 })] *)
Definition axios_get (url : string) : M IpApiData :=
  fun w =>
    match axiosGet env url with
    | AxiosResponse data => (log_request url w, inr data)
    | AxiosError msg => (log_request url w, inl (JsError msg))
    end.

Definition getLocationFromIP (ipAddress : option string)
  : M (option LocationData) :=
  let ip := match ipAddress with Some ip => ip | None => "" end in
  if negb (Js.truthy ipAddress) ||
     String.eqb ip "::1" ||
     String.eqb ip "127.0.0.1" ||
     String.prefix "192.168." ip ||
     String.prefix "10." ip ||
     String.prefix "172." ip
  then ret (Some localNetwork)
  else
    tryCatch
      (data <- axios_get (lookupUrl ip) ;;
       if match api_status data with
          | Some st => String.eqb st "success"
          | None => false
          end
       then ret (Some (locationOfResponse data))
       else ret None)
      (fun _ => ret None).
End WithEnv.

(** [calculateDistance] works in floating point through [Math.sin],
    [Math.cos], [Math.atan2] and [Math.sqrt]; the decision below only
    compares its result, so the distance function is a parameter. *)
Section Travel.
Variable calculateDistance : Q -> Q -> Q -> Q -> Q.

Definition isSuspiciousLocationChange
  (prevLat prevLon newLat newLon timeDiffMinutes : Q) : bool :=
  let distance := calculateDistance prevLat prevLon newLat newLon in
  if Js.lt 500 distance && Js.lt timeDiffMinutes 60 then true
  else if Js.lt 2000 distance && Js.lt timeDiffMinutes 180 then true
  else false.
End Travel.

End Geo.

(* ================================================================== *)
(** * services/securityAlert.service.ts *)
(* ================================================================== *)

Module SecurityAlertService.

Import Store.
Local Open Scope svc_scope.
Local Open Scope string_scope.

Record CreateAlertParams := mkCreateAlertParams {
  userId : option string;
  alertType : SecurityAlertType;
  severity : SecurityAlertSeverity;
  message : string;
  metadata : Js.Object
}.

Section WithEnv.
Variable env : Env.

Definition createSecurityAlert (params : CreateAlertParams)
  : M SecurityAlert.t :=
  prisma env SecurityAlertCreate
    (i <- freshId ;;
     let alert :=
       SecurityAlert.mk i (userId params) (alertType params)
         (severity params) (message params) (metadata params)
         false false (now env) in
     modify (set_securityAlerts (fun rows => (rows ++ [alert])%list)) ;;;
     ret alert).

Definition createMultipleDeviceLoginAlert
  (userId userEmail : string)
  (previousDevice previousIP previousLocation : option string)
  (newDevice newIP : string) (newLocation : option string)
  : M SecurityAlert.t :=
  let previousInfo :=
    if Js.truthy previousDevice && Js.truthy previousIP
    then "Previous session on " ++ Js.orElse previousDevice "" ++ " ("
         ++ Js.orElse previousIP "" ++ ") was terminated."
    else "No previous session found." in
  let message := userEmail ++ " logged in from a new device. " ++ previousInfo in
  createSecurityAlert
    (mkCreateAlertParams (Some userId) MULTIPLE_DEVICE_LOGIN MEDIUM message
       [ ("email", Js.JString userEmail);
         ("previousDevice", Js.jsonOfString previousDevice);
         ("previousIP", Js.jsonOfString previousIP);
         ("previousLocation", Js.jsonOfString previousLocation);
         ("newDevice", Js.JString newDevice);
         ("newIP", Js.JString newIP);
         ("newLocation", Js.jsonOfString newLocation);
         ("timestamp", Js.JIsoDate (now env)) ]).

Definition createFailedLoginAlert
  (email ipAddress : string) (location : option string)
  (attemptCount : Z) (reason : string) : M SecurityAlert.t :=
  let severity := if (5 <=? attemptCount)%Z then HIGH else MEDIUM in
  let message :=
    Js.showZ attemptCount ++ " failed login attempt(s) for " ++ email
    ++ " from " ++ ipAddress ++ " ("
    ++ Js.orElse location "Unknown location" ++ ")" in
  createSecurityAlert
    (mkCreateAlertParams None FAILED_LOGIN_ATTEMPT severity message
       [ ("email", Js.JString email);
         ("ipAddress", Js.JString ipAddress);
         ("location", Js.jsonOfString location);
         ("attemptCount", Js.JNumber (inject_Z attemptCount));
         ("reason", Js.JString reason);
         ("timestamp", Js.JIsoDate (now env)) ]).
End WithEnv.

End SecurityAlertService.

(* ================================================================== *)
(** * services/loginHistory.service.ts *)
(* ================================================================== *)

Module LoginHistoryService.

Import Store.
Local Open Scope svc_scope.
Local Open Scope string_scope.

Record CreateLoginHistoryParams := mkParams {
  userId : string;
  email : string;
  ipAddress : option string;
  userAgent : option string;
  macAddress : option string;
  deviceMetadata : option Js.Object;
  success : bool;
  failureReason : option string
}.

Section WithEnv.
Variable env : Env.

Definition createLoginHistory (params : CreateLoginHistoryParams)
  : M LoginHistory.t :=
  locationData <-
    (if Js.truthy (ipAddress params)
     then Geo.getLocationFromIP env (ipAddress params)
     else ret None) ;;
  let deviceFingerprint := deviceFingerprint env (userAgent params) in
  prisma env LoginHistoryCreate
    (i <- freshId ;;
     let row :=
       LoginHistory.mk i (userId params) (email params) (ipAddress params)
         (Js.optChain locationData Geo.location)
         (Js.optChain locationData Geo.city)
         (Js.optChain locationData Geo.country)
         (Js.optChain locationData Geo.latitude)
         (Js.optChain locationData Geo.longitude)
         (macAddress params) (Some deviceFingerprint) (userAgent params)
         (success params) (failureReason params) (now env) in
     modify (set_loginHistories (fun rows => (rows ++ [row])%list)) ;;;
     ret row).
End WithEnv.

End LoginHistoryService.

(* ================================================================== *)
(** * services/sessionActivity.service.ts *)
(* ================================================================== *)

Module SessionActivityService.

Import Store.
Local Open Scope svc_scope.
Local Open Scope string_scope.

Record CreateSessionParams := mkParams {
  userId : string;
  sessionToken : string;
  ipAddress : option string;
  userAgent : option string;
  macAddress : option string;
  deviceMetadata : option Js.Object
}.

(** The [data] of the two invalidation updates. *)
Definition markInactive (at_ : JsDate.Date) (logoutReason : string)
  (s : SessionActivity.t) : SessionActivity.t :=
  SessionActivity.mk
    (SessionActivity.id s) (SessionActivity.userId s)
    (SessionActivity.sessionToken s) (SessionActivity.ipAddress s)
    (SessionActivity.location s) (SessionActivity.city s)
    (SessionActivity.country s) (SessionActivity.latitude s)
    (SessionActivity.longitude s) (SessionActivity.macAddress s)
    (SessionActivity.deviceInfo s) (SessionActivity.userAgent s)
    (SessionActivity.loginAt s) (Some at_) (SessionActivity.lastActivityAt s)
    false (Some logoutReason).

Definition clearSessionToken (u : User.t) : User.t :=
  User.mk (User.id u) (User.email u) (User.passwordHash u) (User.role u)
    (User.status u) (User.lastLoginAt u) (User.lastLoginIP u) None
    (User.billingCycle u) (User.billingCycleStartDate u)
    (User.billingCycleEndDate u) (User.trialPeriodHours u)
    (User.trialStartDate u) (User.trialEndDate u) (User.isTrialActive u)
    (User.isBillingActive u) (User.lastBillingCheckAt u).

Definition tokenEqb (a : option string) (b : string) : bool :=
  match a with Some a => String.eqb a b | None => false end.

Record ForceLogoutResult := mkForceLogoutResult {
  fl_success : bool;
  fl_userId : string;
  fl_userEmail : string
}.

Section WithEnv.
Variable env : Env.

Definition createSession (params : CreateSessionParams)
  : M SessionActivity.t :=
  locationData <-
    (if Js.truthy (ipAddress params)
     then Geo.getLocationFromIP env (ipAddress params)
     else ret None) ;;
  let deviceFingerprint := deviceFingerprint env (userAgent params) in
  prisma env SessionActivityCreate
    (i <- freshId ;;
     let row :=
       SessionActivity.mk i (userId params) (sessionToken params)
         (ipAddress params)
         (Js.optChain locationData Geo.location)
         (Js.optChain locationData Geo.city)
         (Js.optChain locationData Geo.country)
         (Js.optChain locationData Geo.latitude)
         (Js.optChain locationData Geo.longitude)
         (macAddress params) (Some deviceFingerprint) (userAgent params)
         (now env) None (now env) true None in
     modify (set_sessionActivities (fun rows => (rows ++ [row])%list)) ;;;
     ret row).

Definition invalidateSession (sessionToken logoutReason : string) : M bool :=
  count <-
    sessionActivity_updateMany env
      (fun s => String.eqb (SessionActivity.sessionToken s) sessionToken
                && SessionActivity.isActive s)
      (markInactive (now env) logoutReason) ;;
  ret (0 <? count)%nat.

Definition invalidateAllUserSessions (userId logoutReason : string) : M nat :=
  sessionActivity_updateMany env
    (fun s => String.eqb (SessionActivity.userId s) userId
              && SessionActivity.isActive s)
    (markInactive (now env) logoutReason).

Definition getUserActiveSessions (userId : string)
  : M (list SessionActivity.t) :=
  rows <-
    sessionActivity_findMany env
      (fun s => String.eqb (SessionActivity.userId s) userId
                && SessionActivity.isActive s) ;;
  ret (orderByDesc SessionActivity.loginAt rows).

Definition forceLogout (sessionId adminId : string) : M ForceLogoutResult :=
  session <- sessionActivity_findUnique env sessionId ;;
  match session with
  | None => throw (JsError "Session not found")
  | Some session =>
      w <- get ;;
      let user :=
        find (fun u => String.eqb (User.id u) (SessionActivity.userId session))
             (users w) in
      invalidateSession (SessionActivity.sessionToken session)
                        "forced_by_admin" ;;;
      when (SessionActivity.isActive session)
        (user_updateMany env
           (fun u => String.eqb (User.id u) (SessionActivity.userId session)
                     && tokenEqb (User.currentSessionToken u)
                                 (SessionActivity.sessionToken session))
           clearSessionToken ;;; ret tt) ;;;
      match user with
      | Some user =>
          ret (mkForceLogoutResult true (SessionActivity.userId session)
                                   (User.email user))
      | None => throw (JsError "Cannot read properties of null")
      end
  end.
End WithEnv.

End SessionActivityService.

(* ================================================================== *)
(** * services/auth.service.ts *)
(* ================================================================== *)

Module AuthService.

Import Store.
Local Open Scope svc_scope.
Local Open Scope string_scope.

Record AuthTokens := mkAuthTokens {
  accessToken : string;
  refreshToken : string
}.

Record LoginMetadata := mkLoginMetadata {
  ipAddress : option string;
  userAgent : option string;
  macAddress : option string;
  deviceMetadata : option Js.Object
}.

(** [data: { lastLoginAt: new Date(), lastLoginIP: metadata?.ipAddress,
    currentSessionToken: tokens.accessToken }]; an undefined
    [lastLoginIP] leaves the column as it is. *)
Definition recordLogin (at_ : JsDate.Date) (ip : option string)
  (token : string) (u : User.t) : User.t :=
  User.mk (User.id u) (User.email u) (User.passwordHash u) (User.role u)
    (User.status u) (Some at_)
    (match ip with Some ip => Some ip | None => User.lastLoginIP u end)
    (Some token)
    (User.billingCycle u) (User.billingCycleStartDate u)
    (User.billingCycleEndDate u) (User.trialPeriodHours u)
    (User.trialStartDate u) (User.trialEndDate u) (User.isTrialActive u)
    (User.isBillingActive u) (User.lastBillingCheckAt u).

(** [data: { currentSessionToken: tokens.accessToken }] *)
Definition setSessionToken (token : string) (u : User.t) : User.t :=
  User.mk (User.id u) (User.email u) (User.passwordHash u) (User.role u)
    (User.status u) (User.lastLoginAt u) (User.lastLoginIP u) (Some token)
    (User.billingCycle u) (User.billingCycleStartDate u)
    (User.billingCycleEndDate u) (User.trialPeriodHours u)
    (User.trialStartDate u) (User.trialEndDate u) (User.isTrialActive u)
    (User.isBillingActive u) (User.lastBillingCheckAt u).

Definition invalidCredentials : Error :=
  AppError "Invalid email or password" 401.

Section WithEnv.
Variable env : Env.

Definition issueTokens (userId : string) (role : UserRole) : AuthTokens :=
  mkAuthTokens (signAccessToken env userId role)
               (signRefreshToken env userId role).

Definition login (email password : string) (metadata : option LoginMetadata)
  : M (User.t * AuthTokens) :=
  user <- user_findUnique_email env email ;;
  match user with
  | None => throw invalidCredentials
  | Some user =>
    if negb (UserStatus_eqb (User.status user) ACTIVE) then
      (* the failed attempt is recorded only if the user exists *)
      match metadata with
      | Some metadata =>
          LoginHistoryService.createLoginHistory env
            (LoginHistoryService.mkParams (User.id user) email
               (ipAddress metadata) (userAgent metadata)
               (macAddress metadata) None false
               (Some "Invalid credentials or inactive account")) ;;;
          location <- Geo.getLocationFromIP env (ipAddress metadata) ;;
          SecurityAlertService.createFailedLoginAlert env email
            (Js.orElse (ipAddress metadata) "Unknown")
            (Js.orUndefined (Js.optChain location Geo.location))
            1 "Invalid credentials or inactive account" ;;;
          throw invalidCredentials
      | None => throw invalidCredentials
      end
    else if negb (comparePassword env password (User.passwordHash user)) then
      match metadata with
      | Some metadata =>
          LoginHistoryService.createLoginHistory env
            (LoginHistoryService.mkParams (User.id user) email
               (ipAddress metadata) (userAgent metadata)
               (macAddress metadata) None false
               (Some "Incorrect password")) ;;;
          throw invalidCredentials
      | None => throw invalidCredentials
      end
    else
      (* single session enforcement *)
      existingSessions <-
        SessionActivityService.getUserActiveSessions env (User.id user) ;;
      match existingSessions with
      | [] => ret tt
      | oldSession :: _ =>
          let previousDevice :=
            Some (Js.orElse (SessionActivity.deviceInfo oldSession)
                            "Unknown Device") in
          let previousIP :=
            Some (Js.orElse (SessionActivity.ipAddress oldSession)
                            "Unknown IP") in
          let previousLocation := SessionActivity.location oldSession in
          forEach existingSessions
            (fun session =>
               SessionActivityService.invalidateSession env
                 (SessionActivity.sessionToken session) "new_login" ;;;
               ret tt) ;;;
          user_update env (User.id user)
            SessionActivityService.clearSessionToken ;;;
          match metadata with
          | Some metadata =>
              newLocation <- Geo.getLocationFromIP env (ipAddress metadata) ;;
              let newDevice := deviceFingerprint env (userAgent metadata) in
              SecurityAlertService.createMultipleDeviceLoginAlert env
                (User.id user) (User.email user)
                previousDevice previousIP previousLocation
                newDevice (Js.orElse (ipAddress metadata) "Unknown")
                (Js.orUndefined (Js.optChain newLocation Geo.location)) ;;;
              ret tt
          | None => ret tt
          end
      end ;;;
      let tokens := issueTokens (User.id user) (User.role user) in
      user_update env (User.id user)
        (recordLogin (now env) (Js.optChain metadata ipAddress)
                     (accessToken tokens)) ;;;
      match metadata with
      | Some metadata =>
          LoginHistoryService.createLoginHistory env
            (LoginHistoryService.mkParams (User.id user) (User.email user)
               (ipAddress metadata) (userAgent metadata)
               (macAddress metadata) (deviceMetadata metadata) true None) ;;;
          SessionActivityService.createSession env
            (SessionActivityService.mkParams (User.id user)
               (accessToken tokens) (ipAddress metadata)
               (userAgent metadata) (macAddress metadata)
               (deviceMetadata metadata)) ;;;
          ret tt
      | None => ret tt
      end ;;;
      ret (user, tokens)
  end.

Definition refreshTokens (refreshToken : string) : M AuthTokens :=
  tryCatch
    match verifyRefreshToken env refreshToken with
    | None => throw (JsError "invalid token")
    | Some payload =>
        user <- user_findUnique_id env (sub payload) ;;
        match user with
        | None => throw (AppError "User is not active" 403)
        | Some user =>
            if negb (UserStatus_eqb (User.status user) ACTIVE)
            then throw (AppError "User is not active" 403)
            else
              let tokens := issueTokens (User.id user) (User.role user) in
              user_update env (User.id user)
                (setSessionToken (accessToken tokens)) ;;;
              ret tokens
        end
    end
    (fun _ => throw (AppError "Invalid refresh token" 401)).
End WithEnv.

End AuthService.

(* ================================================================== *)
(** * services/billing.service.ts *)
(* ================================================================== *)

Module BillingService.

Import Store JsDate.
Local Open Scope svc_scope.
Local Open Scope string_scope.

Definition cycleName (cycle : BillingCycle) : string :=
  match cycle with
  | DAILY => "DAILY" | WEEKLY => "WEEKLY" | MONTHLY => "MONTHLY"
  | THREE_MONTHS => "THREE_MONTHS" | HALF_YEAR => "HALF_YEAR"
  | YEARLY => "YEARLY"
  end.

(** The [default] branch of the source, which throws, is unreachable:
    [BillingCycle] has no other value. *)
Definition calculateCycleEndDate (startDate : Date) (cycle : BillingCycle)
  : Date :=
  let endDate := startDate in
  match cycle with
  | DAILY => setDate endDate (getDate endDate + 1)
  | WEEKLY => setDate endDate (getDate endDate + 7)
  | MONTHLY => setMonth endDate (getMonth endDate + 1)
  | THREE_MONTHS => setMonth endDate (getMonth endDate + 3)
  | HALF_YEAR => setMonth endDate (getMonth endDate + 6)
  | YEARLY => setFullYear endDate (getFullYear endDate + 1)
  end.

Definition startCycleData (cycle : BillingCycle) (cycleStart cycleEnd at_ : Date)
  (u : User.t) : User.t :=
  User.mk (User.id u) (User.email u) (User.passwordHash u) (User.role u)
    (User.status u) (User.lastLoginAt u) (User.lastLoginIP u)
    (User.currentSessionToken u)
    (Some cycle) (Some cycleStart) (Some cycleEnd)
    (User.trialPeriodHours u) None None false true (Some at_).

Definition addPaymentData (cycle : BillingCycle) (cycleStart cycleEnd at_ : Date)
  (u : User.t) : User.t :=
  User.mk (User.id u) (User.email u) (User.passwordHash u) (User.role u)
    (User.status u) (User.lastLoginAt u) (User.lastLoginIP u)
    (User.currentSessionToken u)
    (Some cycle) (Some cycleStart) (Some cycleEnd)
    (User.trialPeriodHours u) (User.trialStartDate u) (User.trialEndDate u)
    false true (Some at_).

Definition setTrialData (hours : Z) (trialStart trialEnd at_ : Date)
  (u : User.t) : User.t :=
  User.mk (User.id u) (User.email u) (User.passwordHash u) (User.role u)
    (User.status u) (User.lastLoginAt u) (User.lastLoginIP u)
    (User.currentSessionToken u)
    None None None
    (Some hours) (Some trialStart) (Some trialEnd) true false (Some at_).

Definition disableBillingData (at_ : Date) (u : User.t) : User.t :=
  User.mk (User.id u) (User.email u) (User.passwordHash u) (User.role u)
    DISABLED (User.lastLoginAt u) (User.lastLoginIP u)
    (User.currentSessionToken u)
    (User.billingCycle u) (User.billingCycleStartDate u)
    (User.billingCycleEndDate u) (User.trialPeriodHours u)
    (User.trialStartDate u) (User.trialEndDate u) (User.isTrialActive u)
    false (Some at_).

Definition disableTrialData (at_ : Date) (u : User.t) : User.t :=
  User.mk (User.id u) (User.email u) (User.passwordHash u) (User.role u)
    DISABLED (User.lastLoginAt u) (User.lastLoginIP u)
    (User.currentSessionToken u)
    (User.billingCycle u) (User.billingCycleStartDate u)
    (User.billingCycleEndDate u) (User.trialPeriodHours u)
    (User.trialStartDate u) (User.trialEndDate u) false
    (User.isBillingActive u) (Some at_).

(** [{ lt: now }] on a nullable column: null never matches. *)
Definition dateLt (d : option Date) (now : Date) : bool :=
  match d with Some d => (d <? now)%Z | None => false end.

Definition isoOrNull (d : option Date) : Js.Json :=
  match d with Some d => Js.JIsoDate d | None => Js.JNull end.

Record BillingStatus := mkBillingStatus {
  bs_user : User.t;
  isExpired : bool;
  daysRemaining : option Z;
  statusMessage : string;
  recentPayments : list Payment.t
}.

Record SweepResult := mkSweepResult {
  disabled : nat;
  expiredUsers : list string
}.

Section WithEnv.
Variable env : Env.

Definition billingHistory_create (userId action : string) (details : Js.Object)
  : M BillingHistory.t :=
  prisma env BillingHistoryCreate
    (i <- freshId ;;
     let row := BillingHistory.mk i userId action details (now env) in
     modify (set_billingHistories (fun rows => (rows ++ [row])%list)) ;;;
     ret row).

Definition startBillingCycle (userId : string) (cycle : BillingCycle)
  (startDate : option Date) : M User.t :=
  user <- user_findUnique_id env userId ;;
  match user with
  | None => throw (AppError "User not found" 404)
  | Some _ =>
      let cycleStart :=
        match startDate with Some d => d | None => now env end in
      let cycleEnd := calculateCycleEndDate cycleStart cycle in
      updatedUser <-
        user_update env userId
          (startCycleData cycle cycleStart cycleEnd (now env)) ;;
      billingHistory_create userId "CYCLE_STARTED"
        [ ("cycle", Js.JString (cycleName cycle));
          ("startDate", Js.JIsoDate cycleStart);
          ("endDate", Js.JIsoDate cycleEnd) ] ;;;
      ret updatedUser
  end.

Definition addPayment (userId : string) (cycle : BillingCycle) (amount : Q)
  (memo adminId : option string) : M (Payment.t * User.t) :=
  user <- user_findUnique_id env userId ;;
  match user with
  | None => throw (AppError "User not found" 404)
  | Some user =>
      let paymentDate := now env in
      let cycleStart :=
        match User.billingCycleEndDate user with
        | Some e => if (paymentDate <? e)%Z then e else paymentDate
        | None => paymentDate
        end in
      let cycleEnd := calculateCycleEndDate cycleStart cycle in
      payment <-
        prisma env PaymentCreate
          (i <- freshId ;;
           let row :=
             Payment.mk i userId amount cycle PAID paymentDate
               cycleStart cycleEnd (Js.orUndefined memo)
               (Js.orUndefined adminId) (now env) in
           modify (set_payments (fun rows => (rows ++ [row])%list)) ;;;
           ret row) ;;
      updatedUser <-
        user_update env userId
          (addPaymentData cycle cycleStart cycleEnd (now env)) ;;
      billingHistory_create userId "PAYMENT_ADDED"
        [ ("paymentId", Js.JString (Payment.id payment));
          ("amount", Js.JShow amount);
          ("cycle", Js.JString (cycleName cycle));
          ("memo", Js.jsonOfString (Js.orUndefined memo));
          ("cycleStartDate", Js.JIsoDate cycleStart);
          ("cycleEndDate", Js.JIsoDate cycleEnd) ] ;;;
      ret (payment, updatedUser)
  end.

Definition setTrialPeriod (userId : string) (hours : Z) : M User.t :=
  user <- user_findUnique_id env userId ;;
  match user with
  | None => throw (AppError "User not found" 404)
  | Some _ =>
      let trialStart := now env in
      let trialEnd := setHours trialStart (getHours trialStart + hours) in
      updatedUser <-
        user_update env userId
          (setTrialData hours trialStart trialEnd (now env)) ;;
      billingHistory_create userId "TRIAL_STARTED"
        [ ("hours", Js.JNumber (inject_Z hours));
          ("startDate", Js.JIsoDate trialStart);
          ("endDate", Js.JIsoDate trialEnd) ] ;;;
      ret updatedUser
  end.

(** The status projection computed once the user row is read. *)
Definition billingStatusOf (user : User.t) (payments : list Payment.t)
  : BillingStatus :=
  let now := now env in
  match User.isTrialActive user, User.trialEndDate user with
  | true, Some trialEndDate =>
      if (trialEndDate <? now)%Z
      then mkBillingStatus user true None "Trial period expired" payments
      else
        let diff := (getTime trialEndDate - getTime now)%Z in
        let days := Js.ceilDiv diff (1000 * 60 * 60 * 24) in
        mkBillingStatus user false (Some days)
          ("Trial active - " ++ Js.showZ days ++ " day(s) remaining") payments
  | _, _ =>
      match User.isBillingActive user, User.billingCycleEndDate user with
      | true, Some billingCycleEndDate =>
          if (billingCycleEndDate <? now)%Z
          then mkBillingStatus user true None "Billing cycle expired" payments
          else
            let diff := (getTime billingCycleEndDate - getTime now)%Z in
            let days := Js.ceilDiv diff (1000 * 60 * 60 * 24) in
            mkBillingStatus user false (Some days)
              ("Active - " ++ Js.showZ days ++ " day(s) remaining") payments
      | _, _ => mkBillingStatus user false None "No billing cycle set" payments
      end
  end.

(** The user row is read together with its ten latest payments
    ([include: { payments: { orderBy: { createdAt: 'desc' }, take: 10 } }]). *)
Definition getUserBillingStatus (userId : string) : M BillingStatus :=
  user <- user_findUnique_id env userId ;;
  match user with
  | None => throw (AppError "User not found" 404)
  | Some user =>
      w <- get ;;
      let payments :=
        firstn 10
          (orderByDesc Payment.createdAt
             (filter (fun p => String.eqb (Payment.userId p) userId)
                     (payments w))) in
      ret (billingStatusOf user payments)
  end.

Definition expiredBillingWhere (now : Date) (u : User.t) : bool :=
  User.isBillingActive u
  && dateLt (User.billingCycleEndDate u) now
  && negb (UserStatus_eqb (User.status u) DISABLED).

Definition expiredTrialWhere (now : Date) (u : User.t) : bool :=
  User.isTrialActive u
  && dateLt (User.trialEndDate u) now
  && negb (UserStatus_eqb (User.status u) DISABLED).

Definition checkAndDisableExpiredAccounts : M SweepResult :=
  let now := now env in
  expiredBillingUsers <- user_findMany env (expiredBillingWhere now) ;;
  expiredTrialUsers <- user_findMany env (expiredTrialWhere now) ;;
  forEach expiredBillingUsers
    (fun user =>
       user_update env (User.id user) (disableBillingData now) ;;;
       billingHistory_create (User.id user) "AUTO_DISABLED"
         [ ("reason", Js.JString "Billing cycle expired");
           ("expiredDate", isoOrNull (User.billingCycleEndDate user)) ] ;;;
       ret tt) ;;;
  forEach expiredTrialUsers
    (fun user =>
       user_update env (User.id user) (disableTrialData now) ;;;
       billingHistory_create (User.id user) "AUTO_DISABLED"
         [ ("reason", Js.JString "Trial period expired");
           ("expiredDate", isoOrNull (User.trialEndDate user)) ] ;;;
       ret tt) ;;;
  let expiredUsers :=
    (map User.id expiredBillingUsers ++ map User.id expiredTrialUsers)%list in
  ret (mkSweepResult (List.length expiredUsers) expiredUsers).
End WithEnv.

End BillingService.

(* ================================================================== *)
(** * Vocabulary of the claims *)
(* ================================================================== *)

Module Claims.

Import JsDate Store.

(** Months added by the month-based cycles. *)
Definition monthsOfCycle (cycle : BillingCycle) : option Z :=
  match cycle with
  | MONTHLY => Some 1
  | THREE_MONTHS => Some 3
  | HALF_YEAR => Some 6
  | DAILY | WEEKLY | YEARLY => None
  end.

(** Year and month (0..11) reached [k] months after the month of [start]. *)
Definition targetYear (start : Date) (k : Z) : Z :=
  getFullYear start + (getMonth start + k) / 12.

Definition targetMonth (start : Date) (k : Z) : Z :=
  (getMonth start + k) mod 12.

(** The clamping rule as the specification words it: the end date lies
    in the target month, on the start's day of the month or, if the
    month is shorter, on its last day. *)
Definition clampedEndDate (start : Date) (cycle : BillingCycle) : Prop :=
  forall k, monthsOfCycle cycle = Some k ->
    let e := BillingService.calculateCycleEndDate start cycle in
    getFullYear e = targetYear start k /\
    getMonth e = targetMonth start k /\
    getDate e =
      Z.min (getDate start) (DaysInMonth (targetYear start k) (targetMonth start k)).

End Claims.

Module GeoClaims.

Import Store.
Local Open Scope string_scope.

(** The suspicious-travel rule as the specification words it, with
    inclusive distance thresholds. *)
Definition suspiciousTravelSpec (d t : Q) : Prop :=
  (500 <= d /\ t < 60)%Q \/ (2000 <= d /\ t < 180)%Q.

(** The addresses the specification lists as answered without a
    lookup. *)
Definition listedAsLocal (ipAddress : option string) : Prop :=
  match ipAddress with
  | None => True
  | Some ip =>
      ip = "::1" \/ ip = "127.0.0.1" \/
      String.prefix "192.168." ip = true \/
      String.prefix "10." ip = true \/
      String.prefix "172." ip = true
  end.

(** The addresses the code answers without a lookup: the listed ones and
    the empty string, which is falsy like [undefined]. *)
Definition answeredLocally (ipAddress : option string) : Prop :=
  listedAsLocal ipAddress \/ ipAddress = Some "".

(** What the specification promises for an address that is not listed:
    the call returns, with the provider's data or with null. *)
Definition lookupOrNull (env : Env) (ipAddress : option string) (w : World) : Prop :=
  exists w' result,
    Geo.getLocationFromIP env ipAddress w = (w', inr result) /\
    (result = None \/
     exists ip data,
       ipAddress = Some ip /\
       axiosGet env (Geo.lookupUrl ip) = AxiosResponse data /\
       result = Some (Geo.locationOfResponse data)).

End GeoClaims.

(* ================================================================== *)
(** * Concrete stores and environments *)
(* ================================================================== *)

Module Fixtures.

Import Store.
Local Open Scope string_scope.

(** The database answers; every password is wrong, the token codec is
    mute and the geolocation provider times out. *)
Definition quietEnv : Env :=
  mkEnv 0 (fun _ => false) (fun _ _ => false) (fun _ _ => "") (fun _ _ => "")
        (fun _ => None) (fun _ => AxiosError "timeout of 5000ms exceeded")
        (fun _ => "Unknown Device").

Definition emptyWorld : World := mkWorld [] [] [] [] [] [] 0 [].

(** Alice, signed in once from a Mac. *)
Definition alice : User.t :=
  User.mk "u1" "alice@x" "hash-of-sesame" USER ACTIVE (Some 1000) (Some "1.2.3.4")
          (Some "T1") None None None None None None false true None.

Definition session1 : SessionActivity.t :=
  SessionActivity.mk "s1" "u1" "T1" (Some "1.2.3.4") None None None None None
    None (Some "macOS - Chrome - Desktop") None 1000 None 1000 true None.

Definition aliceOnline : World := mkWorld [alice] [session1] [] [] [] [] 2 [].

(** The quiet environment at another instant. *)
Definition envAt (t : JsDate.Date) : Env :=
  mkEnv t (fun _ => false) (fun _ _ => false) (fun _ _ => "") (fun _ _ => "")
        (fun _ => None) (fun _ => AxiosError "timeout of 5000ms exceeded")
        (fun _ => "Unknown Device").

(** Bob's billing cycle ended at instant 5000; Carol's trial ends at
    instant 9000. *)
Definition bob : User.t :=
  User.mk "u2" "bob@x" "hash-of-swordfish" USER ACTIVE None None None
          (Some MONTHLY) (Some 1000) (Some 5000) None None None false true None.

Definition carol : User.t :=
  User.mk "u3" "carol@x" "hash-of-xyzzy" USER ACTIVE None None None
          None None None (Some 24) (Some 1000) (Some 9000) true false None.

Definition bobAndCarol : World := mkWorld [bob; carol] [] [] [] [] [] 3 [].

(** An environment for the login pipeline at instant [t]: the password
    that matches a hash [h] is the one whose text follows "hash-of-" in
    [h]; the codec mints the given access and refresh tokens, and takes
    "R1" for a refresh token of user u1; the queries in [broken] are
    rejected by the database. *)
Definition sessionEnv (t : JsDate.Date) (access refresh : string)
  (broken : Query -> bool) : Env :=
  mkEnv t broken
        (fun password hash => String.eqb hash ("hash-of-" ++ password))
        (fun _ _ => access) (fun _ _ => refresh)
        (fun token =>
           if String.eqb token "R1" then Some (mkJwtPayload "u1" USER) else None)
        (fun _ => AxiosError "timeout of 5000ms exceeded")
        (fun _ => "Windows 10/11 - Chrome 131 - Desktop").

Definition noFault : Query -> bool := fun _ => false.

Definition alertsDown (q : Query) : bool :=
  match q with SecurityAlertCreate => true | _ => false end.

(** A sign-in from a Windows machine at a public address. *)
Definition fromWindows : AuthService.LoginMetadata :=
  AuthService.mkLoginMetadata (Some "5.6.7.8") (Some "Mozilla/5.0 (Windows NT 10.0)")
                              None None.

(** Alice before her first sign-in. *)
Definition aliceRegistered : World :=
  mkWorld
    [User.mk "u1" "alice@x" "hash-of-sesame" USER ACTIVE None None None
             None None None None None None false true None]
    [] [] [] [] [] 1 [].

(** Dave's account is suspended. *)
Definition dave : User.t :=
  User.mk "u4" "dave@x" "hash-of-plugh" USER SUSPENDED None None None
          None None None None None None false true None.

Definition daveSuspended : World := mkWorld [dave] [] [] [] [] [] 4 [].

End Fixtures.

Module SessionClaims.

Import Store SessionActivityService.
Local Open Scope string_scope.


End SessionClaims.

Module BillingClaims.

Import Store BillingService.

(** Some row of the table has the id. *)
Definition hasId (i : string) (us : list User.t) : Prop :=
  exists u, In u us /\ User.id u = i.

(** The user row after both loops of one sweep over the table [us]. *)
Definition sweptRow (now : JsDate.Date) (us : list User.t) (u : User.t) : User.t :=
  let u1 :=
    if existsb (fun x => String.eqb (User.id u) (User.id x))
               (filter (expiredBillingWhere now) us)
    then disableBillingData now u else u in
  if existsb (fun x => String.eqb (User.id u1) (User.id x))
             (filter (expiredTrialWhere now) us)
  then disableTrialData now u1 else u1.

(** Every user selected by a sweep at [now] ends disabled, with the flag
    of the expired plan cleared. *)
Definition expiredAreDisabled (now : JsDate.Date) (before after : list User.t)
  : Prop :=
  Forall2
    (fun u u' =>
       (expiredBillingWhere now u = true ->
          User.status u' = DISABLED /\ User.isBillingActive u' = false) /\
       (expiredTrialWhere now u = true ->
          User.status u' = DISABLED /\ User.isTrialActive u' = false))
    before after.

(** No plan that a sweep looks at ends from instant [t1] on and before
    instant [t2]: for an account that is not disabled, the end date of a
    plan whose flag is set is before [t1], or at [t2] or later.  Between
    two sweeps at these instants, with no write in between, no further
    account becomes due. *)
Definition noPlanEndsBetween (t1 t2 : JsDate.Date) (u : User.t) : Prop :=
  User.status u <> DISABLED ->
  (User.isBillingActive u = true ->
   forall d, User.billingCycleEndDate u = Some d -> (d < t1 \/ t2 <= d)%Z) /\
  (User.isTrialActive u = true ->
   forall d, User.trialEndDate u = Some d -> (d < t1 \/ t2 <= d)%Z).

(** Shortest duration, in days, a cycle can have: a day, a week, and
    the shortest runs of one, three and six calendar months and of a
    year. *)
Definition minCycleDays (cycle : BillingCycle) : Z :=
  match cycle with
  | DAILY => 1
  | WEEKLY => 7
  | MONTHLY => 28
  | THREE_MONTHS => 89
  | HALF_YEAR => 181
  | YEARLY => 365
  end.

(** Start of the cycle bought by a payment made at [now]: the later of
    [now] and the end of the running cycle, if there is one. *)
Definition stackedStart (now : JsDate.Date) (user : User.t) : JsDate.Date :=
  Z.max now (match User.billingCycleEndDate user with
             | Some e => e
             | None => now
             end).

(** The Payment row the claim describes. *)
Definition paymentRecorded (env : Env) (userId : string) (cycle : BillingCycle)
  (amount : Q) (cycleStart cycleEnd : JsDate.Date) (p : Payment.t) : Prop :=
  Payment.userId p = userId /\
  Payment.amount p = amount /\
  Payment.billingCycle p = cycle /\
  Payment.status p = PAID /\
  Payment.paymentDate p = now env /\
  Payment.cycleStartDate p = cycleStart /\
  Payment.cycleEndDate p = cycleEnd.

End BillingClaims.

(* ================================================================== *)
(** * Vocabulary of the login claims *)
(* ================================================================== *)

Module AuthClaims.

Import Store.

(** A call that leaves the user and session tables as they are,
    whatever it returns. *)
Definition keepsSessions {A} (m : M A) : Prop :=
  forall w, users (fst (m w)) = users w /\
            sessionActivities (fst (m w)) = sessionActivities w.

(** A call that writes no security alert. *)
Definition keepsAlerts {A} (m : M A) : Prop :=
  forall w, securityAlerts (fst (m w)) = securityAlerts w.

(** A call that always throws, and one that always returns. *)
Definition alwaysThrows {A} (m : M A) : Prop :=
  forall w, exists e, snd (m w) = inl e.

Definition throwsExactly {A} (e : Error) (m : M A) : Prop :=
  forall w, snd (m w) = inl e.

Definition alwaysReturns {A} (m : M A) : Prop :=
  forall w, exists a, snd (m w) = inr a.

(** The credentials are rejected: no such user, an account that is not
    active, or a password that does not match. *)
Definition credentialsRejected (env : Env) (email password : string) (w : World)
  : Prop :=
  match find (fun u => String.eqb (User.email u) email) (users w) with
  | None => True
  | Some u =>
      User.status u <> ACTIVE \/
      comparePassword env password (User.passwordHash u) = false
  end.

(** Expiry as the specification words it for the login gate: an active
    plan whose end date is now or earlier. *)
Definition expiredAtOrBefore (now : JsDate.Date) (u : User.t) : Prop :=
  (User.isTrialActive u = true /\
   exists e, User.trialEndDate u = Some e /\ (e <= now)%Z) \/
  (User.isBillingActive u = true /\
   exists e, User.billingCycleEndDate u = Some e /\ (e <= now)%Z).

(** Expiry as the store's queries have it: the end date is strictly
    earlier than now. *)
Definition expiredBefore (now : JsDate.Date) (u : User.t) : Prop :=
  (User.isTrialActive u = true /\
   exists e, User.trialEndDate u = Some e /\ (e < now)%Z) \/
  (User.isBillingActive u = true /\
   exists e, User.billingCycleEndDate u = Some e /\ (e < now)%Z).

(** The billing gate the specification gives to login: the call throws a
    403 and the user and session tables are as before. *)
Definition rejectedAsExpired (env : Env) (email password : string)
  (metadata : option AuthService.LoginMetadata) (w : World) : Prop :=
  exists w' message,
    AuthService.login env email password metadata w
      = (w', inl (AppError message 403)) /\
    users w' = users w /\
    sessionActivities w' = sessionActivities w.

(** The active session rows of a user. *)
Definition activeSessionsOf (userId : string) (w : World)
  : list SessionActivity.t :=
  filter (fun s => String.eqb (SessionActivity.userId s) userId
                   && SessionActivity.isActive s)
         (sessionActivities w).

(** C3 as the specification words it: whatever makes login throw, the
    current session tokens and the active sessions of the user are as
    before. *)
Definition failedLoginHarmless (env : Env) (email password : string)
  (metadata : option AuthService.LoginMetadata) (userId : string) (w : World)
  : Prop :=
  forall w' e,
    AuthService.login env email password metadata w = (w', inl e) ->
    map User.currentSessionToken (users w') = map User.currentSessionToken (users w) /\
    activeSessionsOf userId w' = activeSessionsOf userId w.

(** The session table after a call that only closes sessions: row by
    row, a row is as before or is an inactive row of the same user with
    the same token. *)
Definition closes (rows rows' : list SessionActivity.t) : Prop :=
  Forall2
    (fun r r' =>
       r' = r \/
       (SessionActivity.isActive r' = false /\
        SessionActivity.userId r' = SessionActivity.userId r /\
        SessionActivity.sessionToken r' = SessionActivity.sessionToken r))
    rows rows'.

Definition closer {A} (m : M A) : Prop :=
  forall w, closes (sessionActivities w) (sessionActivities (fst (m w))).

(** The session table after a login that started from [rows]: sessions
    were only closed, or they were closed, all those of the user among
    them, and one row was added for that user. *)
Definition sessionsAfterLogin (rows : list SessionActivity.t) (w' : World)
  : Prop :=
  closes rows (sessionActivities w') \/
  exists rows1 new,
    sessionActivities w' = (rows1 ++ [new])%list /\
    closes rows rows1 /\
    (forall r, In r rows1 ->
       SessionActivity.userId r = SessionActivity.userId new ->
       SessionActivity.isActive r = false).

(** Single-session enforcement: no user has two active session rows. *)
Definition singleSession (w : World) : Prop :=
  forall userId, (List.length (activeSessionsOf userId w) <= 1)%nat.

(** The operations on sessions, each in the environment it runs in. *)
Inductive SessionOp :=
| OpLogin (env : Env) (email password : string)
          (metadata : option AuthService.LoginMetadata)
| OpRefresh (env : Env) (refreshToken : string)
| OpInvalidate (env : Env) (sessionToken logoutReason : string)
| OpInvalidateAll (env : Env) (userId logoutReason : string)
| OpForceLogout (env : Env) (sessionId adminId : string).

Definition runOp (w : World) (op : SessionOp) : World :=
  match op with
  | OpLogin env email password metadata =>
      fst (AuthService.login env email password metadata w)
  | OpRefresh env refreshToken =>
      fst (AuthService.refreshTokens env refreshToken w)
  | OpInvalidate env sessionToken logoutReason =>
      fst (SessionActivityService.invalidateSession env sessionToken logoutReason w)
  | OpInvalidateAll env userId logoutReason =>
      fst (SessionActivityService.invalidateAllUserSessions env userId logoutReason w)
  | OpForceLogout env sessionId adminId =>
      fst (SessionActivityService.forceLogout env sessionId adminId w)
  end.

Definition runOps (ops : list SessionOp) (w : World) : World :=
  fold_left runOp ops w.

End AuthClaims.

(* ================================================================== *)
(** * utils/deviceFingerprint.ts *)
(* ================================================================== *)

Module DeviceFingerprint.

Local Open Scope string_scope.

Inductive DeviceType := Desktop | Mobile | Tablet | Unknown.

Definition deviceTypeName (t : DeviceType) : string :=
  match t with
  | Desktop => "Desktop"
  | Mobile => "Mobile"
  | Tablet => "Tablet"
  | Unknown => "Unknown"
  end.

Definition DeviceType_eqb (a b : DeviceType) : bool :=
  match a, b with
  | Desktop, Desktop | Mobile, Mobile | Tablet, Tablet | Unknown, Unknown => true
  | _, _ => false
  end.

Record DeviceInfo := mkDeviceInfo {
  os : option string;
  osVersion : option string;
  browser : option string;
  browserVersion : option string;
  device : option string;
  deviceType : option DeviceType;
  platform : option string;
  fullInfo : option string
}.

(** [s.includes (sub)] *)
Fixpoint includes (s sub : string) : bool :=
  String.prefix sub s ||
  match s with
  | EmptyString => false
  | String _ s' => includes s' sub
  end.

(** [s] without its first [n] characters. *)
Fixpoint drop (n : nat) (s : string) : string :=
  match n, s with
  | O, _ => s
  | S n', String _ s' => drop n' s'
  | S _, EmptyString => EmptyString
  end.

(** [\d] *)
Definition isDigit (c : ascii) : bool :=
  let n := nat_of_ascii c in (48 <=? n)%nat && (n <=? 57)%nat.

(** The longest run of digits at the start of [s], and what follows it. *)
Fixpoint digits (s : string) : string * string :=
  match s with
  | String c s' =>
      if isDigit c
      then let (d, r) := digits s' in (String c d, r)
      else (EmptyString, s)
  | EmptyString => (EmptyString, EmptyString)
  end.

(** The character classes that separate the numbers of a version. *)
Definition dot (c : ascii) : bool := Ascii.eqb c ".".
Definition underscore (c : ascii) : bool := Ascii.eqb c "_".
Definition dotOrUnderscore (c : ascii) : bool := dot c || underscore c.

(** [\d+] followed by one [<sep>\d+] for each class of [seps], matched
    where [s] starts.  In the patterns of this file every [\d+] is
    followed by a separator that is no digit, or ends the pattern: a run
    of digits shorter than the longest one is followed by a digit, so
    backtracking into it cannot match, and the match, if there is one,
    takes the longest run each time. *)
Fixpoint digitGroups (seps : list (ascii -> bool)) (s : string) : option string :=
  let (d, r) := digits s in
  match d with
  | EmptyString => None
  | String _ _ =>
      match seps with
      | [] => Some d
      | sep :: seps' =>
          match r with
          | String c r' =>
              if sep c
              then match digitGroups seps' r' with
                   | Some g => Some (d ++ String c g)
                   | None => None
                   end
              else None
          | EmptyString => None
          end
      end
  end.

(** [s.match (/<lit>(\d+<sep>\d+...)/)]: the group captured by the
    leftmost match, if the pattern matches somewhere. *)
Fixpoint matchAfter (lit : string) (seps : list (ascii -> bool)) (s : string)
  : option string :=
  match (if String.prefix lit s
         then digitGroups seps (drop (String.length lit) s)
         else None) with
  | Some g => Some g
  | None =>
      match s with
      | String _ s' => matchAfter lit seps s'
      | EmptyString => None
      end
  end.

(** [s.replace (/_/g, '.')] *)
Fixpoint underscoresToDots (s : string) : string :=
  match s with
  | String c s' =>
      String (if underscore c then "."%char else c) (underscoresToDots s')
  | EmptyString => EmptyString
  end.

(** The five detections of [parseDeviceInfo], in the order of the
    source; each is one [if ... else if ...] chain over the User-Agent. *)
Definition detectOS (ua : string) : option string * option string :=
  let has := includes ua in
  if has "Windows NT 10.0" then (Some "Windows", Some "10/11")
  else if has "Windows NT 6.3" then (Some "Windows", Some "8.1")
  else if has "Windows NT 6.2" then (Some "Windows", Some "8")
  else if has "Windows NT 6.1" then (Some "Windows", Some "7")
  else if has "Mac OS X" then
    (Some "macOS",
     option_map underscoresToDots
       (matchAfter "Mac OS X " [dotOrUnderscore; dotOrUnderscore] ua))
  else if has "Linux" then (Some "Linux", None)
  else if has "Android" then (Some "Android", matchAfter "Android " [dot] ua)
  else if has "iOS" || has "iPhone" || has "iPad" then
    (Some "iOS", option_map underscoresToDots (matchAfter "OS " [underscore] ua))
  else (None, None).

Definition detectBrowser (ua : string) : option string * option string :=
  let has := includes ua in
  if has "Edg/" then (Some "Edge", matchAfter "Edg/" [dot] ua)
  else if has "Chrome/" && negb (has "Chromium") then
    (Some "Chrome", matchAfter "Chrome/" [dot] ua)
  else if has "Firefox/" then (Some "Firefox", matchAfter "Firefox/" [dot] ua)
  else if has "Safari/" && negb (has "Chrome") then
    (Some "Safari", matchAfter "Version/" [dot] ua)
  else if has "Electron" then (Some "Electron", matchAfter "Electron/" [dot] ua)
  else (None, None).

Definition detectDeviceType (ua : string) : DeviceType :=
  let has := includes ua in
  if has "Mobile" || has "Android" then Mobile
  else if has "Tablet" || has "iPad" then Tablet
  else Desktop.

Definition detectDevice (ua : string) : option string :=
  let has := includes ua in
  if has "iPhone" then Some "iPhone"
  else if has "iPad" then Some "iPad"
  else if has "Macintosh" then Some "Mac"
  else if has "Windows" then Some "Windows PC"
  else if has "Linux" then Some "Linux PC"
  else None.

Definition detectPlatform (ua : string) : option string :=
  let has := includes ua in
  if has "Win64" || has "WOW64" then Some "Windows 64-bit"
  else if has "Win32" then Some "Windows 32-bit"
  else if has "x86_64" || has "x64" then Some "64-bit"
  else if has "ARM" then Some "ARM"
  else None.

Definition parseDeviceInfo (userAgent : option string) : DeviceInfo :=
  if negb (Js.truthy userAgent)
  then mkDeviceInfo None None None None None (Some Unknown) None
                    (Some "Unknown Device")
  else
    let ua := Js.orElse userAgent "" in
    mkDeviceInfo (fst (detectOS ua)) (snd (detectOS ua))
                 (fst (detectBrowser ua)) (snd (detectBrowser ua))
                 (detectDevice ua) (Some (detectDeviceType ua))
                 (detectPlatform ua) (Some ua).

(** The part of the fingerprint a name and its version give:
    [version ? `${name} ${version}` : name], pushed if [name] is truthy. *)
Definition nameAndVersion (name version : option string) : list string :=
  match name with
  | Some n =>
      if String.eqb n "" then []
      else [ if Js.truthy version then n ++ " " ++ Js.orElse version "" else n ]
  | None => []
  end.

Definition getDeviceFingerprint (deviceInfo : DeviceInfo) : string :=
  let parts :=
    (nameAndVersion (os deviceInfo) (osVersion deviceInfo)
     ++ nameAndVersion (browser deviceInfo) (browserVersion deviceInfo)
     ++ match deviceType deviceInfo with
        | Some t => [deviceTypeName t]
        | None => []
        end)%list in
  match parts with
  | [] => "Unknown Device"
  | _ :: _ => String.concat " - " parts
  end.

(** [a && b && a !== b] on two optional fields. *)
Definition differ (a b : option string) : bool :=
  Js.truthy a && Js.truthy b
  && negb (String.eqb (Js.orElse a "") (Js.orElse b "")).

Definition areSameDevice (device1 device2 : DeviceInfo) : bool :=
  if differ (os device1) (os device2) then false
  else if differ (browser device1) (browser device2) then false
  else if match deviceType device1, deviceType device2 with
          | Some t1, Some t2 => negb (DeviceType_eqb t1 t2)
          | _, _ => false
          end then false
  else true.

Record ClientMetadata := mkClientMetadata {
  cm_os : option string;
  cm_platform : option string;
  cm_hostname : option string;
  cm_macAddress : option string;
  cm_userAgent : option string
}.

(** [if (field) parts.push (show field)] *)
Definition pushed (field : option string) (show : string -> string)
  : list string :=
  match field with
  | Some s => if String.eqb s "" then [] else [show s]
  | None => []
  end.

Definition createDeviceInfoFromMetadata (metadata : ClientMetadata) : string :=
  let parts :=
    (pushed (cm_os metadata) (fun s => s)
     ++ pushed (cm_platform metadata) (fun s => s)
     ++ pushed (cm_hostname metadata) (fun s => ("[" ++ s ++ "]")%string)
     ++ pushed (cm_macAddress metadata)
          (fun s => ("MAC: " ++ String.substring 0 8 s ++ "...")%string))%list in
  match parts with
  | [] => "Unknown Device"
  | _ :: _ => String.concat " | " parts
  end.

End DeviceFingerprint.

Module DeviceProperties.

Import DeviceFingerprint.
Local Open Scope string_scope.

(** Every character of [s] satisfies [p]. *)
Fixpoint every (p : ascii -> bool) (s : string) : bool :=
  match s with
  | String c s' => p c && every p s'
  | EmptyString => true
  end.

(** A version as the browser patterns capture it: two non-empty runs
    of digits around one dot. *)
Definition majorMinor (v : string) : Prop :=
  exists major minor : string,
    v = (major ++ "." ++ minor)%string /\
    String.length major <> O /\ String.length minor <> O /\
    every isDigit major = true /\ every isDigit minor = true.

(** No character of [v] is an underscore. *)
Definition underscoreFree (v : string) : Prop :=
  every (fun c => negb (underscore c)) v = true.

(** Three devices on which [areSameDevice] is not transitive: the
    middle one names no operating system. *)
Definition onWindows : DeviceInfo :=
  mkDeviceInfo (Some "Windows") None None None None None None None.
Definition anonymous : DeviceInfo :=
  mkDeviceInfo None None None None None None None None.
Definition onLinux : DeviceInfo :=
  mkDeviceInfo (Some "Linux") None None None None None None None.

End DeviceProperties.

(* ================================================================== *)
(** * Further queries *)
(* ================================================================== *)

Module Prisma.

Import Store.
Local Open Scope string_scope.

(** The queries of the maintenance and reporting calls below, which
    [Store.Query] does not list; the database may reject each of them
    as well. *)
Inductive AdminQuery :=
| UserFindFirst | UserCreate
| SessionActivityFindFirst | SessionActivityDeleteMany
| LoginHistoryFindMany
| SecurityAlertUpdate | SecurityAlertUpdateMany | SecurityAlertCount
| SecurityAlertGroupBy | SecurityAlertDeleteMany
| PaymentFindMany | BillingHistoryFindMany.

Definition answers (rejects : AdminQuery -> bool) : Prop :=
  forall q, rejects q = false.

Definition rejected : Error := JsError "PrismaClientKnownRequestError".

(** An update of a row that does not exist, and an insert that breaks a
    unique constraint. *)
Definition recordNotFound : Error := JsError "Record to update not found.".
Definition uniqueConstraintFailed : Error :=
  JsError "Unique constraint failed on the fields: (`email`)".

Section Ops.
Variable rejects : AdminQuery -> bool.

Definition prismaAdmin {A} (q : AdminQuery) (body : M A) : M A :=
  fun w => if rejects q then (w, inl rejected) else body w.

(** [prisma.securityAlert.count ({ where })] *)
Definition securityAlert_count (where_ : SecurityAlert.t -> bool) : M nat :=
  prismaAdmin SecurityAlertCount
    (fun w => (w, inr (List.length (filter where_ (securityAlerts w))))).

(** [prisma.securityAlert.update ({ where: { id }, data })] *)
Definition securityAlert_update (i : string)
  (data : SecurityAlert.t -> SecurityAlert.t) : M SecurityAlert.t :=
  prismaAdmin SecurityAlertUpdate
    (fun w =>
       match find (fun a => String.eqb (SecurityAlert.id a) i)
                  (securityAlerts w) with
       | Some a =>
           (set_securityAlerts
              (updateWhere (fun a => String.eqb (SecurityAlert.id a) i) data) w,
            inr (data a))
       | None => (w, inl recordNotFound)
       end).

(** [prisma.securityAlert.updateMany ({ where, data })] *)
Definition securityAlert_updateMany (where_ : SecurityAlert.t -> bool)
  (data : SecurityAlert.t -> SecurityAlert.t) : M nat :=
  prismaAdmin SecurityAlertUpdateMany
    (fun w => (set_securityAlerts (updateWhere where_ data) w,
               inr (List.length (filter where_ (securityAlerts w))))).

(** [prisma.securityAlert.deleteMany ({ where })] *)
Definition securityAlert_deleteMany (where_ : SecurityAlert.t -> bool) : M nat :=
  prismaAdmin SecurityAlertDeleteMany
    (fun w => (set_securityAlerts (filter (fun a => negb (where_ a))) w,
               inr (List.length (filter where_ (securityAlerts w))))).

(** [prisma.sessionActivity.deleteMany ({ where })] *)
Definition sessionActivity_deleteMany (where_ : SessionActivity.t -> bool)
  : M nat :=
  prismaAdmin SessionActivityDeleteMany
    (fun w => (set_sessionActivities (filter (fun s => negb (where_ s))) w,
               inr (List.length (filter where_ (sessionActivities w))))).

(** [prisma.sessionActivity.findFirst ({ where })] *)
Definition sessionActivity_findFirst (where_ : SessionActivity.t -> bool)
  : M (option SessionActivity.t) :=
  prismaAdmin SessionActivityFindFirst
    (fun w => (w, inr (find where_ (sessionActivities w)))).

End Ops.

(** [{ gte: d }] on a date column. *)
Definition dateGte (d bound : JsDate.Date) : bool := (bound <=? d)%Z.

End Prisma.

(* ================================================================== *)
(** * services/sessionActivity.service.ts, maintenance *)
(* ================================================================== *)

Module SessionMaintenance.

Import Store JsDate Prisma.
Local Open Scope svc_scope.
Local Open Scope string_scope.

(** [data: { lastActivityAt: new Date() }] *)
Definition touch (at_ : Date) (s : SessionActivity.t) : SessionActivity.t :=
  SessionActivity.mk
    (SessionActivity.id s) (SessionActivity.userId s)
    (SessionActivity.sessionToken s) (SessionActivity.ipAddress s)
    (SessionActivity.location s) (SessionActivity.city s)
    (SessionActivity.country s) (SessionActivity.latitude s)
    (SessionActivity.longitude s) (SessionActivity.macAddress s)
    (SessionActivity.deviceInfo s) (SessionActivity.userAgent s)
    (SessionActivity.loginAt s) (SessionActivity.logoutAt s) at_
    (SessionActivity.isActive s) (SessionActivity.logoutReason s).

(** The rows [cleanupOldSessions] deletes. *)
Definition oldSession (cutoffDate : Date) (s : SessionActivity.t) : bool :=
  negb (SessionActivity.isActive s)
  && BillingService.dateLt (SessionActivity.logoutAt s) cutoffDate.

Section WithEnv.
Variable env : Env.
Variable rejects : AdminQuery -> bool.

(** The failure is written to the console and goes no further. *)
Definition updateSessionActivity (sessionToken : string) : M unit :=
  tryCatch
    (sessionActivity_updateMany env
       (fun s => String.eqb (SessionActivity.sessionToken s) sessionToken
                 && SessionActivity.isActive s)
       (touch (now env)) ;;;
     ret tt)
    (fun _ => ret tt).

Definition isSessionValid (sessionToken : string) : M bool :=
  session <-
    sessionActivity_findFirst rejects
      (fun s => String.eqb (SessionActivity.sessionToken s) sessionToken
                && SessionActivity.isActive s) ;;
  ret (match session with Some _ => true | None => false end).

Definition cleanupOldSessions (daysOld : Z) : M nat :=
  let cutoffDate := now env in
  let cutoffDate := setDate cutoffDate (getDate cutoffDate - daysOld) in
  sessionActivity_deleteMany rejects (oldSession cutoffDate).

End WithEnv.

(** [logoutAllUserSessionsHandler] of the session controller, after the
    check of the route parameter: the count it reports. *)
Definition logoutAllUserSessions (env : Env) (userId : string) : M nat :=
  SessionActivityService.invalidateAllUserSessions env userId "forced_by_admin".

End SessionMaintenance.

(* ================================================================== *)
(** * services/securityAlert.service.ts, the admin panel *)
(* ================================================================== *)

Module SecurityAlertAdmin.

Import Store JsDate Prisma.
Local Open Scope svc_scope.
Local Open Scope string_scope.

(** [data: { isRead: true }] and [data: { isDismissed: true }] *)
Definition setRead (a : SecurityAlert.t) : SecurityAlert.t :=
  SecurityAlert.mk (SecurityAlert.id a) (SecurityAlert.userId a)
    (SecurityAlert.alertType a) (SecurityAlert.severity a)
    (SecurityAlert.message a) (SecurityAlert.metadata a)
    true (SecurityAlert.isDismissed a) (SecurityAlert.createdAt a).

Definition setDismissed (a : SecurityAlert.t) : SecurityAlert.t :=
  SecurityAlert.mk (SecurityAlert.id a) (SecurityAlert.userId a)
    (SecurityAlert.alertType a) (SecurityAlert.severity a)
    (SecurityAlert.message a) (SecurityAlert.metadata a)
    (SecurityAlert.isRead a) true (SecurityAlert.createdAt a).

(** [where: { isRead: false, isDismissed: false }] *)
Definition pending (a : SecurityAlert.t) : bool :=
  negb (SecurityAlert.isRead a) && negb (SecurityAlert.isDismissed a).

Definition severities : list SecurityAlertSeverity := [LOW; MEDIUM; HIGH; CRITICAL].
Definition alertTypes : list SecurityAlertType :=
  [MULTIPLE_DEVICE_LOGIN; SUSPICIOUS_LOCATION; FORCED_LOGOUT; FAILED_LOGIN_ATTEMPT].

Definition SecurityAlertSeverity_eqb (a b : SecurityAlertSeverity) : bool :=
  match a, b with
  | LOW, LOW | MEDIUM, MEDIUM | HIGH, HIGH | CRITICAL, CRITICAL => true
  | _, _ => false
  end.

Definition SecurityAlertType_eqb (a b : SecurityAlertType) : bool :=
  match a, b with
  | MULTIPLE_DEVICE_LOGIN, MULTIPLE_DEVICE_LOGIN
  | SUSPICIOUS_LOCATION, SUSPICIOUS_LOCATION
  | FORCED_LOGOUT, FORCED_LOGOUT
  | FAILED_LOGIN_ATTEMPT, FAILED_LOGIN_ATTEMPT => true
  | _, _ => false
  end.

(** The rows of [groupBy ({ by: [key], _count: true, where })], one for
    each value of the key that some selected alert has, and the object
    that [reduce] builds from them: a value of the key with no alert has
    no entry. *)
Definition countBy {K} (keys : list K) (eqb : K -> K -> bool)
  (key : SecurityAlert.t -> K) (rows : list SecurityAlert.t) : list (K * nat) :=
  filter (fun entry => negb (Nat.eqb (snd entry) 0))
    (map (fun k => (k, List.length (filter (fun a => eqb (key a) k) rows))) keys).

Record AlertStats := mkAlertStats {
  total : nat;
  unread : nat;
  today : nat;
  bySeverity : list (SecurityAlertSeverity * nat);
  byType : list (SecurityAlertType * nat)
}.

(** [new Date (d.setHours (0, 0, 0, 0))] *)
Definition startOfDay (d : Date) : Date := MakeDate (Day d) 0.

(** The rows [cleanupOldAlerts] deletes. *)
Definition oldAlert (cutoffDate : Date) (a : SecurityAlert.t) : bool :=
  SecurityAlert.isDismissed a && (SecurityAlert.createdAt a <? cutoffDate)%Z.

Section WithEnv.
Variable env : Env.
Variable rejects : AdminQuery -> bool.

Definition markAlertAsRead (alertId : string) : M SecurityAlert.t :=
  securityAlert_update rejects alertId setRead.

Definition markAllAlertsAsRead : M nat :=
  securityAlert_updateMany rejects
    (fun a => negb (SecurityAlert.isRead a)) setRead.

Definition dismissAlert (alertId : string) : M SecurityAlert.t :=
  securityAlert_update rejects alertId setDismissed.

Definition getUnreadAlertCount : M nat :=
  securityAlert_count rejects pending.

Definition getAlertStats : M AlertStats :=
  total <- securityAlert_count rejects (fun _ => true) ;;
  unread <- securityAlert_count rejects
              (fun a => negb (SecurityAlert.isRead a)) ;;
  today <- securityAlert_count rejects
             (fun a => dateGte (SecurityAlert.createdAt a)
                               (startOfDay (now env))) ;;
  bySeverity <-
    prismaAdmin rejects SecurityAlertGroupBy
      (fun w => (w, inr (countBy severities SecurityAlertSeverity_eqb
                           SecurityAlert.severity
                           (filter pending (securityAlerts w))))) ;;
  byType <-
    prismaAdmin rejects SecurityAlertGroupBy
      (fun w => (w, inr (countBy alertTypes SecurityAlertType_eqb
                           SecurityAlert.alertType
                           (filter pending (securityAlerts w))))) ;;
  ret (mkAlertStats total unread today bySeverity byType).

Definition cleanupOldAlerts (daysOld : Z) : M nat :=
  let cutoffDate := now env in
  let cutoffDate := setDate cutoffDate (getDate cutoffDate - daysOld) in
  securityAlert_deleteMany rejects (oldAlert cutoffDate).

End WithEnv.

End SecurityAlertAdmin.

(* ================================================================== *)
(** * services/loginHistory.service.ts, monitoring *)
(* ================================================================== *)

Module LoginHistoryQueries.

Import Store JsDate Prisma.
Local Open Scope svc_scope.
Local Open Scope string_scope.

(** [where: { userId, success: false, loginAt: { gte: since } }] *)
Definition failedSince (userId : string) (since : Date) (h : LoginHistory.t)
  : bool :=
  String.eqb (LoginHistory.userId h) userId
  && negb (LoginHistory.success h)
  && dateGte (LoginHistory.loginAt h) since.

Section WithEnv.
Variable env : Env.
Variable rejects : AdminQuery -> bool.

(** [since] defaults to the instant 24 hours before the call. *)
Definition getFailedLoginAttempts (userId : string) (since : option Date)
  : M (list LoginHistory.t) :=
  let since :=
    match since with
    | Some d => d
    | None => (now env - 24 * 60 * 60 * 1000)%Z
    end in
  rows <-
    prismaAdmin rejects LoginHistoryFindMany
      (fun w => (w, inr (filter (failedSince userId since) (loginHistories w)))) ;;
  ret (orderByDesc LoginHistory.loginAt rows).

End WithEnv.

End LoginHistoryQueries.

(* ================================================================== *)
(** * services/billing.service.ts, reports *)
(* ================================================================== *)

Module BillingReports.

Import Store JsDate Prisma BillingService.
Local Open Scope svc_scope.
Local Open Scope string_scope.

(** One payment as [getPaymentHistory] returns it. *)
Record PaymentView := mkPaymentView {
  pv_id : string;
  pv_amount : Js.Json;
  pv_billingCycle : BillingCycle;
  pv_status : PaymentStatus;
  pv_paymentDate : Date;
  pv_cycleStartDate : Date;
  pv_cycleEndDate : Date;
  pv_memo : option string;
  pv_createdBy : option string;
  pv_createdAt : Date
}.

Definition viewOfPayment (p : Payment.t) : PaymentView :=
  mkPaymentView (Payment.id p) (Js.JShow (Payment.amount p))
    (Payment.billingCycle p) (Payment.status p) (Payment.paymentDate p)
    (Payment.cycleStartDate p) (Payment.cycleEndDate p) (Payment.memo p)
    (Payment.createdBy p) (Payment.createdAt p).

(** The columns [getExpiredAccounts] selects. *)
Record ExpiredBilling := mkExpiredBilling {
  eb_id : string;
  eb_email : string;
  eb_billingCycle : option BillingCycle;
  eb_billingCycleEndDate : option Date;
  eb_status : UserStatus
}.

Record ExpiredTrial := mkExpiredTrial {
  et_id : string;
  et_email : string;
  et_trialEndDate : option Date;
  et_status : UserStatus
}.

Record ExpiredAccounts := mkExpiredAccounts {
  expiredBilling : list ExpiredBilling;
  expiredTrials : list ExpiredTrial;
  total : nat
}.

Section WithEnv.
Variable env : Env.
Variable rejects : AdminQuery -> bool.

Definition getPaymentHistory (userId : string) : M (list PaymentView) :=
  payments <-
    prismaAdmin rejects PaymentFindMany
      (fun w =>
         (w, inr (orderByDesc Payment.createdAt
                    (filter (fun p => String.eqb (Payment.userId p) userId)
                            (payments w))))) ;;
  ret (map viewOfPayment payments).

Definition getBillingHistory (userId : string) : M (list BillingHistory.t) :=
  prismaAdmin rejects BillingHistoryFindMany
    (fun w =>
       (w, inr (orderByDesc BillingHistory.createdAt
                  (filter (fun h => String.eqb (BillingHistory.userId h) userId)
                          (billingHistories w))))).

Definition getExpiredAccounts : M ExpiredAccounts :=
  let now := now env in
  expiredBilling <-
    user_findMany env
      (fun u => User.isBillingActive u
                && dateLt (User.billingCycleEndDate u) now) ;;
  let expiredBilling :=
    map (fun u => mkExpiredBilling (User.id u) (User.email u)
                    (User.billingCycle u) (User.billingCycleEndDate u)
                    (User.status u)) expiredBilling in
  expiredTrials <-
    user_findMany env
      (fun u => User.isTrialActive u && dateLt (User.trialEndDate u) now) ;;
  let expiredTrials :=
    map (fun u => mkExpiredTrial (User.id u) (User.email u)
                    (User.trialEndDate u) (User.status u)) expiredTrials in
  ret (mkExpiredAccounts expiredBilling expiredTrials
         (List.length expiredBilling + List.length expiredTrials)).

End WithEnv.

End BillingReports.

(* ================================================================== *)
(** * services/auth.service.ts, the first administrator *)
(* ================================================================== *)

Module Bootstrap.

Import Store Prisma.
Local Open Scope svc_scope.
Local Open Scope string_scope.

Definition isSuperAdmin (u : User.t) : bool :=
  match User.role u with SUPER_ADMIN => true | _ => false end.

(** The row [prisma.user.create] inserts for the given columns; the
    others take the defaults of the schema. *)
Definition superAdminRow (i email passwordHash : string) : User.t :=
  User.mk i email passwordHash SUPER_ADMIN ACTIVE None None None
          None None None None None None false true None.

Section WithEnv.
Variable rejects : AdminQuery -> bool.
(** [hashPassword] of [utils/password.ts], as it answers in this call. *)
Variable hashPassword : string -> string.

(** [prisma.user.create]: the email column is unique. *)
Definition user_create (email passwordHash : string) : M User.t :=
  prismaAdmin rejects UserCreate
    (fun w =>
       if existsb (fun u => String.eqb (User.email u) email) (users w)
       then (w, inl uniqueConstraintFailed)
       else
         let row := superAdminRow (cuid (nextId w)) email passwordHash in
         (set_users (fun rows => (rows ++ [row])%list) (bump_nextId w), inr row)).

Definition bootstrapSuperAdmin (email password : string) : M unit :=
  existing <-
    prismaAdmin rejects UserFindFirst
      (fun w => (w, inr (find isSuperAdmin (users w)))) ;;
  match existing with
  | Some _ => ret tt
  | None =>
      let passwordHash := hashPassword password in
      user_create email passwordHash ;;;
      ret tt
  end.

End WithEnv.

End Bootstrap.

(* ================================================================== *)
(** * jobs/billing.job.ts *)
(* ================================================================== *)

Module BillingJob.

Import Store.
Local Open Scope svc_scope.

(** One run of the scheduled check: whatever the sweep throws is
    logged and goes no further. *)
Definition billingCheck (env : Env) : M unit :=
  tryCatch
    (BillingService.checkAndDisableExpiredAccounts env ;;; ret tt)
    (fun _ => ret tt).

(** The scheduler as the module sees it: the task held in [billingJob],
    the cron tasks created so far with whether each is still running,
    and the number of start-up checks queued with [setTimeout]. *)
Record Scheduler := mkScheduler {
  billingJob : option nat;
  cronTasks : list bool;
  startupChecks : nat
}.

Definition idle : Scheduler := mkScheduler None [] 0.

(** [task.stop ()] on the task created [n]-th. *)
Fixpoint stopTask (n : nat) (tasks : list bool) : list bool :=
  match n, tasks with
  | O, _ :: rest => false :: rest
  | S n', t :: rest => t :: stopTask n' rest
  | _, [] => []
  end.

Definition startBillingJob (s : Scheduler) : Scheduler :=
  match billingJob s with
  | Some _ => s
  | None =>
      mkScheduler (Some (List.length (cronTasks s)))
                  (cronTasks s ++ [true]) (S (startupChecks s))
  end.

Definition stopBillingJob (s : Scheduler) : Scheduler :=
  match billingJob s with
  | Some task =>
      mkScheduler None (stopTask task (cronTasks s)) (startupChecks s)
  | None => s
  end.

Inductive JobCall := Start | Stop.

Definition call (s : Scheduler) (c : JobCall) : Scheduler :=
  match c with
  | Start => startBillingJob s
  | Stop => stopBillingJob s
  end.

Definition running (s : Scheduler) : nat :=
  List.length (filter (fun t => t) (cronTasks s)).

End BillingJob.

(* ================================================================== *)
(** * Vocabulary of the further properties *)
(* ================================================================== *)

Module Runs.

Import Store.

(** The call [m], started in the store [w], returns: it ends in a store
    and with a value that satisfy [post]. *)
Definition returns {A} (m : M A) (w : World) (post : World -> A -> Prop)
  : Prop :=
  exists w' a, m w = (w', inr a) /\ post w' a.

(** Two stores that differ at most in the log of the requests sent to
    the geolocation provider and in the counter of the identifiers. *)
Definition sameTables (w w' : World) : Prop :=
  users w' = users w /\
  sessionActivities w' = sessionActivities w /\
  loginHistories w' = loginHistories w /\
  securityAlerts w' = securityAlerts w /\
  payments w' = payments w /\
  billingHistories w' = billingHistories w.

End Runs.

Module JobProperties.

Import BillingJob.

(** The task held in [billingJob], if any, is the cron task created
    last and the only one still running. *)
Definition wellScheduled (s : Scheduler) : Prop :=
  match billingJob s with
  | Some task =>
      exists stopped,
        cronTasks s = (stopped ++ [true])%list /\
        List.length stopped = task /\
        Forall (fun t => t = false) stopped
  | None => Forall (fun t => t = false) (cronTasks s)
  end.

(** A user row after a call that at most disables the account: the
    identity, the credentials, the session token and the dates of the
    plans are as before; the status is as before or DISABLED; a plan
    flag is set only if it was set before. *)
Definition disabledOrSame (u u' : Store.User.t) : Prop :=
  Store.User.id u' = Store.User.id u /\
  Store.User.email u' = Store.User.email u /\
  Store.User.passwordHash u' = Store.User.passwordHash u /\
  Store.User.role u' = Store.User.role u /\
  Store.User.currentSessionToken u' = Store.User.currentSessionToken u /\
  Store.User.billingCycleEndDate u' = Store.User.billingCycleEndDate u /\
  Store.User.trialEndDate u' = Store.User.trialEndDate u /\
  (Store.User.status u' = Store.User.status u \/
   Store.User.status u' = Store.DISABLED) /\
  (Store.User.isBillingActive u' = true -> Store.User.isBillingActive u = true) /\
  (Store.User.isTrialActive u' = true -> Store.User.isTrialActive u = true).

(** A call that at most disables accounts, and touches neither the
    sessions nor the payments, whether it returns or throws. *)
Definition onlyDisables {A} (m : Store.M A) : Prop :=
  forall w,
    Forall2 disabledOrSame (Store.users w) (Store.users (fst (m w))) /\
    Store.sessionActivities (fst (m w)) = Store.sessionActivities w /\
    Store.payments (fst (m w)) = Store.payments w.

End JobProperties.

Module LoginProperties.

Import Store.

(** The session row [r] once the sessions [sessions] have been
    invalidated by their tokens: closed at [at_] for [reason] if it was
    active and bears the token of one of them, and as before
    otherwise. *)
Definition invalidated (at_ : JsDate.Date) (reason : string)
  (sessions : list SessionActivity.t) (r : SessionActivity.t)
  : SessionActivity.t :=
  if SessionActivity.isActive r
     && existsb (fun s => String.eqb (SessionActivity.sessionToken r)
                                     (SessionActivity.sessionToken s))
                sessions
  then SessionActivityService.markInactive at_ reason r
  else r.

End LoginProperties.

(* ================================================================== *)
(** * An alert desk *)
(* ================================================================== *)

Module AlertFixtures.

Import JsDate Store.
Local Open Scope string_scope.

(** Three alerts on the hundredth day: an unread one of that day, an
    unread one dismissed on the first day, and one that was read. *)
Definition a1 : SecurityAlert.t :=
  SecurityAlert.mk "a1" (Some "u1") MULTIPLE_DEVICE_LOGIN MEDIUM "new device" []
                   false false (100 * msPerDay).

Definition a2 : SecurityAlert.t :=
  SecurityAlert.mk "a2" None FAILED_LOGIN_ATTEMPT HIGH "five attempts" []
                   false true msPerDay.

Definition a3 : SecurityAlert.t :=
  SecurityAlert.mk "a3" (Some "u1") FORCED_LOGOUT LOW "forced" []
                   true false (99 * msPerDay).

Definition alertDesk : World :=
  mkWorld [] [] [] [a1; a2; a3] [] [] 3 [].

Definition deskEnv : Env :=
  mkEnv (100 * msPerDay + 5000) (fun _ => false) (fun _ _ => false)
        (fun _ _ => "") (fun _ _ => "")
        (fun _ => None) (fun _ => AxiosError "timeout of 5000ms exceeded")
        (fun _ => "Unknown Device").

End AlertFixtures.

(* ================================================================== *)
(** * A provider answer on the equator *)
(* ================================================================== *)

Module GeoFixtures.

Import Store.
Local Open Scope string_scope.

(** An answer without a city, at latitude 0. *)
Definition onEquator : IpApiData :=
  mkIpApiData (Some "success") None (Some "Sao Tome and Principe") None
              (Some 0%Q) (Some (673 # 100)%Q) None.

Definition equatorEnv : Env :=
  mkEnv 0 (fun _ => false) (fun _ _ => false) (fun _ _ => "") (fun _ _ => "")
        (fun _ => None) (fun _ => AxiosResponse onEquator)
        (fun _ => "Unknown Device").

End GeoFixtures.

(* ================================================================== *)
(** * Facts about ECMAScript dates *)
(* ================================================================== *)

(** Case analysis on a month number known to lie in 0..11. *)
Ltac month_cases m :=
  let H := fresh in
  assert (H : m = 0 \/ m = 1 \/ m = 2 \/ m = 3 \/ m = 4 \/ m = 5 \/ m = 6 \/
              m = 7 \/ m = 8 \/ m = 9 \/ m = 10 \/ m = 11) by lia;
  repeat (destruct H as [H | H]); subst m.

(** Evaluate the month tables at the closed arguments in the goal. *)
Ltac eval_months :=
  repeat match goal with
         | |- context [JsDate.monthStart ?l ?m] =>
             let v := eval vm_compute in (JsDate.monthStart l m) in
             change (JsDate.monthStart l m) with v
         | H : context [if ?c then ?a else ?b] |- _ =>
             let v := eval vm_compute in (if c then a else b) in
             change (if c then a else b) with v in H
         end.

Section JsDateFacts.

Import JsDate.

Lemma DayFromYear_succ y : DayFromYear (y + 1) = DayFromYear y + DaysInYear y.
Proof.
  unfold DayFromYear, DaysInYear, isLeapYear.
  destruct (Z.eqb_spec (y mod 4) 0), (Z.eqb_spec (y mod 100) 0),
    (Z.eqb_spec (y mod 400) 0); cbn [andb orb negb];
    Z.div_mod_to_equations; lia.
Qed.

Lemma DaysInYear_bounds y : 365 <= DaysInYear y <= 366.
Proof. unfold DaysInYear. destruct (isLeapYear y); lia. Qed.

Lemma DayFromYear_mono y1 y2 : y1 <= y2 -> DayFromYear y1 <= DayFromYear y2.
Proof.
  intros H. unfold DayFromYear. Z.div_mod_to_equations. lia.
Qed.

(** [YearFromDay] meets the standard's definition of [YearFromTime]: the
    year found starts on or before the day, and the next one after it. *)
Lemma YearFromDay_spec d :
  DayFromYear (YearFromDay d) <= d < DayFromYear (YearFromDay d + 1).
Proof.
  unfold YearFromDay.
  set (y := 1970 + d * 400 / 146097).
  destruct (Z.ltb_spec d (DayFromYear y)) as [Hlt | Hge].
  - replace (y - 1 + 1) with y by lia. split; [|lia].
    subst y. unfold DayFromYear in *. Z.div_mod_to_equations. lia.
  - destruct (Z.leb_spec (DayFromYear (y + 1)) d) as [Hle | Hgt]; [|lia].
    split; [lia|].
    subst y. unfold DayFromYear in *. Z.div_mod_to_equations. lia.
Qed.

Lemma YearFromDay_unique y d :
  DayFromYear y <= d < DayFromYear (y + 1) -> YearFromDay d = y.
Proof.
  intros [Hlo Hhi].
  pose proof (YearFromDay_spec d) as [Slo Shi].
  destruct (Z.lt_trichotomy (YearFromDay d) y) as [Hlt | [Heq | Hgt]]; auto.
  - pose proof (DayFromYear_mono (YearFromDay d + 1) y ltac:(lia)). lia.
  - pose proof (DayFromYear_mono (y + 1) (YearFromDay d) ltac:(lia)). lia.
Qed.

Lemma Day_MakeDate day tod :
  0 <= tod < msPerDay -> Day (MakeDate day tod) = day.
Proof.
  intros H. unfold Day, MakeDate, msPerDay in *.
  Z.div_mod_to_equations. lia.
Qed.

Lemma TimeWithinDay_MakeDate day tod :
  0 <= tod < msPerDay -> TimeWithinDay (MakeDate day tod) = tod.
Proof.
  intros H. unfold TimeWithinDay, MakeDate, msPerDay in *.
  Z.div_mod_to_equations. lia.
Qed.

Lemma TimeWithinDay_bounds t : 0 <= TimeWithinDay t < msPerDay.
Proof. unfold TimeWithinDay, msPerDay. apply Z.mod_pos_bound. lia. Qed.

Lemma MakeDate_Day t : MakeDate (Day t) (TimeWithinDay t) = t.
Proof.
  unfold MakeDate, Day, TimeWithinDay, msPerDay. Z.div_mod_to_equations. lia.
Qed.


Lemma DaysInMonth_bounds y m : 28 <= DaysInMonth y m <= 31.
Proof.
  unfold DaysInMonth, leapDay.
  destruct (m =? 1), (isLeapYear y),
    ((m =? 3) || (m =? 5) || (m =? 8) || (m =? 10))%bool; lia.
Qed.

Lemma monthStart_next leap y m :
  leap = isLeapYear y -> 0 <= m <= 10 ->
  monthStart leap (m + 1) = monthStart leap m + DaysInMonth y m.
Proof.
  intros -> Hm. unfold DaysInMonth.
  destruct (isLeapYear y); month_cases m; try lia; reflexivity.
Qed.

Lemma monthStart_december y :
  monthStart (isLeapYear y) 11 + DaysInMonth y 11 = DaysInYear y.
Proof.
  unfold DaysInYear, DaysInMonth. destruct (isLeapYear y); reflexivity.
Qed.

Lemma monthStart_range leap m : 0 <= m <= 11 -> 0 <= monthStart leap m <= 335.
Proof. intros Hm. month_cases m; destruct leap; cbn; lia. Qed.

(** A day inside month [m] is found in month [m]. *)
Lemma MonthFromDayWithinYear_in y m d :
  0 <= m <= 11 -> 1 <= d <= DaysInMonth y m ->
  MonthFromDayWithinYear (isLeapYear y) (monthStart (isLeapYear y) m + d - 1) = m.
Proof.
  intros Hm Hd. unfold MonthFromDayWithinYear, DaysInMonth in *.
  destruct (isLeapYear y); month_cases m; eval_months; cbv [leapDay];
    repeat match goal with
           | |- context [?a <? ?b] => destruct (Z.ltb_spec a b); try lia
           end; reflexivity.
Qed.

Lemma MonthFromDayWithinYear_range leap d :
  0 <= MonthFromDayWithinYear leap d <= 11.
Proof.
  unfold MonthFromDayWithinYear.
  repeat match goal with
         | |- context [?a <? ?b] => destruct (a <? b); try lia
         end.
Qed.

(** A day of the year lies inside the month found for it. *)
Lemma MonthFromDayWithinYear_date y d :
  0 <= d < DaysInYear y ->
  let m := MonthFromDayWithinYear (isLeapYear y) d in
  1 <= d - monthStart (isLeapYear y) m + 1 <= DaysInMonth y m.
Proof.
  intros Hd m. subst m.
  unfold MonthFromDayWithinYear, DaysInYear, DaysInMonth in *.
  destruct (isLeapYear y); cbv [leapDay] in *;
    repeat match goal with
           | |- context [?a <? ?b] => destruct (Z.ltb_spec a b)
           end;
    match goal with
    | |- context [monthStart ?l ?m] =>
        let v := eval vm_compute in (monthStart l m) in
        change (monthStart l m) with v
    end;
    match goal with
    | |- _ <= _ <= ?e => let v := eval vm_compute in e in change e with v
    end; lia.
Qed.

(** The fields read back from a date built from in-range fields. *)
Lemma fields_of_MakeDate y m d tod :
  0 <= m <= 11 -> 1 <= d <= DaysInMonth y m -> 0 <= tod < msPerDay ->
  let t := MakeDate (MakeDay y m d) tod in
  YearFromTime t = y /\ MonthFromTime t = m /\ DateFromTime t = d /\
  TimeWithinDay t = tod.
Proof.
  intros Hm Hd Htod t.
  assert (Hday : Day t = DayFromYear y + monthStart (isLeapYear y) m + d - 1).
  { unfold t. rewrite Day_MakeDate by assumption. unfold MakeDay.
    rewrite Z.div_small, Z.mod_small by lia.
    rewrite Z.add_0_r. reflexivity. }
  assert (Hyear : YearFromTime t = y).
  { unfold YearFromTime. apply YearFromDay_unique. rewrite Hday.
    rewrite DayFromYear_succ.
    pose proof (monthStart_range (isLeapYear y) m Hm).
    assert (monthStart (isLeapYear y) m + d <= DaysInYear y).
    { destruct (Z.eq_dec m 11) as [-> | Hne].
      - pose proof (monthStart_december y). lia.
      - pose proof (monthStart_next (isLeapYear y) y m eq_refl ltac:(lia)).
        pose proof (monthStart_range (isLeapYear y) (m + 1) ltac:(lia)).
        pose proof (DaysInYear_bounds y). lia. }
    lia. }
  assert (Hdwy : DayWithinYear t = monthStart (isLeapYear y) m + d - 1).
  { unfold DayWithinYear. rewrite Hyear, Hday. lia. }
  assert (Hmonth : MonthFromTime t = m).
  { unfold MonthFromTime, InLeapYear. rewrite Hyear, Hdwy.
    apply MonthFromDayWithinYear_in; assumption. }
  repeat split; auto.
  - unfold DateFromTime, InLeapYear. rewrite Hmonth, Hyear, Hdwy. lia.
  - unfold t. apply TimeWithinDay_MakeDate. assumption.
Qed.

Lemma DayWithinYear_bounds t :
  0 <= DayWithinYear t < DaysInYear (YearFromTime t).
Proof.
  unfold DayWithinYear, YearFromTime.
  pose proof (YearFromDay_spec (Day t)) as [Hlo Hhi].
  rewrite DayFromYear_succ in Hhi. lia.
Qed.

Lemma MonthFromTime_range t : 0 <= MonthFromTime t <= 11.
Proof. apply MonthFromDayWithinYear_range. Qed.

Lemma DateFromTime_range t :
  1 <= DateFromTime t <= DaysInMonth (YearFromTime t) (MonthFromTime t).
Proof.
  unfold DateFromTime, MonthFromTime, InLeapYear.
  apply MonthFromDayWithinYear_date. apply DayWithinYear_bounds.
Qed.

(** Every date is the date made from its own fields. *)
Lemma MakeDay_fields t :
  MakeDay (YearFromTime t) (MonthFromTime t) (DateFromTime t) = Day t.
Proof.
  pose proof (MonthFromTime_range t) as Hm.
  unfold MakeDay. rewrite Z.div_small, Z.mod_small by lia.
  rewrite Z.add_0_r. unfold DateFromTime, DayWithinYear, InLeapYear. lia.
Qed.

(** Days past the end of a month are days of the month that follows. *)
Lemma MakeDay_overflow y m e :
  0 <= m <= 10 ->
  MakeDay y m (DaysInMonth y m + e) = MakeDay y (m + 1) e.
Proof.
  intros Hm. unfold MakeDay.
  rewrite !Z.div_small, !Z.mod_small by lia.
  rewrite Z.add_0_r.
  rewrite (monthStart_next (isLeapYear y) y m eq_refl Hm). lia.
Qed.

Lemma MakeDay_norm y m d : MakeDay y m d = MakeDay (y + m / 12) (m mod 12) d.
Proof.
  unfold MakeDay.
  rewrite Z.mod_mod by lia.
  rewrite (Z.div_small (m mod 12)) by (apply Z.mod_pos_bound; lia).
  rewrite Z.add_0_r. reflexivity.
Qed.

(** [setMonth] when the day of the month exists in the month aimed at. *)
Lemma setMonth_fits t month :
  let ty := YearFromTime t + month / 12 in
  let tm := month mod 12 in
  DateFromTime t <= DaysInMonth ty tm ->
  getFullYear (setMonth t month) = ty /\
  getMonth (setMonth t month) = tm /\
  getDate (setMonth t month) = DateFromTime t /\
  TimeWithinDay (setMonth t month) = TimeWithinDay t.
Proof.
  intros ty tm Hfit. unfold setMonth, getFullYear, getMonth, getDate.
  rewrite MakeDay_norm. fold ty tm.
  apply fields_of_MakeDate.
  - pose proof (Z.mod_pos_bound month 12 ltac:(lia)). unfold tm. lia.
  - pose proof (DateFromTime_range t). lia.
  - apply TimeWithinDay_bounds.
Qed.

(** [setMonth] when the month aimed at is too short: the excess days run
    into the month after it. *)
Lemma setMonth_overflows t month :
  let ty := YearFromTime t + month / 12 in
  let tm := month mod 12 in
  DaysInMonth ty tm < DateFromTime t ->
  getFullYear (setMonth t month) = ty /\
  getMonth (setMonth t month) = tm + 1 /\
  getDate (setMonth t month) = DateFromTime t - DaysInMonth ty tm /\
  TimeWithinDay (setMonth t month) = TimeWithinDay t.
Proof.
  intros ty tm Hover. unfold setMonth, getFullYear, getMonth, getDate.
  rewrite MakeDay_norm. fold ty tm.
  pose proof (DateFromTime_range t) as Hd.
  pose proof (DaysInMonth_bounds (YearFromTime t) (MonthFromTime t)) as Hb.
  pose proof (DaysInMonth_bounds ty tm) as Hb'.
  assert (Htm : 0 <= tm < 12) by (apply Z.mod_pos_bound; lia).
  assert (Hne : tm <> 11).
  { intros E. rewrite E in Hover. unfold DaysInMonth in Hover.
    cbn in Hover. lia. }
  replace (MakeDay ty tm (DateFromTime t))
    with (MakeDay ty (tm + 1) (DateFromTime t - DaysInMonth ty tm))
    by (rewrite <- MakeDay_overflow by lia; f_equal; lia).
  apply fields_of_MakeDate.
  - lia.
  - pose proof (DaysInMonth_bounds ty (tm + 1)). lia.
  - apply TimeWithinDay_bounds.
Qed.

End JsDateFacts.

(* ================================================================== *)
(** * Billing cycles: the end date of month-based cycles *)
(* ================================================================== *)

Section CycleEndDate.

Import JsDate Store BillingService Claims.

Lemma calculateCycleEndDate_months start cycle k :
  monthsOfCycle cycle = Some k ->
  calculateCycleEndDate start cycle = setMonth start (getMonth start + k).
Proof.
  destruct cycle; unfold monthsOfCycle, calculateCycleEndDate; intros E;
    inversion E; reflexivity.
Qed.

(** C6, as the code has it.  For a month-based cycle the end date keeps
    the time of day; it keeps the day of the month when the target month
    has that day; otherwise it is not clamped but falls in the month
    after the target month, on the day numbered by the excess. *)
Theorem cycle_end_month_arithmetic start cycle k :
  monthsOfCycle cycle = Some k ->
  let e := calculateCycleEndDate start cycle in
  let ty := targetYear start k in
  let tm := targetMonth start k in
  TimeWithinDay e = TimeWithinDay start /\
  (getDate start <= DaysInMonth ty tm ->
     getFullYear e = ty /\ getMonth e = tm /\ getDate e = getDate start) /\
  (DaysInMonth ty tm < getDate start ->
     getFullYear e = ty /\ getMonth e = tm + 1 /\ tm + 1 <= 11 /\
     getDate e = getDate start - DaysInMonth ty tm).
Proof.
  intros Hk e ty tm. unfold e.
  rewrite (calculateCycleEndDate_months _ _ _ Hk).
  pose proof (setMonth_fits start (getMonth start + k)) as Hfits.
  pose proof (setMonth_overflows start (getMonth start + k)) as Hover.
  pose proof (MonthFromTime_range (setMonth start (getMonth start + k))) as Hr.
  split; [|split].
  - destruct (Z_le_gt_dec (getDate start) (DaysInMonth ty tm)) as [Hle | Hgt].
    + destruct (Hfits Hle) as (_ & _ & _ & H). exact H.
    + apply Z.gt_lt in Hgt. destruct (Hover Hgt) as (_ & _ & _ & H). exact H.
  - intros Hle. destruct (Hfits Hle) as (Hy & Hm & Hd & _).
    split; [exact Hy | split; [exact Hm | exact Hd]].
  - intros Hgt. destruct (Hover Hgt) as (Hy & Hm & Hd & _).
    split; [exact Hy | split; [exact Hm | split; [|exact Hd]]].
    apply Z.le_trans with (getMonth (setMonth start (getMonth start + k))).
    + rewrite Hm. apply Z.le_refl.
    + exact (proj2 Hr).
Qed.

Lemma cycle_end_month_arithmetic_witness :
  monthsOfCycle MONTHLY = Some 1 /\
  let start := ofCivil 2024 0 15 9 30 in
  let e := calculateCycleEndDate start MONTHLY in
  let ty := targetYear start 1 in
  let tm := targetMonth start 1 in
  TimeWithinDay e = TimeWithinDay start /\
  (getDate start <= DaysInMonth ty tm ->
     getFullYear e = ty /\ getMonth e = tm /\ getDate e = getDate start) /\
  (DaysInMonth ty tm < getDate start ->
     getFullYear e = ty /\ getMonth e = tm + 1 /\ tm + 1 <= 11 /\
     getDate e = getDate start - DaysInMonth ty tm).
Proof.
  split; [reflexivity|].
  exact (cycle_end_month_arithmetic (ofCivil 2024 0 15 9 30) MONTHLY 1 eq_refl).
Defined.

(** C6 as stated fails: one month after 31 January 2023 the code answers
    3 March 2023, not 28 February. *)
Lemma cycle_end_not_clamped :
  let start := ofCivil 2023 0 31 12 0 in
  let e := calculateCycleEndDate start MONTHLY in
  (getFullYear e, getMonth e, getDate e) = (2023, 2, 3) /\
  ~ clampedEndDate start MONTHLY.
Proof.
  split; [vm_compute; reflexivity|].
  intros H. specialize (H 1 eq_refl). cbv zeta in H.
  destruct H as (_ & Hm & _). vm_compute in Hm. discriminate.
Qed.

End CycleEndDate.

(* ================================================================== *)
(** * Geolocation *)
(* ================================================================== *)

Section GeoFacts.

Import Store Geo GeoClaims Fixtures.
Local Open Scope string_scope.

Lemma Js_lt_iff a b : Js.lt a b = true <-> (a < b)%Q.
Proof.
  unfold Js.lt. rewrite negb_true_iff.
  split.
  - intros H. apply Qnot_le_lt. intros Hle.
    apply Qle_bool_iff in Hle. congruence.
  - intros H. destruct (Qle_bool b a) eqn:E; [|reflexivity].
    apply Qle_bool_iff in E. exfalso. exact (Qlt_not_le _ _ H E).
Qed.

(** C5, as the code has it: both distance thresholds are strict. *)
Theorem suspicious_travel_strict
  (calculateDistance : Q -> Q -> Q -> Q -> Q)
  (prevLat prevLon newLat newLon timeDiffMinutes : Q) :
  let d := calculateDistance prevLat prevLon newLat newLon in
  isSuspiciousLocationChange calculateDistance
    prevLat prevLon newLat newLon timeDiffMinutes = true
  <-> ((500 < d /\ timeDiffMinutes < 60) \/
       (2000 < d /\ timeDiffMinutes < 180))%Q.
Proof.
  intros d. unfold isSuspiciousLocationChange. fold d.
  rewrite <- !Js_lt_iff, <- !andb_true_iff, <- orb_true_iff.
  destruct (Js.lt 500 d && Js.lt timeDiffMinutes 60)%bool;
    destruct (Js.lt 2000 d && Js.lt timeDiffMinutes 180)%bool;
    cbn; split; intros Hs; auto; discriminate.
Qed.

(** The boundary cases the specification names. *)
Example suspicious_500_60 :
  isSuspiciousLocationChange (fun _ _ _ _ => 500%Q) 0 0 0 0 60 = false.
Proof. reflexivity. Qed.

Example suspicious_501_59 :
  isSuspiciousLocationChange (fun _ _ _ _ => 501%Q) 0 0 0 0 59 = true.
Proof. reflexivity. Qed.

(** C5 as stated fails: at a distance of exactly 500 km covered in 30
    minutes the inclusive rule holds and the code answers false. *)
Lemma suspicious_travel_not_inclusive :
  suspiciousTravelSpec 500 30 /\
  isSuspiciousLocationChange (fun _ _ _ _ => 500%Q) 0 0 0 0 30 = false.
Proof.
  split; [|reflexivity].
  left. split.
  - apply Qle_refl.
  - reflexivity.
Qed.

Lemma answeredLocally_guard ipAddress :
  answeredLocally ipAddress <->
  (let ip := match ipAddress with Some ip => ip | None => "" end in
   negb (Js.truthy ipAddress) || String.eqb ip "::1" ||
   String.eqb ip "127.0.0.1" || String.prefix "192.168." ip ||
   String.prefix "10." ip || String.prefix "172." ip)%bool = true.
Proof.
  unfold answeredLocally, listedAsLocal.
  destruct ipAddress as [ip|]; cbn -[String.prefix String.eqb].
  - rewrite !orb_true_iff, negb_true_iff, negb_false_iff, !String.eqb_eq.
    split.
    + intros [H | H]; [tauto | inversion H; tauto].
    + intros H. intuition (subst; auto).
  - tauto.
Qed.

Lemma classic_guard ipAddress :
  answeredLocally ipAddress \/ ~ answeredLocally ipAddress.
Proof.
  pose proof (answeredLocally_guard ipAddress) as Hg. cbv zeta in Hg.
  match type of Hg with
  | _ <-> ?c = true => destruct c
  end.
  - left. apply Hg. reflexivity.
  - right. intros Ha. apply Hg in Ha. discriminate.
Qed.

Lemma getLocationFromIP_local env ipAddress w :
  answeredLocally ipAddress ->
  getLocationFromIP env ipAddress w = (w, inr (Some localNetwork)).
Proof.
  intros Ha. apply answeredLocally_guard in Ha. cbv zeta in Ha.
  unfold getLocationFromIP. rewrite Ha. reflexivity.
Qed.

Lemma getLocationFromIP_lookup env ip w :
  ~ answeredLocally (Some ip) ->
  getLocationFromIP env (Some ip) w =
  (log_request (lookupUrl ip) w,
   inr match axiosGet env (lookupUrl ip) with
       | AxiosResponse data =>
           if match api_status data with
              | Some st => String.eqb st "success"
              | None => false
              end
           then Some (locationOfResponse data) else None
       | AxiosError _ => None
       end).
Proof.
  intros Hn. pose proof (answeredLocally_guard (Some ip)) as Hg.
  cbv zeta in Hg. unfold getLocationFromIP.
  match goal with
  | |- context [if ?c then _ else _] => destruct c eqn:G
  end.
  - exfalso. apply Hn, Hg. reflexivity.
  - unfold tryCatch, bind, axios_get, ret.
    destruct (axiosGet env (lookupUrl ip)) as [data | msg]; [|reflexivity].
    destruct (match api_status data with
              | Some st => String.eqb st "success"
              | None => false
              end); reflexivity.
Qed.

(** C9, as the code has it.  An address that is undefined, empty, a
    loopback literal or under one of the three prefixes gets the
    synthetic answer and the provider is not contacted; any other
    address costs exactly one request and yields the provider's data or
    null.  No input makes the call throw. *)
Theorem getLocationFromIP_cases env ipAddress w :
  (answeredLocally ipAddress ->
     getLocationFromIP env ipAddress w = (w, inr (Some localNetwork))) /\
  (~ answeredLocally ipAddress ->
     lookupOrNull env ipAddress w /\
     exists ip, ipAddress = Some ip /\
       httpRequests (fst (getLocationFromIP env ipAddress w))
       = (httpRequests w ++ [lookupUrl ip])%list) /\
  (exists w' result, getLocationFromIP env ipAddress w = (w', inr result)).
Proof.
  assert (Hlookup : ~ answeredLocally ipAddress ->
            exists ip, ipAddress = Some ip /\ ~ answeredLocally (Some ip)).
  { destruct ipAddress as [ip|]; [eauto|].
    intros Hn. exfalso. apply Hn. left. exact I. }
  split; [apply getLocationFromIP_local|]. split.
  - intros Hn. destruct (Hlookup Hn) as (ip & -> & Hn').
    unfold lookupOrNull. rewrite (getLocationFromIP_lookup env ip w Hn').
    split; [|exists ip; split; reflexivity].
    do 2 eexists. split; [reflexivity|].
    destruct (axiosGet env (lookupUrl ip)) as [data | msg] eqn:A; [|auto].
    destruct (match api_status data with
              | Some st => String.eqb st "success"
              | None => false
              end); [|auto].
    right. exists ip, data. auto.
  - destruct (classic_guard ipAddress) as [Ha | Hn].
    + rewrite (getLocationFromIP_local env ipAddress w Ha). eauto.
    + destruct (Hlookup Hn) as (ip & -> & Hn').
      rewrite (getLocationFromIP_lookup env ip w Hn'). eauto.
Qed.

Lemma getLocationFromIP_cases_witness :
  answeredLocally (Some "172.217.0.1") /\
  ~ answeredLocally (Some "8.8.8.8") /\
  getLocationFromIP quietEnv (Some "172.217.0.1") emptyWorld
    = (emptyWorld, inr (Some localNetwork)) /\
  lookupOrNull quietEnv (Some "8.8.8.8") emptyWorld.
Proof.
  assert (H1 : answeredLocally (Some "172.217.0.1")).
  { left. cbn. tauto. }
  assert (H2 : ~ answeredLocally (Some "8.8.8.8")).
  { intros [H | H]; [|discriminate].
    cbn in H. intuition discriminate. }
  split; [exact H1|]. split; [exact H2|]. split.
  - exact (proj1 (getLocationFromIP_cases quietEnv (Some "172.217.0.1") emptyWorld) H1).
  - exact (proj1 (proj1 (proj2 (getLocationFromIP_cases quietEnv (Some "8.8.8.8") emptyWorld)) H2)).
Defined.

(** C9 as stated fails: the empty string is not among the listed
    addresses, yet it gets the synthetic answer, which is neither the
    provider's data nor null. *)
Lemma getLocationFromIP_empty_string :
  ~ listedAsLocal (Some "") /\
  getLocationFromIP quietEnv (Some "") emptyWorld
    = (emptyWorld, inr (Some localNetwork)) /\
  ~ lookupOrNull quietEnv (Some "") emptyWorld.
Proof.
  split; [|split].
  - cbn. intuition discriminate.
  - reflexivity.
  - intros (w' & result & Hrun & Hres).
    cbn in Hrun. inversion Hrun; subst.
    destruct Hres as [H | (ip & data & _ & H & _)]; discriminate.
Qed.

End GeoFacts.

(* ================================================================== *)
(** * The service monad; forced logout *)
(* ================================================================== *)

Section MonadFacts.
Import Store.

Lemma prisma_ok env q {A} (body : M A) w :
  fails env q = false -> prisma env q body w = body w.
Proof. intros H. unfold prisma. rewrite H. reflexivity. Qed.

Lemma prisma_fails env q {A} (body : M A) w :
  fails env q = true -> prisma env q body w = (w, inl (PrismaError q)).
Proof. intros H. unfold prisma. rewrite H. reflexivity. Qed.

Lemma Forall2_updateWhere {R} (where_ : R -> bool) (data : R -> R) rows :
  Forall2 (fun r r' => r' = if where_ r then data r else r)
          rows (updateWhere where_ data rows).
Proof.
  unfold updateWhere. induction rows as [|r rows IH]; cbn; constructor; auto.
Qed.

Lemma In_updateWhere {R} (where_ : R -> bool) (data : R -> R) rows r' :
  In r' (updateWhere where_ data rows) ->
  exists r, In r rows /\ r' = if where_ r then data r else r.
Proof.
  unfold updateWhere. intros H. apply in_map_iff in H.
  destruct H as (r & E & Hin). eauto.
Qed.

End MonadFacts.

Section ForceLogout.
Import Store SessionActivityService SessionClaims Fixtures.
Local Open Scope string_scope.



Lemma quietEnv_faultFree : faultFree quietEnv.
Proof. intros q. reflexivity. Qed.


End ForceLogout.

(* ================================================================== *)
(** * The expiration sweep *)
(* ================================================================== *)

Section Sweep.
Import Store BillingService BillingClaims Fixtures.
Local Open Scope string_scope.
Local Open Scope svc_scope.

Variable env : Env.
Hypothesis Hff : faultFree env.

Lemma find_hasId i us :
  hasId i us -> exists u, find (fun u => String.eqb (User.id u) i) us = Some u.
Proof.
  intros (u & Hin & Hid).
  destruct (find (fun u => String.eqb (User.id u) i) us) as [u'|] eqn:F; [eauto|].
  exfalso. pose proof (find_none _ _ F u Hin) as Hn. cbn in Hn.
  apply String.eqb_neq in Hn. contradiction.
Qed.

Lemma hasId_updateWhere i p data us :
  (forall u, User.id (data u) = User.id u) ->
  hasId i us -> hasId i (updateWhere p data us).
Proof.
  intros Hid (u & Hin & E). unfold updateWhere.
  exists (if p u then data u else u). split.
  - apply in_map_iff. eauto.
  - destruct (p u); [rewrite Hid|]; exact E.
Qed.

Lemma user_update_ok i data w :
  hasId i (users w) ->
  exists u,
    user_update env i data w =
    (set_users (updateWhere (fun u => String.eqb (User.id u) i) data) w, inr u).
Proof.
  intros H. destruct (find_hasId _ _ H) as (u & F).
  unfold user_update. rewrite prisma_ok by apply Hff. rewrite F. eauto.
Qed.

Lemma billingHistory_create_ok userId action details w :
  exists row,
    billingHistory_create env userId action details w =
    (set_billingHistories (fun rows => (rows ++ [row])%list) (bump_nextId w)
     , inr row) /\
    BillingHistory.userId row = userId /\
    BillingHistory.action row = action /\
    BillingHistory.details row = details.
Proof.
  unfold billingHistory_create. rewrite prisma_ok by apply Hff.
  unfold bind, freshId, modify, ret. cbn.
  eexists. split; [reflexivity|]. cbn. auto.
Qed.

(** One loop of the sweep, for either kind of expiry. *)
Lemma disable_loop data reason dateOf xs : forall w,
  (forall u, User.id (data u) = User.id u) ->
  (forall x, In x xs -> hasId (User.id x) (users w)) ->
  exists w' rows,
    forEach xs
      (fun user =>
         user_update env (User.id user) data ;;;
         billingHistory_create env (User.id user) "AUTO_DISABLED"
           [ ("reason", Js.JString reason);
             ("expiredDate", isoOrNull (dateOf user)) ] ;;;
         ret tt) w = (w', inr tt) /\
    users w' =
      fold_left
        (fun us x =>
           updateWhere (fun u => String.eqb (User.id u) (User.id x)) data us)
        xs (users w) /\
    billingHistories w' = (billingHistories w ++ rows)%list /\
    map BillingHistory.userId rows = map User.id xs /\
    Forall (fun r => BillingHistory.action r = "AUTO_DISABLED") rows /\
    sessionActivities w' = sessionActivities w /\
    payments w' = payments w.
Proof.
  intros w Hid. revert w.
  induction xs as [|x xs IH]; intros w Hhas.
  - exists w, []. cbn. rewrite app_nil_r. repeat split; auto.
  - destruct (user_update_ok (User.id x) data w) as (u & Hu).
    { apply Hhas. left. reflexivity. }
    set (w1 := set_users
                 (updateWhere (fun u => String.eqb (User.id u) (User.id x)) data) w)
      in *.
    destruct (billingHistory_create_ok (User.id x) "AUTO_DISABLED"
                [ ("reason", Js.JString reason);
                  ("expiredDate", isoOrNull (dateOf x)) ] w1)
      as (row & Hrow & Hrid & Hract & _).
    set (w2 := set_billingHistories (fun rows => (rows ++ [row])%list)
                 (bump_nextId w1)) in *.
    destruct (IH w2) as (w' & rows & Hrun & Husers & Hbh & Hids & Hacts & Hsa & Hpay).
    { intros y Hy. unfold w2, w1. cbn.
      apply hasId_updateWhere; [exact Hid|]. apply Hhas. right. exact Hy. }
    exists w', (row :: rows). split; [|split; [|split; [|split; [|split]]]].
    + cbn [forEach]. unfold bind at 1. unfold bind at 1.
      rewrite Hu. unfold bind at 1. rewrite Hrow. unfold ret at 1.
      exact Hrun.
    + rewrite Husers. reflexivity.
    + rewrite Hbh. unfold w2, w1. cbn. rewrite <- app_assoc. reflexivity.
    + cbn. rewrite Hrid, Hids. reflexivity.
    + constructor; assumption.
    + rewrite Hsa, Hpay. split; reflexivity.
Qed.

Lemma fold_updateWhere {R X} (p : X -> R -> bool) (data : R -> R) xs : forall rows,
  fold_left (fun rows x => updateWhere (p x) data rows) xs rows =
  map (fun r => fold_left (fun r x => if p x r then data r else r) xs r) rows.
Proof.
  induction xs as [|x xs IH]; intros rows; cbn.
  - rewrite map_id. reflexivity.
  - rewrite IH. unfold updateWhere. rewrite map_map. reflexivity.
Qed.

(** A row hit by several updates of the same idempotent [data] is
    updated once. *)
Lemma touched_once (data : User.t -> User.t) xs : forall u,
  (forall u, User.id (data u) = User.id u) ->
  (forall u, data (data u) = data u) ->
  fold_left
    (fun (u : User.t) (x : User.t) =>
       if String.eqb (User.id u) (User.id x) then data u else u) xs u =
  if existsb (fun x => String.eqb (User.id u) (User.id x)) xs
  then data u else u.
Proof.
  intros u Hid Hidem. revert u.
  induction xs as [|x xs IH]; intros u; cbn; [reflexivity|].
  rewrite IH.
  destruct (String.eqb (User.id u) (User.id x)) eqn:E; cbn.
  - rewrite Hid, Hidem.
    destruct (existsb _ xs); reflexivity.
  - reflexivity.
Qed.

Lemma hasId_fold data xs : forall us i,
  (forall u, User.id (data u) = User.id u) ->
  hasId i us ->
  hasId i (fold_left
             (fun us x =>
                updateWhere (fun u => String.eqb (User.id u) (User.id x)) data us)
             xs us).
Proof.
  induction xs as [|x xs IH]; intros us i Hid H; cbn; [exact H|].
  apply IH; [exact Hid|]. apply hasId_updateWhere; assumption.
Qed.

Lemma filter_hasId (p : User.t -> bool) us x :
  In x (filter p us) -> hasId (User.id x) us.
Proof. intros H. apply filter_In in H. exists x. tauto. Qed.

Lemma existsb_self (p : User.t -> bool) us u :
  In u us -> p u = true ->
  existsb (fun x => String.eqb (User.id u) (User.id x)) (filter p us) = true.
Proof.
  intros Hin Hp. apply existsb_exists. exists u. split.
  - apply filter_In. auto.
  - apply String.eqb_refl.
Qed.

Lemma sweep_run w :
  exists w1 r1,
    checkAndDisableExpiredAccounts env w = (w1, inr r1) /\
    users w1 = map (sweptRow (now env) (users w)) (users w) /\
    expiredUsers r1 =
      (map User.id (filter (expiredBillingWhere (now env)) (users w)) ++
       map User.id (filter (expiredTrialWhere (now env)) (users w)))%list /\
    disabled r1 = List.length (expiredUsers r1) /\
    (exists rows,
       billingHistories w1 = (billingHistories w ++ rows)%list /\
       map BillingHistory.userId rows = expiredUsers r1 /\
       Forall (fun r => BillingHistory.action r = "AUTO_DISABLED") rows) /\
    sessionActivities w1 = sessionActivities w /\
    payments w1 = payments w.
Proof.
  set (B := filter (expiredBillingWhere (now env)) (users w)).
  set (T := filter (expiredTrialWhere (now env)) (users w)).
  destruct (disable_loop (disableBillingData (now env)) "Billing cycle expired"
              User.billingCycleEndDate B w)
    as (wB & rowsB & HrunB & HusB & HbhB & HidsB & HactB & HsaB & HpayB).
  { intros u. reflexivity. }
  { intros x Hx. exact (filter_hasId _ _ _ Hx). }
  destruct (disable_loop (disableTrialData (now env)) "Trial period expired"
              User.trialEndDate T wB)
    as (wT & rowsT & HrunT & HusT & HbhT & HidsT & HactT & HsaT & HpayT).
  { intros u. reflexivity. }
  { intros x Hx. rewrite HusB. apply hasId_fold; [intros u; reflexivity|].
    exact (filter_hasId _ _ _ Hx). }
  exists wT. eexists. split; [|split; [|split; [|split; [|split]]]].
  - unfold checkAndDisableExpiredAccounts, user_findMany.
    unfold bind at 1. rewrite prisma_ok by apply Hff.
    unfold bind at 1. rewrite prisma_ok by apply Hff.
    unfold bind at 1. fold B. rewrite HrunB.
    unfold bind at 1. fold T. rewrite HrunT.
    unfold ret. reflexivity.
  - rewrite HusT, HusB. rewrite !fold_updateWhere. rewrite map_map.
    apply map_ext. intros u. unfold sweptRow. fold B T.
    rewrite !touched_once; try (intros u0; reflexivity).
    reflexivity.
  - reflexivity.
  - reflexivity.
  - exists (rowsB ++ rowsT)%list. split; [|split].
    + rewrite HbhT, HbhB. rewrite app_assoc. reflexivity.
    + rewrite map_app, HidsB, HidsT. reflexivity.
    + apply Forall_app. split; assumption.
  - rewrite HsaT, HsaB, HpayT, HpayB. split; reflexivity.
Qed.

Lemma sweptRow_settled now us u :
  In u us ->
  let u' := sweptRow now us u in
  expiredBillingWhere now u' = false /\
  expiredTrialWhere now u' = false /\
  (expiredBillingWhere now u = true ->
     User.status u' = DISABLED /\ User.isBillingActive u' = false) /\
  (expiredTrialWhere now u = true ->
     User.status u' = DISABLED /\ User.isTrialActive u' = false).
Proof.
  intros Hin u'. subst u'. unfold sweptRow.
  pose proof (existsb_self (expiredBillingWhere now) us u Hin) as HB.
  pose proof (existsb_self (expiredTrialWhere now) us u Hin) as HT.
  assert (Hdis : forall v, User.status v = DISABLED ->
                   expiredBillingWhere now v = false /\
                   expiredTrialWhere now v = false).
  { intros v Hv. unfold expiredBillingWhere, expiredTrialWhere.
    rewrite Hv. cbn. rewrite !andb_false_r. auto. }
  destruct (existsb (fun x => String.eqb (User.id u) (User.id x))
                    (filter (expiredBillingWhere now) us)) eqn:EB;
    cbn [User.id disableBillingData];
    destruct (existsb (fun x => String.eqb (User.id u) (User.id x))
                      (filter (expiredTrialWhere now) us)) eqn:ET.
  - destruct (Hdis (disableTrialData now (disableBillingData now u)) eq_refl).
    repeat split; auto.
  - destruct (Hdis (disableBillingData now u) eq_refl).
    repeat split; auto;
      match goal with Hc : expiredTrialWhere now u = true |- _ =>
        apply HT in Hc; discriminate end.
  - destruct (Hdis (disableTrialData now u) eq_refl).
    repeat split; auto;
      match goal with Hc : expiredBillingWhere now u = true |- _ =>
        apply HB in Hc; discriminate end.
  - destruct (expiredBillingWhere now u) eqn:WB;
      [specialize (HB eq_refl); discriminate|].
    destruct (expiredTrialWhere now u) eqn:WT;
      [specialize (HT eq_refl); discriminate|].
    repeat split; auto; discriminate.
Qed.

Lemma filter_nil {A} (p : A -> bool) l :
  (forall x, In x l -> p x = false) -> filter p l = [].
Proof.
  induction l as [|a l IH]; intros H; cbn; [reflexivity|].
  rewrite (H a (or_introl eq_refl)). apply IH. intros x Hx. apply H. right. exact Hx.
Qed.

(** A sweep over a store in which nobody is selected changes nothing. *)
Lemma sweep_settled w :
  (forall u, In u (users w) ->
     expiredBillingWhere (now env) u = false /\
     expiredTrialWhere (now env) u = false) ->
  checkAndDisableExpiredAccounts env w = (w, inr (mkSweepResult 0 [])).
Proof.
  intros H.
  unfold checkAndDisableExpiredAccounts, user_findMany.
  unfold bind at 1. rewrite prisma_ok by apply Hff.
  unfold bind at 1. rewrite prisma_ok by apply Hff.
  rewrite !filter_nil by (intros x Hx; apply H; exact Hx).
  reflexivity.
Qed.

(** What one sweep does to the store. *)
Lemma sweep_first_run w :
  exists w1 r1,
    checkAndDisableExpiredAccounts env w = (w1, inr r1) /\
    users w1 = map (sweptRow (now env) (users w)) (users w) /\
    expiredAreDisabled (now env) (users w) (users w1) /\
    List.length (billingHistories w1)
      = (List.length (billingHistories w) + disabled r1)%nat.
Proof.
  destruct (sweep_run w) as (w1 & r1 & Hrun & Hus & Hexp & Hdis & Hbh & _).
  exists w1, r1. split; [exact Hrun|]. split; [exact Hus|]. split.
  - unfold expiredAreDisabled. rewrite Hus.
    assert (Hall : forall us, incl us (users w) ->
              Forall2
                (fun u u' =>
                   (expiredBillingWhere (now env) u = true ->
                    User.status u' = DISABLED /\ User.isBillingActive u' = false) /\
                   (expiredTrialWhere (now env) u = true ->
                    User.status u' = DISABLED /\ User.isTrialActive u' = false))
                us (map (sweptRow (now env) (users w)) us)).
    { induction us as [|u us IH]; intros Hincl; cbn; constructor.
      - destruct (sweptRow_settled (now env) (users w) u
                    (Hincl u (or_introl eq_refl))) as (_ & _ & H1 & H2).
        split; assumption.
      - apply IH. intros x Hx. apply Hincl. right. exact Hx. }
    apply Hall. apply incl_refl.
  - destruct Hbh as (rows & Hrows & Hids & _).
    rewrite Hrows, length_app, Hdis, <- Hids, length_map. reflexivity.
Qed.

End Sweep.

Section SweepTwice.
Import Store BillingService BillingClaims Fixtures.
Local Open Scope string_scope.

Lemma envAt_faultFree t : faultFree (envAt t).
Proof. intros q. reflexivity. Qed.

(** A row of the store after a sweep is disabled, or it is the row the
    sweep found and did not select. *)
Lemma sweptRow_disabled_or_same now us u :
  In u us ->
  User.status (sweptRow now us u) = DISABLED \/
  (sweptRow now us u = u /\
   expiredBillingWhere now u = false /\ expiredTrialWhere now u = false).
Proof.
  intros Hin. unfold sweptRow.
  pose proof (existsb_self (expiredBillingWhere now) us u Hin) as HB.
  pose proof (existsb_self (expiredTrialWhere now) us u Hin) as HT.
  destruct (existsb (fun x => String.eqb (User.id u) (User.id x))
                    (filter (expiredBillingWhere now) us)) eqn:EB;
    cbn [User.id disableBillingData];
    destruct (existsb (fun x => String.eqb (User.id u) (User.id x))
                      (filter (expiredTrialWhere now) us)) eqn:ET;
    try (left; reflexivity).
  right. split; [reflexivity|]. split.
  - destruct (expiredBillingWhere now u); [specialize (HB eq_refl); discriminate|].
    reflexivity.
  - destruct (expiredTrialWhere now u); [specialize (HT eq_refl); discriminate|].
    reflexivity.
Qed.

(** C8, as the code has it.  A sweep returns; every user it selects
    ends disabled with the flag of the expired plan cleared, and one
    history row is appended per selection.  A second sweep with no write
    in between selects nobody, returns an empty result and leaves the
    store, history included, as the first sweep left it, when it reads
    the same instant as the first, or when no plan of an account that is
    not disabled ends from the first instant on and before the second. *)
Theorem sweep_idempotent env env2 w :
  faultFree env -> faultFree env2 ->
  now env2 = now env \/
  (forall u, In u (users w) -> noPlanEndsBetween (now env) (now env2) u) ->
  exists w1 r1,
    checkAndDisableExpiredAccounts env w = (w1, inr r1) /\
    expiredAreDisabled (now env) (users w) (users w1) /\
    List.length (billingHistories w1)
      = (List.length (billingHistories w) + disabled r1)%nat /\
    checkAndDisableExpiredAccounts env2 w1 = (w1, inr (mkSweepResult 0 [])).
Proof.
  intros Hff Hff2 Hgap.
  assert (Hno : forall u, In u (users w) ->
            noPlanEndsBetween (now env) (now env2) u).
  { destruct Hgap as [Heq | H]; [|exact H].
    intros u _ _. rewrite Heq. split; intros _ d _; lia. }
  destruct (sweep_first_run env Hff w) as (w1 & r1 & Hrun & Hus & Hexp & Hlen).
  exists w1, r1. split; [exact Hrun|]. split; [exact Hexp|].
  split; [exact Hlen|].
  apply sweep_settled; [exact Hff2|].
  intros u' Hin'. rewrite Hus in Hin'.
  apply in_map_iff in Hin'. destruct Hin' as (u & <- & Hin).
  destruct (sweptRow_disabled_or_same (now env) (users w) u Hin)
    as [Hdis | (Hsame & HB & HT)].
  - unfold expiredBillingWhere, expiredTrialWhere. rewrite Hdis. cbn.
    rewrite !andb_false_r. split; reflexivity.
  - rewrite Hsame. specialize (Hno u Hin).
    unfold expiredBillingWhere, expiredTrialWhere, dateLt in *.
    destruct (UserStatus_eqb (User.status u) DISABLED) eqn:Est;
      [rewrite !andb_false_r; split; reflexivity|].
    assert (Hst : User.status u <> DISABLED).
    { intros C. rewrite C in Est. discriminate. }
    destruct (Hno Hst) as [HnB HnT]. cbn [negb] in *.
    rewrite !andb_true_r in *. split.
    + destruct (User.isBillingActive u); [|reflexivity].
      destruct (User.billingCycleEndDate u) as [d|]; [|reflexivity].
      cbn [andb] in *. apply Z.ltb_ge in HB.
      destruct (HnB eq_refl d eq_refl) as [C | C]; [lia|].
      apply Z.ltb_ge. exact C.
    + destruct (User.isTrialActive u); [|reflexivity].
      destruct (User.trialEndDate u) as [d|]; [|reflexivity].
      cbn [andb] in *. apply Z.ltb_ge in HT.
      destruct (HnT eq_refl d eq_refl) as [C | C]; [lia|].
      apply Z.ltb_ge. exact C.
Qed.

Lemma sweep_idempotent_witness :
  faultFree (envAt 6000) /\ faultFree (envAt 8000) /\
  (now (envAt 8000) = now (envAt 6000) \/
   (forall u, In u (users bobAndCarol) ->
      noPlanEndsBetween (now (envAt 6000)) (now (envAt 8000)) u)) /\
  exists w1 r1,
    checkAndDisableExpiredAccounts (envAt 6000) bobAndCarol = (w1, inr r1) /\
    expiredAreDisabled (now (envAt 6000)) (users bobAndCarol) (users w1) /\
    List.length (billingHistories w1)
      = (List.length (billingHistories bobAndCarol) + disabled r1)%nat /\
    checkAndDisableExpiredAccounts (envAt 8000) w1
      = (w1, inr (mkSweepResult 0 [])).
Proof.
  assert (H : now (envAt 8000) = now (envAt 6000) \/
              (forall u, In u (users bobAndCarol) ->
                 noPlanEndsBetween (now (envAt 6000)) (now (envAt 8000)) u)).
  { right. intros u [<- | [<- | []]] _; split; intros Hflag d Hd;
      try discriminate Hflag; inversion Hd; cbn; lia. }
  split; [exact (envAt_faultFree 6000)|].
  split; [exact (envAt_faultFree 8000)|]. split; [exact H|].
  exact (sweep_idempotent (envAt 6000) (envAt 8000) bobAndCarol
           (envAt_faultFree 6000) (envAt_faultFree 8000) H).
Defined.

(** At instant 6000 the sweep disables Bob and leaves Carol alone. *)
Example sweep_bob_and_carol :
  let '(w1, r1) := checkAndDisableExpiredAccounts (envAt 6000) bobAndCarol in
  r1 = inr (mkSweepResult 1 ["u2"]) /\
  map User.status (users w1) = [DISABLED; ACTIVE] /\
  map User.isBillingActive (users w1) = [false; false] /\
  map BillingHistory.action (billingHistories w1) = ["AUTO_DISABLED"].
Proof. vm_compute. auto. Qed.

(** C8 as stated fails.  Each run of the sweep reads the clock.  Carol's
    trial ends at instant 9000: the sweep at instant 6000 disables Bob
    only, and a second sweep at instant 10000, with no write in between,
    disables Carol and appends a second history row. *)
Lemma later_sweep_disables_again :
  (let '(w1, r1) := checkAndDisableExpiredAccounts (envAt 6000) bobAndCarol in
   let '(w2, r2) := checkAndDisableExpiredAccounts (envAt 10000) w1 in
   r1 = inr (mkSweepResult 1 ["u2"]) /\
   r2 = inr (mkSweepResult 1 ["u3"]) /\
   map User.status (users w1) = [DISABLED; ACTIVE] /\
   map User.status (users w2) = [DISABLED; DISABLED] /\
   List.length (billingHistories w1) = 1%nat /\
   List.length (billingHistories w2) = 2%nat) /\
  In carol (users bobAndCarol) /\
  ~ noPlanEndsBetween (now (envAt 6000)) (now (envAt 10000)) carol.
Proof.
  split; [vm_compute; repeat split; reflexivity|].
  split; [right; left; reflexivity|].
  intros H. destruct H as [_ HT]; [discriminate|].
  destruct (HT eq_refl 9000%Z eq_refl) as [C | C]; cbn in C; lia.
Qed.

End SweepTwice.

(* ================================================================== *)
(** * Payments *)
(* ================================================================== *)

Section CycleSpan.
Import JsDate Store BillingService BillingClaims.

(** Evaluate quotients and remainders of closed numbers by 12. *)
Ltac eval_div12 :=
  repeat match goal with
         | |- context [?a / 12] =>
             let v := eval vm_compute in (a / 12) in change (a / 12) with v
         | |- context [?a mod 12] =>
             let v := eval vm_compute in (a mod 12) in change (a mod 12) with v
         end.

Lemma MakeDay_months_span y m d k :
  0 <= m <= 11 -> (k = 1 \/ k = 3 \/ k = 6) ->
  MakeDay y m d + minCycleDays
                    (if k =? 1 then MONTHLY
                     else if k =? 3 then THREE_MONTHS else HALF_YEAR)
  <= MakeDay y (m + k) d.
Proof.
  intros Hm Hk. unfold MakeDay.
  pose proof (DayFromYear_succ y) as Hsucc. unfold DaysInYear in Hsucc.
  destruct Hk as [-> | [-> | ->]]; cbn [Z.eqb Pos.eqb minCycleDays];
    month_cases m; eval_div12; rewrite ?Z.add_0_r, ?Hsucc;
    destruct (isLeapYear y), (isLeapYear (y + 1)); eval_months; lia.
Qed.

Lemma MakeDay_year_span y m d :
  0 <= m <= 11 -> MakeDay y m d + 365 <= MakeDay (y + 1) m d.
Proof.
  intros Hm. unfold MakeDay.
  pose proof (DayFromYear_succ y) as Hsucc. unfold DaysInYear in Hsucc.
  rewrite Z.div_small, Z.mod_small by lia. rewrite !Z.add_0_r, Hsucc.
  destruct (isLeapYear y), (isLeapYear (y + 1)); month_cases m;
    eval_months; lia.
Qed.

Lemma MakeDay_date_shift y m d n : MakeDay y m (d + n) = MakeDay y m d + n.
Proof. unfold MakeDay. lia. Qed.

Lemma MakeDate_span t D n :
  Day t + n <= D -> t + n * msPerDay <= MakeDate D (TimeWithinDay t).
Proof.
  intros H. rewrite <- (MakeDate_Day t) at 1. unfold MakeDate, msPerDay in *. nia.
Qed.

(** Every cycle lasts at least its shortest duration. *)
Lemma calculateCycleEndDate_span start cycle :
  start + minCycleDays cycle * msPerDay <= calculateCycleEndDate start cycle.
Proof.
  pose proof (MonthFromTime_range start) as Hm.
  pose proof (MakeDay_fields start) as Hday.
  destruct cycle; unfold calculateCycleEndDate, setDate, setMonth, setFullYear,
    getDate, getMonth, getFullYear; apply MakeDate_span; rewrite <- Hday.
  - rewrite MakeDay_date_shift. cbn. lia.
  - rewrite MakeDay_date_shift. cbn. lia.
  - apply (MakeDay_months_span _ _ _ 1); auto.
  - apply (MakeDay_months_span _ _ _ 3); auto.
  - apply (MakeDay_months_span _ _ _ 6); auto.
  - apply MakeDay_year_span; auto.
Qed.

Lemma calculateCycleEndDate_days start cycle n :
  (cycle = DAILY /\ n = 1) \/ (cycle = WEEKLY /\ n = 7) ->
  calculateCycleEndDate start cycle = start + n * msPerDay.
Proof.
  pose proof (MakeDay_fields start) as Hday.
  intros [[-> ->] | [-> ->]];
    unfold calculateCycleEndDate, setDate, getDate;
    rewrite MakeDay_date_shift, Hday;
    rewrite <- (MakeDate_Day start) at 3; unfold MakeDate; lia.
Qed.

End CycleSpan.

Section AddPayment.
Import JsDate Store BillingService BillingClaims Fixtures.
Local Open Scope string_scope.



(** Daily and weekly cycles last exactly one and seven days. *)
Example addPayment_daily_weekly start :
  calculateCycleEndDate start DAILY = start + msPerDay /\
  calculateCycleEndDate start WEEKLY = start + 7 * msPerDay.
Proof.
  split.
  - rewrite (calculateCycleEndDate_days start DAILY 1) by auto. lia.
  - apply (calculateCycleEndDate_days start WEEKLY 7). auto.
Qed.

(** A prepayment stacks: Bob's cycle runs to instant 5000, so a payment
    at instant 4000 opens the next cycle at 5000. *)
Example addPayment_stacks :
  stackedStart 4000 bob = 5000 /\ stackedStart 6000 bob = 6000.
Proof. split; reflexivity. Qed.

End AddPayment.

(* ================================================================== *)
(** * Login: rejections *)
(* ================================================================== *)

Create HintDb svc.

Section Combinators.
Import Store AuthClaims.

Lemma keepsSessions_ret {A} (a : A) : keepsSessions (ret a).
Proof. intros w. split; reflexivity. Qed.

Lemma keepsSessions_throw {A} e : keepsSessions (@throw A e).
Proof. intros w. split; reflexivity. Qed.

Lemma keepsSessions_bind {A B} (m : M A) (k : A -> M B) :
  keepsSessions m -> (forall a, keepsSessions (k a)) -> keepsSessions (bind m k).
Proof.
  intros Hm Hk w. unfold bind. specialize (Hm w).
  destruct (m w) as [w1 [e | a]]; cbn in *; [exact Hm|].
  specialize (Hk a w1). destruct Hm as [Hu Hs], Hk as [Hu' Hs'].
  split; congruence.
Qed.

Lemma keepsSessions_tryCatch {A} (m : M A) (h : Error -> M A) :
  keepsSessions m -> (forall e, keepsSessions (h e)) ->
  keepsSessions (tryCatch m h).
Proof.
  intros Hm Hh w. unfold tryCatch. specialize (Hm w).
  destruct (m w) as [w1 [e | a]]; cbn in *; [|exact Hm].
  specialize (Hh e w1). destruct Hm as [Hu Hs], Hh as [Hu' Hs'].
  split; congruence.
Qed.

Lemma keepsSessions_prisma env q {A} (body : M A) :
  keepsSessions body -> keepsSessions (prisma env q body).
Proof.
  intros Hb w. unfold prisma. destruct (fails env q); [split; reflexivity|].
  apply Hb.
Qed.

Lemma keepsAlerts_ret {A} (a : A) : keepsAlerts (ret a).
Proof. intros w. reflexivity. Qed.

Lemma keepsAlerts_throw {A} e : keepsAlerts (@throw A e).
Proof. intros w. reflexivity. Qed.

Lemma keepsAlerts_bind {A B} (m : M A) (k : A -> M B) :
  keepsAlerts m -> (forall a, keepsAlerts (k a)) -> keepsAlerts (bind m k).
Proof.
  intros Hm Hk w. unfold bind. specialize (Hm w).
  destruct (m w) as [w1 [e | a]]; cbn in *; [exact Hm|].
  specialize (Hk a w1). congruence.
Qed.

Lemma keepsAlerts_tryCatch {A} (m : M A) (h : Error -> M A) :
  keepsAlerts m -> (forall e, keepsAlerts (h e)) -> keepsAlerts (tryCatch m h).
Proof.
  intros Hm Hh w. unfold tryCatch. specialize (Hm w).
  destruct (m w) as [w1 [e | a]]; cbn in *; [|exact Hm].
  specialize (Hh e w1). congruence.
Qed.

Lemma keepsAlerts_prisma env q {A} (body : M A) :
  keepsAlerts body -> keepsAlerts (prisma env q body).
Proof.
  intros Hb w. unfold prisma. destruct (fails env q); [reflexivity|].
  apply Hb.
Qed.

Lemma alwaysThrows_throw {A} e : alwaysThrows (@throw A e).
Proof. intros w. exists e. reflexivity. Qed.

Lemma alwaysThrows_bind {A B} (m : M A) (k : A -> M B) :
  (forall a, alwaysThrows (k a)) -> alwaysThrows (bind m k).
Proof.
  intros Hk w. unfold bind.
  destruct (m w) as [w1 [e | a]]; cbn; [eauto|]. apply Hk.
Qed.

Lemma throwsExactly_throw {A} e : throwsExactly e (@throw A e).
Proof. intros w. reflexivity. Qed.

Lemma throwsExactly_bind {A B} e (m : M A) (k : A -> M B) :
  alwaysReturns m -> (forall a, throwsExactly e (k a)) ->
  throwsExactly e (bind m k).
Proof.
  intros Hm Hk w. unfold bind. destruct (Hm w) as (a & Ha).
  destruct (m w) as [w1 [e' | a']]; cbn in *; [discriminate|]. apply Hk.
Qed.

Lemma alwaysReturns_ret {A} (a : A) : alwaysReturns (ret a).
Proof. intros w. exists a. reflexivity. Qed.

Lemma alwaysReturns_bind {A B} (m : M A) (k : A -> M B) :
  alwaysReturns m -> (forall a, alwaysReturns (k a)) -> alwaysReturns (bind m k).
Proof.
  intros Hm Hk w. unfold bind. destruct (Hm w) as (a & Ha).
  destruct (m w) as [w1 [e' | a']]; cbn in *; [discriminate|]. apply Hk.
Qed.

Lemma alwaysReturns_prisma env q {A} (body : M A) :
  faultFree env -> alwaysReturns body -> alwaysReturns (prisma env q body).
Proof.
  intros Hff Hb w. rewrite prisma_ok by apply Hff. apply Hb.
Qed.

End Combinators.

#[export] Hint Resolve keepsSessions_ret keepsSessions_throw keepsSessions_bind
  keepsSessions_tryCatch keepsSessions_prisma
  keepsAlerts_ret keepsAlerts_throw keepsAlerts_bind keepsAlerts_tryCatch
  keepsAlerts_prisma
  alwaysThrows_throw alwaysThrows_bind throwsExactly_throw throwsExactly_bind
  alwaysReturns_ret alwaysReturns_bind alwaysReturns_prisma : svc.

Section AuditFrames.
Import Store AuthClaims.

Variable env : Env.

Lemma freshId_keepsSessions : keepsSessions freshId.
Proof. intros w. split; reflexivity. Qed.

Lemma freshId_keepsAlerts : keepsAlerts freshId.
Proof. intros w. reflexivity. Qed.

Lemma freshId_returns : alwaysReturns freshId.
Proof. intros w. eexists. reflexivity. Qed.

Lemma getLocationFromIP_run ip w :
  exists reqs result,
    Geo.getLocationFromIP env ip w =
    (mkWorld (users w) (sessionActivities w) (loginHistories w)
             (securityAlerts w) (payments w) (billingHistories w)
             (nextId w) (httpRequests w ++ reqs), inr result).
Proof.
  destruct (classic_guard ip) as [Ha | Hn].
  - rewrite (getLocationFromIP_local env ip w Ha).
    exists [], (Some Geo.localNetwork). rewrite app_nil_r.
    destruct w; reflexivity.
  - destruct ip as [ip|]; [|exfalso; apply Hn; left; exact I].
    rewrite (getLocationFromIP_lookup env ip w Hn).
    do 2 eexists. reflexivity.
Qed.

Lemma getLocationFromIP_keepsSessions ip :
  keepsSessions (Geo.getLocationFromIP env ip).
Proof.
  intros w. destruct (getLocationFromIP_run ip w) as (reqs & r & ->).
  split; reflexivity.
Qed.

Lemma getLocationFromIP_keepsAlerts ip :
  keepsAlerts (Geo.getLocationFromIP env ip).
Proof.
  intros w. destruct (getLocationFromIP_run ip w) as (reqs & r & ->).
  reflexivity.
Qed.

Lemma getLocationFromIP_returns ip :
  alwaysReturns (Geo.getLocationFromIP env ip).
Proof.
  intros w. destruct (getLocationFromIP_run ip w) as (reqs & r & ->).
  eexists. reflexivity.
Qed.

Lemma modify_loginHistories_keepsSessions f :
  keepsSessions (modify (set_loginHistories f)).
Proof. intros w. split; reflexivity. Qed.

Lemma modify_loginHistories_keepsAlerts f :
  keepsAlerts (modify (set_loginHistories f)).
Proof. intros w. reflexivity. Qed.

Lemma modify_securityAlerts_keepsSessions f :
  keepsSessions (modify (set_securityAlerts f)).
Proof. intros w. split; reflexivity. Qed.

Lemma modify_returns f : alwaysReturns (modify f).
Proof. intros w. eexists. reflexivity. Qed.

Hint Resolve freshId_keepsSessions freshId_keepsAlerts freshId_returns
  getLocationFromIP_keepsSessions getLocationFromIP_keepsAlerts
  getLocationFromIP_returns modify_loginHistories_keepsSessions
  modify_loginHistories_keepsAlerts modify_securityAlerts_keepsSessions
  modify_returns : svc.

Lemma createLoginHistory_keepsSessions params :
  keepsSessions (LoginHistoryService.createLoginHistory env params).
Proof.
  unfold LoginHistoryService.createLoginHistory.
  apply keepsSessions_bind; [destruct (Js.truthy _); auto with svc|].
  intros loc. auto 10 with svc.
Qed.

Lemma createLoginHistory_keepsAlerts params :
  keepsAlerts (LoginHistoryService.createLoginHistory env params).
Proof.
  unfold LoginHistoryService.createLoginHistory.
  apply keepsAlerts_bind; [destruct (Js.truthy _); auto with svc|].
  intros loc. auto 10 with svc.
Qed.

Lemma createLoginHistory_returns params :
  faultFree env ->
  alwaysReturns (LoginHistoryService.createLoginHistory env params).
Proof.
  intros Hff. unfold LoginHistoryService.createLoginHistory.
  apply alwaysReturns_bind; [destruct (Js.truthy _); auto with svc|].
  intros loc. auto 10 with svc.
Qed.

Lemma createSecurityAlert_keepsSessions params :
  keepsSessions (SecurityAlertService.createSecurityAlert env params).
Proof.
  unfold SecurityAlertService.createSecurityAlert. auto 10 with svc.
Qed.

Lemma createSecurityAlert_returns params :
  faultFree env ->
  alwaysReturns (SecurityAlertService.createSecurityAlert env params).
Proof.
  intros Hff. unfold SecurityAlertService.createSecurityAlert.
  auto 10 with svc.
Qed.

Lemma createFailedLoginAlert_keepsSessions email ip location count reason :
  keepsSessions
    (SecurityAlertService.createFailedLoginAlert env email ip location count reason).
Proof. apply createSecurityAlert_keepsSessions. Qed.

Lemma createFailedLoginAlert_returns email ip location count reason :
  faultFree env ->
  alwaysReturns
    (SecurityAlertService.createFailedLoginAlert env email ip location count reason).
Proof. apply createSecurityAlert_returns. Qed.

End AuditFrames.

#[export] Hint Resolve freshId_keepsSessions freshId_keepsAlerts freshId_returns
  getLocationFromIP_keepsSessions getLocationFromIP_keepsAlerts
  getLocationFromIP_returns modify_loginHistories_keepsSessions
  modify_loginHistories_keepsAlerts modify_securityAlerts_keepsSessions
  modify_returns
  createLoginHistory_keepsSessions createLoginHistory_keepsAlerts
  createLoginHistory_returns createSecurityAlert_keepsSessions
  createSecurityAlert_returns createFailedLoginAlert_keepsSessions
  createFailedLoginAlert_returns : svc.

Section LoginRejections.
Import Store AuthService AuthClaims Fixtures.
Local Open Scope string_scope.

Lemma UserStatus_eqb_eq a b : UserStatus_eqb a b = true <-> a = b.
Proof. destruct a, b; cbn; split; congruence. Qed.

(** What a call that keeps the session tables and always throws does
    from a given store. *)
Lemma rejection_outcome {A} (m : M A) w :
  keepsSessions m -> alwaysThrows m ->
  exists w' e, m w = (w', inl e) /\
    users w' = users w /\ sessionActivities w' = sessionActivities w.
Proof.
  intros Hk Ht. specialize (Hk w). destruct (Ht w) as (e & He).
  destruct (m w) as [w' r]. cbn in *. subst r. eauto.
Qed.

Lemma login_rejects env email password metadata w :
  credentialsRejected env email password w ->
  exists w' e,
    login env email password metadata w = (w', inl e) /\
    users w' = users w /\
    sessionActivities w' = sessionActivities w /\
    (faultFree env -> e = invalidCredentials).
Proof.
  unfold credentialsRejected. intros Hrej.
  unfold login, user_findUnique_email. unfold bind at 1. unfold prisma.
  destruct (fails env UserFindUnique) eqn:Hq.
  { do 2 eexists. repeat split. intros Hff. rewrite Hff in Hq. discriminate. }
  destruct (find (fun u => String.eqb (User.email u) email) (users w))
    as [user|]; [|do 2 eexists; repeat split].
  assert (Hout : forall (m : M (User.t * AuthTokens)),
            keepsSessions m -> alwaysThrows m ->
            (faultFree env -> throwsExactly invalidCredentials m) ->
            exists w' e, m w = (w', inl e) /\ users w' = users w /\
              sessionActivities w' = sessionActivities w /\
              (faultFree env -> e = invalidCredentials)).
  { intros m Hk Ht Hx. destruct (rejection_outcome m w Hk Ht)
      as (w' & e & Hrun & Hu & Hs).
    exists w', e. repeat split; auto.
    intros Hff. specialize (Hx Hff w). rewrite Hrun in Hx. cbn in Hx.
    congruence. }
  destruct (UserStatus_eqb (User.status user) ACTIVE) eqn:Hst; cbn [negb].
  - apply UserStatus_eqb_eq in Hst.
    destruct Hrej as [Hrej | Hrej]; [contradiction|]. rewrite Hrej. cbn [negb].
    destruct metadata as [metadata|].
    + apply Hout; auto 10 with svc.
    + apply Hout; auto with svc.
  - destruct metadata as [metadata|].
    + apply Hout; auto 10 with svc.
    + apply Hout; auto with svc.
Qed.

(** C3, as the code has it.  When the credentials are rejected (no such
    user, account not active, wrong password) login throws and the user
    and session tables are exactly as before, so the current session
    token and the active sessions of every user are untouched; if the
    database answers, the error is the 401 for invalid credentials. *)
Theorem login_credential_rejection env email password metadata w :
  credentialsRejected env email password w ->
  exists w' e,
    login env email password metadata w = (w', inl e) /\
    users w' = users w /\
    sessionActivities w' = sessionActivities w /\
    (faultFree env -> e = invalidCredentials).
Proof. apply login_rejects. Qed.

Lemma login_credential_rejection_witness :
  credentialsRejected (sessionEnv 2000 "T2" "R2" noFault) "alice@x" "guess"
                      aliceOnline /\
  exists w' e,
    login (sessionEnv 2000 "T2" "R2" noFault) "alice@x" "guess"
          (Some fromWindows) aliceOnline = (w', inl e) /\
    users w' = users aliceOnline /\
    sessionActivities w' = sessionActivities aliceOnline /\
    (faultFree (sessionEnv 2000 "T2" "R2" noFault) -> e = invalidCredentials).
Proof.
  assert (H : credentialsRejected (sessionEnv 2000 "T2" "R2" noFault)
                "alice@x" "guess" aliceOnline).
  { right. reflexivity. }
  split; [exact H|].
  exact (login_credential_rejection (sessionEnv 2000 "T2" "R2" noFault)
           "alice@x" "guess" (Some fromWindows) aliceOnline H).
Defined.

(** C3 as stated fails.  Alice is signed in; she signs in again with the
    right password while the alert table rejects inserts.  Login throws,
    and her previous session stays invalidated and her current session
    token cleared. *)
Lemma login_failure_after_invalidation :
  let env := sessionEnv 2000 "T2" "R2" alertsDown in
  let w' := fst (login env "alice@x" "sesame" (Some fromWindows) aliceOnline) in
  snd (login env "alice@x" "sesame" (Some fromWindows) aliceOnline)
    = inl (PrismaError SecurityAlertCreate) /\
  map User.currentSessionToken (users aliceOnline) = [Some "T1"] /\
  map User.currentSessionToken (users w') = [None] /\
  activeSessionsOf "u1" aliceOnline = [session1] /\
  activeSessionsOf "u1" w' = [] /\
  ~ failedLoginHarmless env "alice@x" "sesame" (Some fromWindows) "u1" aliceOnline.
Proof.
  cbv zeta. repeat split; try (vm_compute; reflexivity).
  intros H.
  destruct (H _ _ (surjective_pairing _)) as [Htok _].
  vm_compute in Htok. discriminate.
Qed.

End LoginRejections.


(* ================================================================== *)
(** * Login and the billing expiry *)
(* ================================================================== *)

Section BillingGate.
Import Store AuthService BillingService AuthClaims BillingClaims Fixtures.
Local Open Scope string_scope.

Lemma find_map_preserving {A} (p : A -> bool) (f : A -> A) us :
  (forall u, p (f u) = p u) ->
  find p (map f us) = option_map f (find p us).
Proof.
  intros Hp. induction us as [|u us IH]; cbn; [reflexivity|].
  rewrite Hp. destruct (p u); [reflexivity | exact IH].
Qed.

Lemma sweptRow_email now us u : User.email (sweptRow now us u) = User.email u.
Proof.
  unfold sweptRow.
  repeat match goal with
         | |- context [if ?c then _ else _] => destruct c
         end; reflexivity.
Qed.

Lemma sweptRow_stays_disabled now us u :
  User.status u = DISABLED -> User.status (sweptRow now us u) = DISABLED.
Proof.
  intros H. unfold sweptRow.
  repeat match goal with
         | |- context [if ?c then _ else _] => destruct c
         end; cbn; auto.
Qed.

Lemma expiredBefore_selected now u :
  expiredBefore now u -> User.status u <> DISABLED ->
  expiredBillingWhere now u = true \/ expiredTrialWhere now u = true.
Proof.
  intros Hexp Hst.
  assert (Hn : negb (UserStatus_eqb (User.status u) DISABLED) = true).
  { destruct (UserStatus_eqb (User.status u) DISABLED) eqn:E; [|reflexivity].
    apply UserStatus_eqb_eq in E. contradiction. }
  unfold expiredBillingWhere, expiredTrialWhere, dateLt.
  destruct Hexp as [(Ht & e & He & Hlt) | (Hb & e & He & Hlt)].
  - right. rewrite Ht, He, Hn. cbn.
    destruct (Z.ltb_spec e now); [reflexivity | lia].
  - left. rewrite Hb, He, Hn. cbn.
    destruct (Z.ltb_spec e now); [reflexivity | lia].
Qed.

Lemma sweptRow_disables_expired now us u :
  In u us -> expiredBefore now u -> User.status (sweptRow now us u) = DISABLED.
Proof.
  intros Hin Hexp.
  destruct (UserStatus_eqb (User.status u) DISABLED) eqn:E.
  - apply UserStatus_eqb_eq in E. apply sweptRow_stays_disabled. exact E.
  - assert (Hne : User.status u <> DISABLED).
    { intros C. apply UserStatus_eqb_eq in C. congruence. }
    destruct (sweptRow_settled now us u Hin) as (_ & _ & HB & HT).
    destruct (expiredBefore_selected now u Hexp Hne) as [H | H].
    + apply HB in H. tauto.
    + apply HT in H. tauto.
Qed.

Lemma billingStatus_cycle_branch env user payments :
  User.isTrialActive user = false \/ User.trialEndDate user = None ->
  (isExpired (billingStatusOf env user payments) = true <->
   User.isBillingActive user = true /\
   exists e, User.billingCycleEndDate user = Some e /\ e < now env).
Proof.
  intros Hno. unfold billingStatusOf.
  assert (Hskip : match User.isTrialActive user, User.trialEndDate user with
                  | true, Some _ => False
                  | _, _ => True
                  end).
  { destruct Hno as [-> | ->]; [exact I|].
    destruct (User.isTrialActive user); exact I. }
  destruct (User.isTrialActive user); destruct (User.trialEndDate user) as [te|];
    try contradiction;
    (destruct (User.isBillingActive user);
     destruct (User.billingCycleEndDate user) as [be|]; cbn;
     [ destruct (Z.ltb_spec be (now env)) as [Hlt | Hge]; cbn;
       [ split; [intros _; split; [reflexivity | eauto] | reflexivity]
       | split; [discriminate|];
         intros (_ & e & He & Hlt); inversion He; subst; lia ]
     | split; [discriminate | intros (_ & e & He & _); discriminate]
     | split; [discriminate | intros (Hc & _); discriminate]
     | split; [discriminate | intros (Hc & _); discriminate] ]).
Qed.

(** The status projection reports an expiry exactly when the end date of
    the plan it looks at is strictly in the past. *)
Lemma billingStatus_isExpired env user payments :
  isExpired (billingStatusOf env user payments) = true <->
  (User.isTrialActive user = true /\
   exists e, User.trialEndDate user = Some e /\ e < now env) \/
  ((User.isTrialActive user = false \/ User.trialEndDate user = None) /\
   User.isBillingActive user = true /\
   exists e, User.billingCycleEndDate user = Some e /\ e < now env).
Proof.
  destruct (User.isTrialActive user) eqn:T.
  - destruct (User.trialEndDate user) as [te|] eqn:TE.
    + unfold billingStatusOf. rewrite T, TE.
      destruct (Z.ltb_spec te (now env)) as [Hlt | Hge]; cbn.
      * split; [intros _; left; split; [reflexivity | eauto] | reflexivity].
      * split; [discriminate|].
        intros [(_ & e & He & Hlt) | ([C | C] & _)];
          [inversion He; subst; lia | discriminate | discriminate].
    + rewrite (billingStatus_cycle_branch env user payments (or_intror TE)).
      split.
      * intros H. right. split; [right; reflexivity | exact H].
      * intros [(_ & e & He & _) | (_ & H)]; [discriminate | exact H].
  - rewrite (billingStatus_cycle_branch env user payments (or_introl T)).
    split.
    + intros H. right. split; [left; reflexivity | exact H].
    + intros [(C & _) | (_ & H)]; [discriminate | exact H].
Qed.

(** What stands in for a billing gate is the hourly sweep.  Once it
    has run, a user whose trial or cycle ended strictly before the sweep's
    instant is disabled, and every login of that user throws, leaving the
    user and session tables as the sweep left them: no token is returned,
    no user field updated, no session row created. *)
Theorem expired_login_after_sweep
  envS envL email password metadata w user :
  faultFree envS ->
  find (fun u => String.eqb (User.email u) email) (users w) = Some user ->
  expiredBefore (now envS) user ->
  exists w1 r1 w2 e,
    checkAndDisableExpiredAccounts envS w = (w1, inr r1) /\
    login envL email password metadata w1 = (w2, inl e) /\
    users w2 = users w1 /\
    sessionActivities w2 = sessionActivities w1 /\
    (faultFree envL -> e = invalidCredentials).
Proof.
  intros Hff Hfind Hexp.
  destruct (sweep_run envS Hff w) as (w1 & r1 & Hrun & Hus & _).
  assert (Hfind1 :
    find (fun u => String.eqb (User.email u) email) (users w1)
    = Some (sweptRow (now envS) (users w) user)).
  { rewrite Hus, find_map_preserving.
    - rewrite Hfind. reflexivity.
    - intros u. rewrite sweptRow_email. reflexivity. }
  assert (Hst : User.status (sweptRow (now envS) (users w) user) = DISABLED).
  { apply sweptRow_disables_expired; [|exact Hexp].
    apply find_some in Hfind. tauto. }
  destruct (login_rejects envL email password metadata w1)
    as (w2 & e & Hlogin & Hu & Hs & He).
  { unfold credentialsRejected. rewrite Hfind1. left. rewrite Hst. discriminate. }
  exists w1, r1, w2, e. auto.
Qed.

Lemma sessionEnv_faultFree t access refresh :
  faultFree (sessionEnv t access refresh noFault).
Proof. intros q. reflexivity. Qed.

Lemma expired_login_after_sweep_witness :
  faultFree (envAt 6000) /\
  expiredBefore (now (envAt 6000)) bob /\
  exists w1 r1 w2 e,
    checkAndDisableExpiredAccounts (envAt 6000) bobAndCarol = (w1, inr r1) /\
    login (sessionEnv 7000 "T2" "R2" noFault) "bob@x" "swordfish"
          (Some fromWindows) w1 = (w2, inl e) /\
    users w2 = users w1 /\
    sessionActivities w2 = sessionActivities w1 /\
    (faultFree (sessionEnv 7000 "T2" "R2" noFault) -> e = invalidCredentials).
Proof.
  assert (H : expiredBefore (now (envAt 6000)) bob).
  { right. split; [reflexivity|]. exists 5000. split; [reflexivity|].
    cbn. lia. }
  split; [exact (envAt_faultFree 6000)|]. split; [exact H|].
  exact (expired_login_after_sweep (envAt 6000)
           (sessionEnv 7000 "T2" "R2" noFault) "bob@x" "swordfish"
           (Some fromWindows) bobAndCarol bob (envAt_faultFree 6000) eq_refl H).
Defined.

(** C1 fails on the code.  Bob is active and his cycle ended at instant
    5000.  At instant 6000 the status projection reports him expired, yet
    login with the right password returns tokens, stores the access token
    and opens a session: login never reads the billing status.  At the
    end date itself, instant 5000, the projection does not even report an
    expiry, and login succeeds as well. *)
Lemma login_admits_expired :
  let env := sessionEnv 6000 "T2" "R2" noFault in
  let run := login env "bob@x" "swordfish" (Some fromWindows) bobAndCarol in
  let env' := sessionEnv 5000 "T2" "R2" noFault in
  let run' := login env' "bob@x" "swordfish" (Some fromWindows) bobAndCarol in
  (expiredAtOrBefore (now env) bob /\
   isExpired (billingStatusOf env bob []) = true /\
   snd run = inr (bob, mkAuthTokens "T2" "R2") /\
   map User.currentSessionToken (users (fst run)) = [Some "T2"; None] /\
   map SessionActivity.sessionToken (activeSessionsOf "u2" (fst run)) = ["T2"] /\
   ~ rejectedAsExpired env "bob@x" "swordfish" (Some fromWindows) bobAndCarol) /\
  (expiredAtOrBefore (now env') bob /\
   isExpired (billingStatusOf env' bob []) = false /\
   snd run' = inr (bob, mkAuthTokens "T2" "R2") /\
   ~ rejectedAsExpired env' "bob@x" "swordfish" (Some fromWindows) bobAndCarol).
Proof.
  cbv zeta.
  assert (Hexp : forall t, 5000 <= t -> expiredAtOrBefore t bob).
  { intros t Ht. right. split; [reflexivity|]. exists 5000. split; [reflexivity|].
    exact Ht. }
  split; (split; [apply Hexp; cbn; lia|]);
    repeat (split; [vm_compute; reflexivity|]);
    intros (w' & message & Hrun & _);
    apply (f_equal snd) in Hrun; vm_compute in Hrun; discriminate.
Qed.

End BillingGate.


(* ================================================================== *)
(** * Login: failed-login alerts; refresh and the session rows *)
(* ================================================================== *)

Section FailedLoginAlerts.
Import Store AuthService SecurityAlertService AuthClaims Fixtures.
Local Open Scope string_scope.

(** The alert service escalates on the count it is given. *)
Lemma createFailedLoginAlert_severity env email ip location count reason w :
  faultFree env ->
  exists w' alert,
    createFailedLoginAlert env email ip location count reason w = (w', inr alert) /\
    securityAlerts w' = (securityAlerts w ++ [alert])%list /\
    SecurityAlert.alertType alert = FAILED_LOGIN_ATTEMPT /\
    SecurityAlert.severity alert = if (5 <=? count)%Z then HIGH else MEDIUM.
Proof.
  intros Hff. unfold createFailedLoginAlert, createSecurityAlert.
  rewrite prisma_ok by apply Hff.
  unfold bind, freshId, modify, ret. cbn.
  do 2 eexists. split; [reflexivity|]. cbn. auto.
Qed.

(** A wrong password for an active account writes no security alert,
    whatever the store and the environment. *)
Lemma login_wrong_password_keeps_alerts env email password metadata w user :
  find (fun u => String.eqb (User.email u) email) (users w) = Some user ->
  User.status user = ACTIVE ->
  comparePassword env password (User.passwordHash user) = false ->
  securityAlerts (fst (login env email password metadata w)) = securityAlerts w.
Proof.
  intros Hfind Hst Hpw.
  unfold login, user_findUnique_email. unfold bind at 1. unfold prisma.
  destruct (fails env UserFindUnique); [reflexivity|].
  rewrite Hfind, Hst, Hpw. cbn [UserStatus_eqb negb].
  destruct metadata as [metadata|]; [|reflexivity].
  assert (H : keepsAlerts
    (Store.bind
       (LoginHistoryService.createLoginHistory env
          (LoginHistoryService.mkParams (User.id user) email
             (ipAddress metadata) (userAgent metadata) (macAddress metadata)
             None false (Some "Incorrect password")))
       (fun _ => @throw (User.t * AuthTokens) invalidCredentials)))
    by auto with svc.
  apply H.
Qed.

(** C4 fails on the code.  Alice's account is active and the password is
    wrong: login throws the 401 and records the failed attempt, but no
    failed-login alert is written. *)
Theorem wrong_password_emits_no_alert :
  let env := sessionEnv 2000 "T2" "R2" noFault in
  let run := login env "alice@x" "guess" (Some fromWindows) aliceOnline in
  User.status alice = ACTIVE /\
  comparePassword env "guess" (User.passwordHash alice) = false /\
  snd run = inl invalidCredentials /\
  map (fun h => (LoginHistory.userId h, LoginHistory.success h,
                 LoginHistory.failureReason h)) (loginHistories (fst run))
    = [("u1", false, Some "Incorrect password")] /\
  securityAlerts (fst run) = [].
Proof. cbv zeta. repeat split; vm_compute; reflexivity. Qed.

(** The sibling branch does alert: a sign-in to Dave's suspended account
    writes a failed-login alert, with the count fixed at one. *)
Example inactive_account_emits_alert :
  let env := sessionEnv 2000 "T2" "R2" noFault in
  let run := login env "dave@x" "plugh" (Some fromWindows) daveSuspended in
  snd run = inl invalidCredentials /\
  map (fun a => (SecurityAlert.alertType a, SecurityAlert.severity a,
                 SecurityAlert.message a)) (securityAlerts (fst run))
    = [(FAILED_LOGIN_ATTEMPT, MEDIUM,
        "1 failed login attempt(s) for dave@x from 5.6.7.8 (Unknown location)")].
Proof. cbv zeta. split; vm_compute; reflexivity. Qed.

End FailedLoginAlerts.

Section RefreshAndSessions.
Import Store AuthService SessionActivityService AuthClaims Fixtures.
Local Open Scope string_scope.

(** C2 fails on the code.  Alice signs in and gets access token T1; a
    quarter of an hour later she refreshes and gets T1b.  Her current
    session token is now T1b while her one active session row still
    carries T1.  A forced logout of that row then finds no matching
    token: the row is closed and T1b stays valid. *)
Theorem refresh_leaves_session_token_stale :
  let signIn := login (sessionEnv 1000 "T1" "R1" noFault)
                      "alice@x" "sesame" (Some fromWindows) aliceRegistered in
  let refresh := refreshTokens (sessionEnv 900000 "T1b" "R1b" noFault)
                               "R1" (fst signIn) in
  let forced := forceLogout (sessionEnv 900001 "" "" noFault)
                            "c2" "u0" (fst refresh) in
  (exists user, snd signIn = inr (user, mkAuthTokens "T1" "R1")) /\
  map User.currentSessionToken (users (fst signIn)) = [Some "T1"] /\
  map SessionActivity.sessionToken (activeSessionsOf "u1" (fst signIn)) = ["T1"] /\
  snd refresh = inr (mkAuthTokens "T1b" "R1b") /\
  map User.currentSessionToken (users (fst refresh)) = [Some "T1b"] /\
  map SessionActivity.sessionToken (activeSessionsOf "u1" (fst refresh)) = ["T1"] /\
  snd forced = inr (mkForceLogoutResult true "u1" "alice@x") /\
  map User.currentSessionToken (users (fst forced)) = [Some "T1b"] /\
  activeSessionsOf "u1" (fst forced) = [].
Proof.
  cbv zeta. split; [eexists; vm_compute; reflexivity|].
  repeat split; vm_compute; reflexivity.
Qed.

(** Refresh never touches the session table. *)
Lemma refreshTokens_keeps_session_rows env refreshToken w :
  sessionActivities (fst (refreshTokens env refreshToken w)) = sessionActivities w.
Proof.
  unfold refreshTokens, tryCatch.
  destruct (verifyRefreshToken env refreshToken) as [payload|]; [|reflexivity].
  unfold user_findUnique_id, user_update, bind, prisma, throw, ret.
  destruct (fails env UserFindUnique); [reflexivity|].
  destruct (find _ (users w)) as [user|]; [|reflexivity].
  destruct (UserStatus_eqb (User.status user) ACTIVE); [|reflexivity].
  cbn [negb].
  destruct (fails env UserUpdate); [reflexivity|].
  destruct (find _ (users w)); reflexivity.
Qed.

End RefreshAndSessions.

(* ================================================================== *)
(** * Single-session enforcement *)
(* ================================================================== *)

Section Closing.
Import Store SessionActivityService AuthClaims.
Local Open Scope string_scope.

Lemma closes_refl rows : closes rows rows.
Proof. unfold closes. induction rows; constructor; auto. Qed.

Lemma closes_trans rows1 rows2 rows3 :
  closes rows1 rows2 -> closes rows2 rows3 -> closes rows1 rows3.
Proof.
  unfold closes. intros H12. revert rows3.
  induction H12 as [|r1 r2 l1 l2 Hr H12 IH]; intros rows3 H23;
    inversion H23; subst; constructor.
  - destruct Hr as [-> | (Ha & Hu & Ht)]; [assumption|].
    match goal with H : _ \/ _ |- _ => destruct H as [-> | (Ha' & Hu' & Ht')] end.
    + right. auto.
    + right. repeat split; congruence.
  - apply IH. assumption.
Qed.

(** Closing sessions never adds an active session to a user. *)
Lemma closes_active_le userId rows rows' :
  closes rows rows' ->
  (List.length (filter (fun s => String.eqb (SessionActivity.userId s) userId
                                 && SessionActivity.isActive s) rows')
   <= List.length (filter (fun s => String.eqb (SessionActivity.userId s) userId
                                    && SessionActivity.isActive s) rows))%nat.
Proof.
  unfold closes. induction 1 as [|r r' l l' Hr H IH]; cbn; [lia|].
  destruct Hr as [-> | (Ha & _)].
  - destruct (String.eqb (SessionActivity.userId r) userId
              && SessionActivity.isActive r); cbn; lia.
  - rewrite Ha, andb_false_r.
    destruct (String.eqb (SessionActivity.userId r) userId
              && SessionActivity.isActive r); cbn; lia.
Qed.

(** A token whose rows are all closed stays so. *)
Lemma closes_keeps_token_closed token rows rows' :
  closes rows rows' ->
  (forall r, In r rows -> SessionActivity.sessionToken r = token ->
             SessionActivity.isActive r = false) ->
  (forall r', In r' rows' -> SessionActivity.sessionToken r' = token ->
              SessionActivity.isActive r' = false).
Proof.
  unfold closes. induction 1 as [|r r' l l' Hr H IH]; intros Hc x Hin Ht;
    [contradiction|].
  destruct Hin as [<- | Hin].
  - destruct Hr as [-> | (Ha & _)]; [|exact Ha].
    apply Hc; [left; reflexivity | exact Ht].
  - apply IH; auto. intros y Hy. apply Hc. right. exact Hy.
Qed.

(** An active row of the later table is an active row of the earlier
    one. *)
Lemma closes_active_from rows rows' r' :
  closes rows rows' -> In r' rows' -> SessionActivity.isActive r' = true ->
  In r' rows.
Proof.
  unfold closes. induction 1 as [|r x l l' Hr H IH]; intros Hin Ha;
    [contradiction|].
  destruct Hin as [<- | Hin].
  - destruct Hr as [-> | (Hc & _)]; [left; reflexivity | congruence].
  - right. apply IH; assumption.
Qed.

Lemma updateWhere_markInactive_closes where_ at_ reason rows :
  closes rows (updateWhere where_ (markInactive at_ reason) rows).
Proof.
  unfold closes. eapply Forall2_impl; [|apply Forall2_updateWhere].
  cbn beta. intros r r' ->. destruct (where_ r); [right | left]; cbn; auto.
Qed.

Lemma closer_ret {A} (a : A) : closer (ret a).
Proof. intros w. apply closes_refl. Qed.

Lemma closer_throw {A} e : closer (@throw A e).
Proof. intros w. apply closes_refl. Qed.

Lemma closer_bind {A B} (m : M A) (k : A -> M B) :
  closer m -> (forall a, closer (k a)) -> closer (bind m k).
Proof.
  intros Hm Hk w. unfold bind. specialize (Hm w).
  destruct (m w) as [w1 [e | a]]; cbn in *; [exact Hm|].
  eapply closes_trans; [exact Hm | apply Hk].
Qed.

Lemma closer_prisma env q {A} (body : M A) :
  closer body -> closer (prisma env q body).
Proof.
  intros Hb w. unfold prisma. destruct (fails env q); [apply closes_refl|].
  apply Hb.
Qed.

Lemma closer_forEach {X} (xs : list X) (body : X -> M unit) :
  (forall x, closer (body x)) -> closer (forEach xs body).
Proof.
  intros Hb. induction xs as [|x xs IH]; cbn.
  - apply closer_ret.
  - apply closer_bind; auto.
Qed.

Lemma keepsSessions_closer {A} (m : M A) : keepsSessions m -> closer m.
Proof.
  intros H w. destruct (H w) as [_ Hs]. rewrite Hs. apply closes_refl.
Qed.

Lemma user_update_closer env i data : closer (user_update env i data).
Proof.
  apply closer_prisma. intros w.
  destruct (find _ (users w)); apply closes_refl.
Qed.

Lemma user_updateMany_closer env where_ data :
  closer (user_updateMany env where_ data).
Proof. apply closer_prisma. intros w. apply closes_refl. Qed.

Lemma sessionActivity_updateMany_closer env where_ at_ reason :
  closer (sessionActivity_updateMany env where_ (markInactive at_ reason)).
Proof.
  apply closer_prisma. intros w. cbn.
  apply updateWhere_markInactive_closes.
Qed.

Lemma invalidateSession_closer env token reason :
  closer (invalidateSession env token reason).
Proof.
  unfold invalidateSession. apply closer_bind.
  - apply sessionActivity_updateMany_closer.
  - intros n. apply closer_ret.
Qed.

Lemma invalidateAllUserSessions_closer env userId reason :
  closer (invalidateAllUserSessions env userId reason).
Proof. apply sessionActivity_updateMany_closer. Qed.

Lemma sessionActivity_findMany_closer env where_ :
  closer (sessionActivity_findMany env where_).
Proof. apply closer_prisma. intros w. apply closes_refl. Qed.

Lemma sessionActivity_findUnique_closer env i :
  closer (sessionActivity_findUnique env i).
Proof. apply closer_prisma. intros w. apply closes_refl. Qed.

Lemma getUserActiveSessions_closer env userId :
  closer (getUserActiveSessions env userId).
Proof.
  unfold getUserActiveSessions. apply closer_bind.
  - apply sessionActivity_findMany_closer.
  - intros rows. apply closer_ret.
Qed.

Lemma forceLogout_closer env sessionId adminId :
  closer (forceLogout env sessionId adminId).
Proof.
  unfold forceLogout. apply closer_bind; [apply sessionActivity_findUnique_closer|].
  intros [session|]; [|apply closer_throw].
  apply closer_bind; [intros w; apply closes_refl|]. intros w0.
  apply closer_bind; [apply invalidateSession_closer|]. intros _.
  apply closer_bind.
  - unfold when. destruct (SessionActivity.isActive session); [|apply closer_ret].
    apply closer_bind; [apply user_updateMany_closer|].
    intros n. apply closer_ret.
  - intros _. destruct (find _ (users w0)); [apply closer_ret | apply closer_throw].
Qed.

End Closing.

(** Present a goal about the session table after a call as a goal about
    the call, and take the call apart. *)
Ltac as_closer :=
  match goal with
  | |- AuthClaims.closes (Store.sessionActivities ?w)
         (Store.sessionActivities (fst (?m ?w))) =>
      let H := fresh in
      assert (H : AuthClaims.closer m); [|exact (H w)]
  end.

Ltac closer_steps :=
  repeat match goal with
         | |- AuthClaims.closer (Store.bind _ _) =>
             apply closer_bind; [|intros ?]
         | |- AuthClaims.closer (Store.ret _) => apply closer_ret
         | |- AuthClaims.closer (Store.throw _) => apply closer_throw
         | |- AuthClaims.closer (Store.forEach _ _) =>
             apply closer_forEach; intros ?
         | |- AuthClaims.closer (match ?x with _ => _ end) => destruct x
         | |- AuthClaims.closer _ =>
             first [ apply invalidateSession_closer
                   | apply user_update_closer
                   | apply keepsSessions_closer; auto 10 with svc ]
         end.

Section LoginSessions.
Import Store AuthService SessionActivityService AuthClaims.
Local Open Scope string_scope.

Lemma In_insertDesc {R} (key : R -> JsDate.Date) x r rows :
  In x (insertDesc key r rows) <-> x = r \/ In x rows.
Proof.
  induction rows as [|r' rows IH]; cbn.
  - intuition congruence.
  - destruct (key r' <? key r)%Z; cbn; [intuition congruence|].
    rewrite IH. intuition congruence.
Qed.

Lemma In_orderByDesc {R} (key : R -> JsDate.Date) x rows :
  In x (orderByDesc key rows) <-> In x rows.
Proof.
  unfold orderByDesc. induction rows as [|r rows IH]; cbn; [tauto|].
  rewrite In_insertDesc, IH. intuition congruence.
Qed.

(** The state a step of a sequence ends in satisfies [P] whether the
    first call throws or returns. *)
Lemma bind_state {A B} (m : M A) (k : A -> M B) w (P : World -> Prop) :
  (forall e, snd (m w) = inl e -> P (fst (m w))) ->
  (forall a, snd (m w) = inr a -> P (fst (k a (fst (m w))))) ->
  P (fst (bind m k w)).
Proof.
  intros He Ha. unfold bind.
  destruct (m w) as [w1 [e | a]]; cbn in *; [apply (He e) | apply (Ha a)];
    reflexivity.
Qed.

(** After a completed invalidation, no row with the token is active. *)
Lemma invalidateSession_closes_token env token reason w ok :
  snd (invalidateSession env token reason w) = inr ok ->
  forall r, In r (sessionActivities (fst (invalidateSession env token reason w))) ->
    SessionActivity.sessionToken r = token ->
    SessionActivity.isActive r = false.
Proof.
  unfold invalidateSession, sessionActivity_updateMany, bind, prisma, ret.
  destruct (fails env SessionActivityUpdateMany); cbn; [discriminate|].
  intros _ r Hin Ht. apply In_updateWhere in Hin.
  destruct Hin as (r0 & _ & ->).
  destruct (String.eqb (SessionActivity.sessionToken r0) token
            && SessionActivity.isActive r0) eqn:E; [reflexivity|].
  apply andb_false_iff in E. destruct E as [E | E]; [|exact E].
  apply String.eqb_neq in E. cbn in Ht. contradiction.
Qed.

(** After the loop over the sessions to invalidate has completed, no row
    with the token of any of them is active. *)
Lemma invalidation_loop env reason sessions : forall w,
  snd (forEach sessions
         (fun session =>
            Store.bind (invalidateSession env (SessionActivity.sessionToken session)
                                          reason)
                       (fun _ => ret tt)) w) = inr tt ->
  forall s r, In s sessions ->
    In r (sessionActivities
            (fst (forEach sessions
                    (fun session =>
                       Store.bind
                         (invalidateSession env
                            (SessionActivity.sessionToken session) reason)
                         (fun _ => ret tt)) w))) ->
    SessionActivity.sessionToken r = SessionActivity.sessionToken s ->
    SessionActivity.isActive r = false.
Proof.
  induction sessions as [|s0 sessions IH]; intros w Hok s r Hs Hr Ht;
    [contradiction|].
  cbn [forEach] in Hok, Hr. unfold bind at 1 in Hok. unfold bind at 1 in Hr.
  set (step := Store.bind
                 (invalidateSession env (SessionActivity.sessionToken s0) reason)
                 (fun _ => ret tt) w) in *.
  assert (Hstep : forall u, snd step = inr u ->
            forall x, In x (sessionActivities (fst step)) ->
              SessionActivity.sessionToken x = SessionActivity.sessionToken s0 ->
              SessionActivity.isActive x = false).
  { unfold step, bind, ret.
    pose proof (invalidateSession_closes_token env
                  (SessionActivity.sessionToken s0) reason w) as Hinv.
    destruct (invalidateSession env (SessionActivity.sessionToken s0) reason w)
      as [w1 [e | ok]]; cbn in *; [discriminate|].
    intros _ _. apply (Hinv ok). reflexivity. }
  destruct step as [w1 [e | []]] eqn:Estep; cbn in *; [discriminate|].
  destruct Hs as [<- | Hs].
  - assert (Hcl : closes (sessionActivities w1)
                    (sessionActivities
                       (fst (forEach sessions
                               (fun session =>
                                  Store.bind
                                    (invalidateSession env
                                       (SessionActivity.sessionToken session) reason)
                                    (fun _ => ret tt)) w1)))).
    { apply closer_forEach. intros x. apply closer_bind.
      - apply invalidateSession_closer.
      - intros b. apply closer_ret. }
    eapply closes_keeps_token_closed; [exact Hcl | | exact Hr | exact Ht].
    apply (Hstep tt eq_refl).
  - apply (IH w1 Hok s r Hs Hr Ht).
Qed.

Lemma closes_keeps_user_closed userId rows rows' :
  closes rows rows' ->
  (forall r, In r rows -> SessionActivity.userId r = userId ->
             SessionActivity.isActive r = false) ->
  (forall r', In r' rows' -> SessionActivity.userId r' = userId ->
              SessionActivity.isActive r' = false).
Proof.
  intros Hcl Hc r' Hin Hu.
  destruct (SessionActivity.isActive r') eqn:Ha; [|reflexivity].
  rewrite <- Ha. apply Hc; [|exact Hu].
  eapply closes_active_from; eassumption.
Qed.

Lemma bind_returns {A B} (m : M A) (k : A -> M B) w b :
  snd (bind m k w) = inr b ->
  exists a, snd (m w) = inr a /\
            bind m k w = k a (fst (m w)).
Proof.
  unfold bind. destruct (m w) as [w1 [e | a]]; cbn; [discriminate|].
  intros _. eauto.
Qed.

Lemma getUserActiveSessions_returns env userId w sessions :
  snd (getUserActiveSessions env userId w) = inr sessions ->
  fst (getUserActiveSessions env userId w) = w /\
  sessions = orderByDesc SessionActivity.loginAt (activeSessionsOf userId w).
Proof.
  unfold getUserActiveSessions, sessionActivity_findMany, bind, prisma, ret.
  destruct (fails env SessionActivityFindMany); cbn; [discriminate|].
  intros H. inversion H. auto.
Qed.

Lemma createSession_rows env params w :
  let rows' := sessionActivities (fst (createSession env params w)) in
  rows' = sessionActivities w \/
  exists new, rows' = (sessionActivities w ++ [new])%list /\
              SessionActivity.userId new = userId params.
Proof.
  cbv zeta. unfold createSession.
  assert (Hloc : exists reqs loc,
    (if Js.truthy (ipAddress params)
     then Geo.getLocationFromIP env (ipAddress params)
     else ret None) w =
    (mkWorld (users w) (sessionActivities w) (loginHistories w)
             (securityAlerts w) (payments w) (billingHistories w)
             (nextId w) (httpRequests w ++ reqs), inr loc)).
  { destruct (Js.truthy (ipAddress params)).
    - apply getLocationFromIP_run.
    - exists [], None. rewrite app_nil_r. destruct w; reflexivity. }
  destruct Hloc as (reqs & loc & Hloc).
  unfold bind, prisma, freshId, modify. rewrite Hloc.
  destruct (fails env SessionActivityCreate); [left; reflexivity|].
  right. cbn. eexists. split; reflexivity.
Qed.

Lemma createMultipleDeviceLoginAlert_keepsSessions
  env userId userEmail previousDevice previousIP previousLocation
  newDevice newIP newLocation :
  keepsSessions
    (SecurityAlertService.createMultipleDeviceLoginAlert env userId userEmail
       previousDevice previousIP previousLocation newDevice newIP newLocation).
Proof. apply createSecurityAlert_keepsSessions. Qed.

Hint Resolve createMultipleDeviceLoginAlert_keepsSessions : svc.

(** The last step of login: the history row and the new session row. *)
Lemma login_tail_sessions env userId email token metadata rows w :
  closes rows (sessionActivities w) ->
  (forall r, In r (sessionActivities w) ->
     SessionActivity.userId r = userId -> SessionActivity.isActive r = false) ->
  sessionsAfterLogin rows
    (fst (match metadata with
          | Some metadata =>
              Store.bind
                (LoginHistoryService.createLoginHistory env
                   (LoginHistoryService.mkParams userId email
                      (AuthService.ipAddress metadata)
                      (AuthService.userAgent metadata)
                      (AuthService.macAddress metadata)
                      (AuthService.deviceMetadata metadata) true None))
                (fun _ =>
                   Store.bind
                     (createSession env
                        (SessionActivityService.mkParams userId token
                           (AuthService.ipAddress metadata)
                           (AuthService.userAgent metadata)
                           (AuthService.macAddress metadata)
                           (AuthService.deviceMetadata metadata)))
                     (fun _ => ret tt))
          | None => ret tt
          end w)).
Proof.
  intros Hcl Hzero.
  destruct metadata as [metadata|]; [|left; exact Hcl].
  apply bind_state.
  { intros e _. left. eapply closes_trans; [exact Hcl|].
    as_closer. closer_steps. }
  intros h _.
  set (w3 := fst (LoginHistoryService.createLoginHistory env _ w)) in *.
  assert (Hrows3 : sessionActivities w3 = sessionActivities w)
    by apply createLoginHistory_keepsSessions.
  clearbody w3.
  assert (Hnew : sessionsAfterLogin rows
            (fst (createSession env
                    (SessionActivityService.mkParams userId token
                       (AuthService.ipAddress metadata)
                       (AuthService.userAgent metadata)
                       (AuthService.macAddress metadata)
                       (AuthService.deviceMetadata metadata)) w3))).
  { destruct (createSession_rows env
                (SessionActivityService.mkParams userId token
                   (AuthService.ipAddress metadata)
                   (AuthService.userAgent metadata)
                   (AuthService.macAddress metadata)
                   (AuthService.deviceMetadata metadata)) w3)
      as [Heq | (new & Heq & Hnew)]; cbv zeta in Heq.
    - left. rewrite Heq, Hrows3. exact Hcl.
    - right. exists (sessionActivities w), new.
      rewrite Heq, Hrows3. split; [reflexivity|]. split; [exact Hcl|].
      intros r Hin Hr. apply Hzero; [exact Hin|]. cbn in Hnew. congruence. }
  apply bind_state; [intros e _ | intros s _]; exact Hnew.
Qed.

Lemma credentialsRejected_dec env email password w :
  credentialsRejected env email password w \/
  ~ credentialsRejected env email password w.
Proof.
  unfold credentialsRejected.
  destruct (find (fun u => String.eqb (User.email u) email) (users w))
    as [user|]; [|left; exact I].
  destruct (comparePassword env password (User.passwordHash user));
    [|left; right; reflexivity].
  destruct (User.status user) eqn:E.
  - right. intros [H | H]; [apply H; reflexivity | discriminate].
  - left. left. discriminate.
  - left. left. discriminate.
Qed.

(** The login pipeline past the credential gates: sessions are only
    closed, up to the one row the final step may add, and when that row
    is added every earlier session of the user has been closed. *)
Lemma login_sessions env email password metadata w :
  sessionsAfterLogin (sessionActivities w)
                     (fst (login env email password metadata w)).
Proof.
  destruct (credentialsRejected_dec env email password w) as [Hrej | Hok].
  - destruct (login_rejects env email password metadata w Hrej)
      as (w' & e & Hrun & _ & Hs & _).
    rewrite Hrun. left. cbn. rewrite Hs. apply closes_refl.
  - unfold credentialsRejected in Hok.
    unfold login, user_findUnique_email. unfold bind at 1. unfold prisma.
    destruct (fails env UserFindUnique); [left; apply closes_refl|].
    destruct (find (fun u => String.eqb (User.email u) email) (users w))
      as [user|]; [|exfalso; apply Hok; exact I].
    destruct (UserStatus_eqb (User.status user) ACTIVE) eqn:Hst;
      [|exfalso; apply Hok; left; intros C; rewrite C in Hst; discriminate].
    destruct (comparePassword env password (User.passwordHash user)) eqn:Hpw;
      [|exfalso; apply Hok; right; reflexivity].
    cbn [negb].
    apply bind_state.
    { intros e _. left. apply getUserActiveSessions_closer. }
    intros sessions Hsess.
    destruct (getUserActiveSessions_returns env (User.id user) w sessions Hsess)
      as [-> ->].
    set (sessions := orderByDesc SessionActivity.loginAt
                       (activeSessionsOf (User.id user) w)).
    apply bind_state.
    { intros e _. left. as_closer. closer_steps. }
    intros [] Hinv.
    set (INV := match sessions with
                | [] => ret tt
                | oldSession :: _ => _
                end) in *.
    assert (Hcl1 : closes (sessionActivities w) (sessionActivities (fst (INV w)))).
    { unfold INV. as_closer. closer_steps. }
    assert (Hzero : forall r, In r (sessionActivities (fst (INV w))) ->
              SessionActivity.userId r = User.id user ->
              SessionActivity.isActive r = false).
    { intros r Hin Hu.
      destruct (SessionActivity.isActive r) eqn:Ha; [|reflexivity].
      assert (Hin0 : In r (sessionActivities w))
        by (eapply closes_active_from; eassumption).
      assert (Hsel : In r sessions).
      { unfold sessions. apply In_orderByDesc. unfold activeSessionsOf.
        apply filter_In. split; [exact Hin0|].
        rewrite Hu, String.eqb_refl, Ha. reflexivity. }
      rewrite <- Ha. revert Hin. subst INV.
      destruct sessions as [|old rest]; [contradiction|].
      apply bind_returns in Hinv. destruct Hinv as ([] & Hloop & Hrest).
      rewrite Hrest. intros Hin.
      eapply (closes_keeps_token_closed (SessionActivity.sessionToken r));
        [ | intros x Hx Ht;
            exact (invalidation_loop env "new_login" (old :: rest) w Hloop
                     r x Hsel Hx Ht)
          | exact Hin | reflexivity ].
      as_closer. closer_steps. }
    clearbody INV. set (w1 := fst (INV w)) in *.
    apply bind_state.
    { intros e _. left. eapply closes_trans; [exact Hcl1|].
      as_closer. closer_steps. }
    intros u Hu.
    set (w2 := fst (user_update env (User.id user) _ w1)) in *.
    assert (Hcl2 : closes (sessionActivities w) (sessionActivities w2)).
    { eapply closes_trans; [exact Hcl1|]. unfold w2. as_closer. closer_steps. }
    assert (Hzero2 : forall r, In r (sessionActivities w2) ->
              SessionActivity.userId r = User.id user ->
              SessionActivity.isActive r = false).
    { eapply closes_keeps_user_closed; [|exact Hzero].
      unfold w2. as_closer. closer_steps. }
    clearbody w2.
    apply bind_state; [intros e _ | intros [] _];
      apply login_tail_sessions; assumption.
Qed.

Lemma closes_single w w' :
  closes (sessionActivities w) (sessionActivities w') ->
  singleSession w -> singleSession w'.
Proof.
  intros Hcl Hs userId. specialize (Hs userId). unfold activeSessionsOf in *.
  pose proof (closes_active_le userId _ _ Hcl). lia.
Qed.

Lemma sessionsAfterLogin_single w w' :
  sessionsAfterLogin (sessionActivities w) w' ->
  singleSession w -> singleSession w'.
Proof.
  intros [Hcl | (rows1 & new & Hrows & Hcl & Hzero)] Hs;
    [exact (closes_single w w' Hcl Hs)|].
  intros userId. unfold activeSessionsOf. rewrite Hrows, filter_app, length_app.
  pose proof (closes_active_le userId _ _ Hcl) as Hle.
  specialize (Hs userId). unfold activeSessionsOf in Hs.
  destruct (String.eqb (SessionActivity.userId new) userId) eqn:E.
  - apply String.eqb_eq in E.
    rewrite (filter_nil _ rows1).
    + cbn. destruct (_ && _); cbn; lia.
    + intros r Hr.
      destruct (String.eqb (SessionActivity.userId r) userId) eqn:E';
        [|reflexivity].
      apply String.eqb_eq in E'.
      rewrite (Hzero r Hr) by congruence. reflexivity.
  - cbn. rewrite E. cbn. lia.
Qed.

End LoginSessions.

Section SingleSession.
Import Store AuthService SessionActivityService AuthClaims Fixtures.
Local Open Scope string_scope.

Lemma runOp_single w op : singleSession w -> singleSession (runOp w op).
Proof.
  intros Hs. destruct op as [env email password metadata | env token
    | env token reason | env userId reason | env sessionId adminId];
    cbn [runOp].
  - eapply sessionsAfterLogin_single; [apply login_sessions | exact Hs].
  - eapply closes_single; [|exact Hs].
    rewrite refreshTokens_keeps_session_rows. apply closes_refl.
  - eapply closes_single; [apply invalidateSession_closer | exact Hs].
  - eapply closes_single; [apply invalidateAllUserSessions_closer | exact Hs].
  - eapply closes_single; [apply forceLogout_closer | exact Hs].
Qed.

(** The part of C2 that holds: whatever sequence of logins, refreshes,
    invalidations and forced logouts runs, in whatever environments and
    whether or not the calls throw, a store in which no user has two
    active sessions stays such a store. *)
Lemma single_session_preserved ops : forall w,
  singleSession w -> singleSession (runOps ops w).
Proof.
  unfold runOps. induction ops as [|op ops IH]; intros w Hs; cbn; [exact Hs|].
  apply IH. apply runOp_single. exact Hs.
Qed.

Lemma single_session_from_empty ops : singleSession (runOps ops emptyWorld).
Proof.
  apply single_session_preserved. intros userId. cbn. lia.
Qed.

End SingleSession.

(* ================================================================== *)
(** * Device fingerprints *)
(* ================================================================== *)

Section StringFacts.

Import DeviceFingerprint DeviceProperties.
Local Open Scope string_scope.

Lemma append_assoc (a b c : string) : (a ++ b) ++ c = a ++ b ++ c.
Proof. induction a; cbn; congruence. Qed.

Lemma append_nil_r (a : string) : a ++ "" = a.
Proof. induction a; cbn; congruence. Qed.

Lemma prefix_append (a b : string) : String.prefix a (a ++ b) = true.
Proof.
  induction a as [|c a IH]; cbn.
  - now destruct b.
  - destruct (ascii_dec c c); [exact IH | congruence].
Qed.

Lemma prefix_drop (a s : string) :
  String.prefix a s = true -> s = a ++ drop (String.length a) s.
Proof.
  revert s; induction a as [|c a IH]; intros s H; cbn.
  - reflexivity.
  - destruct s as [|c' s]; cbn in H; [discriminate|].
    destruct (ascii_dec c c'); [|discriminate].
    subst; cbn; f_equal; auto.
Qed.

Lemma includes_append (pre sub post : string) :
  includes (pre ++ sub ++ post) sub = true.
Proof.
  induction pre as [|c pre IH].
  - cbn [append]. destruct (sub ++ post) eqn:E; cbn [includes];
      rewrite <- E, prefix_append; reflexivity.
  - cbn [append includes]. rewrite IH. apply orb_true_r.
Qed.

Lemma digits_spec s :
  s = fst (digits s) ++ snd (digits s) /\ every isDigit (fst (digits s)) = true.
Proof.
  induction s as [|c s [IH1 IH2]]; cbn; [auto|].
  destruct (isDigit c) eqn:E; [|cbn; auto].
  destruct (digits s) as [d r]; cbn in *.
  rewrite E; split; [congruence | exact IH2].
Qed.

Lemma every_append p a b :
  every p (a ++ b) = every p a && every p b.
Proof. induction a; cbn; [reflexivity|]. rewrite IHa. apply andb_assoc. Qed.

Lemma concat_snoc sep xs x :
  exists pre, String.concat sep (xs ++ [x]) = pre ++ x.
Proof.
  induction xs as [|a xs [pre IH]].
  - exists ""; reflexivity.
  - cbn [app String.concat].
    destruct (xs ++ [x])%list eqn:E.
    + destruct xs; discriminate.
    + rewrite IH. exists (a ++ sep ++ pre).
      now rewrite !append_assoc.
Qed.

Lemma every_weaken (p q : ascii -> bool) s :
  (forall c, p c = true -> q c = true) -> every p s = true -> every q s = true.
Proof.
  intros Hpq; induction s as [|c s IH]; cbn; [auto|].
  intros H; apply andb_true_iff in H as [Hc Hs].
  now rewrite (Hpq _ Hc), IH.
Qed.

Lemma isDigit_not_underscore c : isDigit c = true -> negb (underscore c) = true.
Proof.
  unfold underscore. destruct (Ascii.eqb c "_") eqn:E; [|reflexivity].
  apply Ascii.eqb_eq in E; subst; discriminate.
Qed.

Lemma underscoresToDots_free s : underscoreFree (underscoresToDots s).
Proof.
  unfold underscoreFree; induction s as [|c s IH]; cbn; [reflexivity|].
  rewrite IH, andb_true_r.
  destruct (underscore c) eqn:E; [reflexivity | now rewrite E].
Qed.

Lemma digitGroups_prefix seps : forall s g,
  digitGroups seps s = Some g -> exists post, s = g ++ post.
Proof.
  induction seps as [|sep seps IH]; intros s g; cbn [digitGroups];
    destruct (digits_spec s) as [Hs _];
    destruct (digits s) as [d r]; cbn [fst snd] in Hs;
    destruct d as [|c0 d]; try discriminate.
  - intros [= <-]. now exists r.
  - destruct r as [|c r]; try discriminate.
    destruct (sep c); try discriminate.
    destruct (digitGroups seps r) as [g'|] eqn:E; try discriminate.
    intros [= <-]. destruct (IH _ _ E) as [post ->].
    exists post. rewrite Hs. cbn [append]. rewrite append_assoc. reflexivity.
Qed.

Lemma digitGroups_dot s g :
  digitGroups [dot] s = Some g -> majorMinor g.
Proof.
  cbn [digitGroups].
  destruct (digits_spec s) as [_ Hd].
  destruct (digits s) as [d r]; cbn [fst snd] in Hd.
  destruct d as [|c0 d]; try discriminate.
  destruct r as [|c r]; try discriminate.
  destruct (dot c) eqn:Ec; try discriminate.
  destruct (digits_spec r) as [_ Hd'].
  destruct (digits r) as [d' r']; cbn [fst snd] in Hd'.
  destruct d' as [|c1 d']; try discriminate.
  intros [= <-].
  apply Ascii.eqb_eq in Ec; subst c.
  exists (String c0 d), (String c1 d'); repeat split; auto; discriminate.
Qed.

Lemma digitGroups_dot_free s g :
  digitGroups [dot] s = Some g -> underscoreFree g.
Proof.
  intros H; destruct (digitGroups_dot _ _ H) as (a & b & -> & _ & _ & Ha & Hb).
  unfold underscoreFree. rewrite every_append. cbn [append every].
  rewrite (every_weaken _ _ _ isDigit_not_underscore Ha),
          (every_weaken _ _ _ isDigit_not_underscore Hb).
  reflexivity.
Qed.

Lemma matchAfter_found lit seps : forall s g,
  matchAfter lit seps s = Some g ->
  exists pre post d,
    s = pre ++ lit ++ g ++ post /\ digitGroups seps d = Some g.
Proof.
  induction s as [|c s IH]; intros g; cbn [matchAfter].
  - destruct (String.prefix lit "") eqn:Ep.
    + destruct (digitGroups seps (drop (String.length lit) "")) as [g'|] eqn:E;
        [|discriminate].
      intros [= <-]. destruct (digitGroups_prefix _ _ _ E) as [post Hpost].
      exists "", post, (drop (String.length lit) ""). split; [|exact E].
      cbn [append]. rewrite <- Hpost. now apply prefix_drop.
    + discriminate.
  - destruct (if String.prefix lit (String c s)
              then digitGroups seps (drop (String.length lit) (String c s))
              else None) as [g'|] eqn:E.
    + intros [= <-].
      destruct (String.prefix lit (String c s)) eqn:Ep; [|discriminate].
      destruct (digitGroups_prefix _ _ _ E) as [post Hpost].
      exists "", post, (drop (String.length lit) (String c s)).
      split; [|exact E].
      cbn [append]. rewrite <- Hpost. now apply prefix_drop.
    + intros H. destruct (IH _ H) as (pre & post & d & -> & Hd).
      exists (String c pre), post, d. split; [reflexivity | exact Hd].
Qed.

End StringFacts.

Section DeviceFacts.

Import DeviceFingerprint DeviceProperties.
Local Open Scope string_scope.

Lemma fingerprint_ends d t :
  deviceType d = Some t ->
  exists pre, getDeviceFingerprint d = pre ++ deviceTypeName t.
Proof.
  intros Ht. unfold getDeviceFingerprint. rewrite Ht.
  rewrite app_assoc.
  destruct (concat_snoc " - "
              (nameAndVersion (os d) (osVersion d)
               ++ nameAndVersion (browser d) (browserVersion d))
              (deviceTypeName t)) as [pre Hpre].
  destruct ((nameAndVersion (os d) (osVersion d)
             ++ nameAndVersion (browser d) (browserVersion d))
            ++ [deviceTypeName t])%list eqn:E.
  - destruct (nameAndVersion (os d) (osVersion d)
              ++ nameAndVersion (browser d) (browserVersion d))%list;
      discriminate.
  - exists pre. exact Hpre.
Qed.

Lemma type_name_not_fallback pre t :
  pre ++ deviceTypeName t <> "Unknown Device".
Proof.
  intros H.
  destruct t; cbn [deviceTypeName] in H;
    do 15 (destruct pre as [|? pre]; cbn [append] in H; try discriminate H).
Qed.

(** X1.  The fingerprint of a parsed User-Agent always ends with the
    device type, so the fallback text of [getDeviceFingerprint] is never
    produced for it; a missing or empty User-Agent gives the fingerprint
    "Unknown", and a present one never has the type [Unknown]. *)
Theorem fingerprint_of_parsed_agent userAgent :
  let d := parseDeviceInfo userAgent in
  exists t pre,
    deviceType d = Some t /\
    getDeviceFingerprint d = pre ++ deviceTypeName t /\
    getDeviceFingerprint d <> "Unknown Device" /\
    if Js.truthy userAgent then t <> Unknown
    else getDeviceFingerprint d = "Unknown".
Proof.
  intros d.
  assert (Ht : exists t, deviceType d = Some t /\
                 if Js.truthy userAgent then t <> Unknown
                 else getDeviceFingerprint d = "Unknown").
  { subst d; unfold parseDeviceInfo.
    destruct (Js.truthy userAgent); cbn [negb deviceType].
    - eexists; split; [reflexivity|].
      unfold detectDeviceType.
      destruct (_ || _); [discriminate|]. destruct (_ || _); discriminate.
    - eexists; split; reflexivity. }
  destruct Ht as (t & Ht & Hu).
  destruct (fingerprint_ends d t Ht) as [pre Hpre].
  exists t, pre. repeat split; auto.
  rewrite Hpre. apply type_name_not_fallback.
Qed.

Lemma differ_sym a b : differ a b = differ b a.
Proof.
  unfold differ. rewrite (String.eqb_sym (Js.orElse a "")).
  destruct (Js.truthy a), (Js.truthy b); reflexivity.
Qed.

Lemma differ_refl a : differ a a = false.
Proof.
  unfold differ. rewrite String.eqb_refl.
  destruct (Js.truthy a); reflexivity.
Qed.

Lemma DeviceType_eqb_sym a b : DeviceType_eqb a b = DeviceType_eqb b a.
Proof. destruct a, b; reflexivity. Qed.

(** X2.  [areSameDevice] holds of every device with itself and does not
    depend on the order of its arguments, but it is not transitive: a
    device that names no operating system is the same as a Windows
    machine and as a Linux machine, which are not the same. *)
Theorem areSameDevice_not_transitive :
  (forall d, areSameDevice d d = true) /\
  (forall d1 d2, areSameDevice d1 d2 = areSameDevice d2 d1) /\
  areSameDevice onWindows anonymous = true /\
  areSameDevice anonymous onLinux = true /\
  areSameDevice onWindows onLinux = false.
Proof.
  split; [|split; [|repeat split]].
  - intros d. unfold areSameDevice. rewrite !differ_refl.
    destruct (deviceType d) as [[]|]; reflexivity.
  - intros d1 d2. unfold areSameDevice.
    rewrite (differ_sym (os d1)), (differ_sym (browser d1)).
    destruct (deviceType d1), (deviceType d2); try reflexivity.
    now rewrite DeviceType_eqb_sym.
Qed.

(** X3.  The operating-system detection tests "Mac OS X" and "Linux"
    before "Android" and the iOS markers: a User-Agent that mentions
    Linux or Mac OS X is never reported as Android or iOS, whatever else
    it mentions. *)
Theorem android_and_ios_are_shadowed ua :
  includes ua "Linux" = true \/ includes ua "Mac OS X" = true ->
  os (parseDeviceInfo (Some ua)) <> Some "Android" /\
  os (parseDeviceInfo (Some ua)) <> Some "iOS".
Proof.
  intros H. unfold parseDeviceInfo.
  destruct (Js.truthy (Some ua)) eqn:Et; cbn [negb os];
    [|split; discriminate].
  assert (Js.orElse (Some ua) "" = ua) as ->.
  { cbn in *. destruct (String.eqb ua ""); [discriminate | reflexivity]. }
  unfold detectOS.
  destruct (includes ua "Windows NT 10.0"); [split; discriminate|].
  destruct (includes ua "Windows NT 6.3"); [split; discriminate|].
  destruct (includes ua "Windows NT 6.2"); [split; discriminate|].
  destruct (includes ua "Windows NT 6.1"); [split; discriminate|].
  destruct (includes ua "Mac OS X"); [split; discriminate|].
  destruct (includes ua "Linux"); [split; discriminate|].
  destruct H; discriminate.
Qed.

Lemma android_and_ios_are_shadowed_witness :
  let ua := "Mozilla/5.0 (Linux; Android 13; Pixel 7) Chrome/116.0.0.0 Mobile" in
  (includes ua "Linux" = true \/ includes ua "Mac OS X" = true) /\
  os (parseDeviceInfo (Some ua)) <> Some "Android" /\
  os (parseDeviceInfo (Some ua)) <> Some "iOS".
Proof.
  intros ua. split; [left; reflexivity|].
  apply (android_and_ios_are_shadowed ua). left; reflexivity.
Defined.

Lemma parsed_agent userAgent v (field : DeviceInfo -> option string) :
  field (parseDeviceInfo userAgent) = Some v ->
  field (mkDeviceInfo None None None None None (Some Unknown) None
                      (Some "Unknown Device")) = Some v \/
  exists ua, userAgent = Some ua /\
    parseDeviceInfo userAgent =
    mkDeviceInfo (fst (detectOS ua)) (snd (detectOS ua))
                 (fst (detectBrowser ua)) (snd (detectBrowser ua))
                 (detectDevice ua) (Some (detectDeviceType ua))
                 (detectPlatform ua) (Some ua).
Proof.
  unfold parseDeviceInfo.
  destruct userAgent as [ua|]; cbn [Js.truthy negb]; [|auto].
  destruct (String.eqb ua "") eqn:E; cbn [negb]; [auto|].
  intros _; right; exists ua; split; [reflexivity|].
  cbn [Js.orElse]. now rewrite E.
Qed.

(** X4.  A browser version reported by [parseDeviceInfo] is a major and
    a minor number, two non-empty runs of digits around one dot, and it
    is text of the User-Agent, where it follows a slash. *)
Theorem browser_version_is_major_minor userAgent v :
  browserVersion (parseDeviceInfo userAgent) = Some v ->
  majorMinor v /\
  exists ua, userAgent = Some ua /\ includes ua ("/" ++ v) = true.
Proof.
  intros H.
  destruct (parsed_agent userAgent v browserVersion H) as [Hn|(ua & -> & Hp)];
    [discriminate|].
  rewrite Hp in H; cbn [browserVersion] in H.
  assert (Hm : exists name,
             matchAfter (name ++ "/") [dot] ua = Some v).
  { unfold detectBrowser in H.
    destruct (includes ua "Edg/"); [now exists "Edg"|].
    destruct (_ && _); [now exists "Chrome"|].
    destruct (includes ua "Firefox/"); [now exists "Firefox"|].
    destruct (_ && _); [now exists "Version"|].
    destruct (includes ua "Electron"); [now exists "Electron"|].
    discriminate. }
  destruct Hm as [name Hm].
  destruct (matchAfter_found _ _ _ _ Hm) as (pre & post & d & Hua & Hd).
  split; [exact (digitGroups_dot _ _ Hd)|].
  exists ua; split; [reflexivity|].
  rewrite Hua.
  replace (pre ++ (name ++ "/") ++ v ++ post)
    with ((pre ++ name) ++ ("/" ++ v) ++ post)
    by (rewrite !append_assoc; reflexivity).
  apply includes_append.
Qed.

Lemma browser_version_is_major_minor_witness :
  let ua := "Mozilla/5.0 (Windows NT 10.0; Win64; x64) Chrome/131.0.0.0 Safari/537.36" in
  browserVersion (parseDeviceInfo (Some ua)) = Some "131.0" /\
  majorMinor "131.0" /\
  exists ua', Some ua = Some ua' /\ includes ua' ("/" ++ "131.0") = true.
Proof.
  intros ua. split; [reflexivity|].
  apply (browser_version_is_major_minor (Some ua) "131.0"). reflexivity.
Defined.

(** X5.  An operating-system version reported by [parseDeviceInfo]
    never contains an underscore: the macOS and iOS versions, written
    with underscores in the User-Agent, are reported with dots. *)
Theorem os_version_has_no_underscore userAgent v :
  osVersion (parseDeviceInfo userAgent) = Some v -> underscoreFree v.
Proof.
  intros H.
  destruct (parsed_agent userAgent v osVersion H) as [Hn|(ua & -> & Hp)];
    [discriminate|].
  rewrite Hp in H; cbn [osVersion] in H.
  unfold detectOS in H.
  destruct (includes ua "Windows NT 10.0"); [injection H as <-; reflexivity|].
  destruct (includes ua "Windows NT 6.3"); [injection H as <-; reflexivity|].
  destruct (includes ua "Windows NT 6.2"); [injection H as <-; reflexivity|].
  destruct (includes ua "Windows NT 6.1"); [injection H as <-; reflexivity|].
  destruct (includes ua "Mac OS X"); cbn [snd] in H.
  { destruct (matchAfter _ _ ua); [|discriminate].
    injection H as <-. apply underscoresToDots_free. }
  destruct (includes ua "Linux"); [discriminate|].
  destruct (includes ua "Android"); cbn [snd] in H.
  { destruct (matchAfter_found _ _ _ _ H) as (_ & _ & d & _ & Hd).
    exact (digitGroups_dot_free _ _ Hd). }
  destruct (_ || _); cbn [snd] in H; [|discriminate].
  destruct (matchAfter _ _ ua); [|discriminate].
  injection H as <-. apply underscoresToDots_free.
Qed.

Lemma os_version_has_no_underscore_witness :
  let ua := "Mozilla/5.0 (Macintosh; Intel Mac OS X 10_15_7) Version/17.1 Safari/605.1.15" in
  osVersion (parseDeviceInfo (Some ua)) = Some "10.15.7" /\
  underscoreFree "10.15.7".
Proof.
  intros ua. split; [reflexivity|].
  apply (os_version_has_no_underscore (Some ua) "10.15.7"). reflexivity.
Defined.

End DeviceFacts.

(* ================================================================== *)
(** * Token refresh *)
(* ================================================================== *)

Section RefreshOutcome.

Import Store AuthService.
Local Open Scope string_scope.

Lemma find_by_own_id i us (u : User.t) :
  find (fun u => String.eqb (User.id u) i) us = Some u ->
  find (fun u' => String.eqb (User.id u') (User.id u)) us = Some u.
Proof.
  intros H. destruct (find_some _ _ H) as [_ Hi].
  apply String.eqb_eq in Hi. now rewrite Hi.
Qed.

(** X6.  [refreshTokens] has two outcomes only.  Either it throws the
    401 "Invalid refresh token" and leaves the store as it was: the 403
    "User is not active" raised inside its [try] block, like a rejected
    query, is caught and replaced.  Or the token names an active user,
    the call returns the pair minted for that user, and the store
    differs only in that user's [currentSessionToken], now the new
    access token. *)
Theorem refreshTokens_outcome env refreshToken w :
  refreshTokens env refreshToken w
    = (w, inl (AppError "Invalid refresh token" 401)) \/
  exists payload user,
    verifyRefreshToken env refreshToken = Some payload /\
    find (fun u => String.eqb (User.id u) (sub payload)) (users w) = Some user /\
    User.status user = ACTIVE /\
    refreshTokens env refreshToken w =
      (set_users
         (updateWhere (fun u => String.eqb (User.id u) (User.id user))
            (setSessionToken
               (accessToken (issueTokens env (User.id user) (User.role user)))))
         w,
       inr (issueTokens env (User.id user) (User.role user))).
Proof.
  unfold refreshTokens, tryCatch.
  destruct (verifyRefreshToken env refreshToken) as [payload|] eqn:Ev;
    [|left; reflexivity].
  unfold bind, user_findUnique_id, user_update, prisma, throw, ret.
  destruct (fails env UserFindUnique); [left; reflexivity|].
  destruct (find (fun u => String.eqb (User.id u) (sub payload)) (users w))
    as [user|] eqn:Ef; [|left; reflexivity].
  destruct (UserStatus_eqb (User.status user) ACTIVE) eqn:Es; cbn [negb];
    [|left; reflexivity].
  destruct (fails env UserUpdate); [left; reflexivity|].
  rewrite (find_by_own_id _ _ _ Ef).
  right. exists payload, user. repeat split; auto.
  now apply UserStatus_eqb_eq.
Qed.

End RefreshOutcome.

(* ================================================================== *)
(** * Session maintenance *)
(* ================================================================== *)

Section SessionMaintenanceFacts.

Import Store JsDate Prisma SessionActivityService SessionMaintenance AuthClaims.
Import Fixtures.
Local Open Scope string_scope.

Lemma filter_map_same {A} (p : A -> bool) (f : A -> A) l :
  (forall x, In x l -> p (f x) = p x /\ (p x = true -> f x = x)) ->
  filter p (map f l) = filter p l.
Proof.
  induction l as [|x l IH]; intros H; cbn; [reflexivity|].
  destruct (H x (or_introl eq_refl)) as [H1 H2].
  rewrite H1. destruct (p x) eqn:E.
  - rewrite (H2 eq_refl), IH; auto. intros; apply H; now right.
  - apply IH. intros; apply H; now right.
Qed.

Lemma filter_map_none {A} (p : A -> bool) (f : A -> A) l :
  (forall x, In x l -> p (f x) = false) -> filter p (map f l) = [].
Proof.
  induction l as [|x l IH]; intros H; cbn; [reflexivity|].
  rewrite (H x (or_introl eq_refl)). apply IH. intros; apply H; now right.
Qed.

Lemma updateWhere_untouched {R} (where_ : R -> bool) data rows :
  (forall r, In r rows -> where_ r = false) -> updateWhere where_ data rows = rows.
Proof.
  unfold updateWhere. induction rows as [|r rows IH]; intros H; cbn; [reflexivity|].
  rewrite (H r (or_introl eq_refl)), IH; auto. intros; apply H; now right.
Qed.

Lemma activeSessionsOf_touch at_ token userId rows :
  filter (fun s => String.eqb (SessionActivity.userId s) userId
                   && SessionActivity.isActive s)
    (updateWhere
       (fun s => String.eqb (SessionActivity.sessionToken s) token
                 && SessionActivity.isActive s) (touch at_) rows)
  = map (fun s => if String.eqb (SessionActivity.sessionToken s) token
                  then touch at_ s else s)
      (filter (fun s => String.eqb (SessionActivity.userId s) userId
                        && SessionActivity.isActive s) rows).
Proof.
  unfold updateWhere. induction rows as [|r rows IH]; cbn; [reflexivity|].
  destruct (String.eqb (SessionActivity.sessionToken r) token) eqn:Et;
    destruct (SessionActivity.isActive r) eqn:Ea; cbn [andb];
    cbn [touch SessionActivity.userId SessionActivity.isActive];
    rewrite ?Ea; destruct (String.eqb (SessionActivity.userId r) userId);
    cbn [andb map]; rewrite ?Et, IH; reflexivity.
Qed.

(** X7.  [updateSessionActivity] never throws, whatever the database
    answers, and never opens or closes a session: the users are as
    before, every session row is as before or differs in its
    [lastActivityAt] only, and every user has the same active session
    tokens as before. *)
Theorem updateSessionActivity_never_throws env sessionToken w :
  exists w',
    updateSessionActivity env sessionToken w = (w', inr tt) /\
    users w' = users w /\
    Forall2 (fun s s' => s' = s \/ s' = touch (now env) s)
            (sessionActivities w) (sessionActivities w') /\
    forall userId,
      map SessionActivity.sessionToken (activeSessionsOf userId w')
      = map SessionActivity.sessionToken (activeSessionsOf userId w).
Proof.
  unfold updateSessionActivity, tryCatch, bind, sessionActivity_updateMany,
    prisma, ret.
  destruct (fails env SessionActivityUpdateMany).
  - exists w. repeat split; auto.
    induction (sessionActivities w); constructor; auto.
  - eexists; split; [reflexivity|]. split; [reflexivity|]. split.
    + cbn [sessionActivities set_sessionActivities].
      eapply Forall2_impl; [|apply Forall2_updateWhere].
      intros s s' ->. destruct (_ && _); auto.
    + intros userId. unfold activeSessionsOf.
      cbn [sessionActivities set_sessionActivities].
      rewrite activeSessionsOf_touch, map_map.
      apply map_ext. intros s. now destruct (String.eqb _ sessionToken).
Qed.

Lemma find_present {A} (p : A -> bool) l x :
  In x l -> p x = true -> exists y, find p l = Some y.
Proof.
  intros Hin Hp. destruct (find p l) eqn:E; [eauto|].
  rewrite (find_none _ _ E _ Hin) in Hp. discriminate.
Qed.

Lemma find_absent {A} (p : A -> bool) l :
  (forall x, In x l -> p x = false) -> find p l = None.
Proof.
  intros H. destruct (find p l) eqn:E; [|reflexivity].
  destruct (find_some _ _ E) as [Hin Hp]. rewrite (H _ Hin) in Hp. discriminate.
Qed.

Lemma token_closed_after token at_ reason rows r :
  In r (updateWhere
          (fun s => String.eqb (SessionActivity.sessionToken s) token
                    && SessionActivity.isActive s)
          (markInactive at_ reason) rows) ->
  String.eqb (SessionActivity.sessionToken r) token
  && SessionActivity.isActive r = false.
Proof.
  intros H. apply In_updateWhere in H as (r0 & _ & ->).
  destruct (String.eqb (SessionActivity.sessionToken r0) token
            && SessionActivity.isActive r0) eqn:E; [|exact E].
  cbn. apply andb_false_r.
Qed.

(** X8.  A session is valid from its creation to its invalidation: once
    [createSession] has returned, [isSessionValid] answers true for its
    token; [invalidateSession] then reports that it closed something,
    after which [isSessionValid] answers false and a second
    [invalidateSession] reports that nothing was left to close and
    changes no row. *)
Theorem session_validity_round_trip env rejects params reason w :
  faultFree env -> answers rejects ->
  let token := SessionActivityService.sessionToken params in
  exists w1 row w2,
    createSession env params w = (w1, inr row) /\
    isSessionValid rejects token w1 = (w1, inr true) /\
    invalidateSession env token reason w1 = (w2, inr true) /\
    isSessionValid rejects token w2 = (w2, inr false) /\
    invalidateSession env token reason w2 = (w2, inr false).
Proof.
  intros Hff Hans token.
  (* creation *)
  destruct (getLocationFromIP_run env
              (SessionActivityService.ipAddress params) w)
    as (reqs & loc & Hloc).
  assert (Hcreate : exists w1 row,
    createSession env params w = (w1, inr row) /\
    In row (sessionActivities w1) /\
    SessionActivity.sessionToken row = token /\
    SessionActivity.isActive row = true).
  { unfold createSession, bind, prisma, freshId, modify, ret.
    rewrite Hff.
    destruct (Js.truthy (SessionActivityService.ipAddress params));
      [rewrite Hloc|]; (do 2 eexists; split; [reflexivity|]);
      cbn [sessionActivities set_sessionActivities bump_nextId];
      (split; [apply in_or_app; right; left; reflexivity | split; reflexivity]). }
  destruct Hcreate as (w1 & row & Hc & Hin & Htok & Hact).
  set (sel := fun s => String.eqb (SessionActivity.sessionToken s) token
                       && SessionActivity.isActive s).
  assert (Hsel : sel row = true).
  { unfold sel. rewrite Htok, String.eqb_refl, Hact. reflexivity. }
  set (w2 := set_sessionActivities
               (updateWhere sel (markInactive (now env) reason)) w1).
  exists w1, row, w2. split; [exact Hc|].
  split.
  { unfold isSessionValid, bind, sessionActivity_findFirst, prismaAdmin, ret.
    rewrite Hans. fold sel.
    destruct (find_present sel _ _ Hin Hsel) as [y ->]. reflexivity. }
  split.
  { unfold invalidateSession, bind, sessionActivity_updateMany, prisma, ret.
    rewrite Hff. fold sel. fold w2. do 2 f_equal.
    destruct (filter sel (sessionActivities w1)) eqn:E; [|reflexivity].
    assert (In row (filter sel (sessionActivities w1)))
      by (apply filter_In; auto).
    rewrite E in H. destruct H. }
  assert (Hclosed : forall r, In r (sessionActivities w2) -> sel r = false).
  { intros r Hr. exact (token_closed_after _ _ _ _ _ Hr). }
  split.
  { unfold isSessionValid, bind, sessionActivity_findFirst, prismaAdmin, ret.
    rewrite Hans. fold sel. now rewrite (find_absent sel _ Hclosed). }
  unfold invalidateSession, bind, sessionActivity_updateMany, prisma, ret.
  rewrite Hff. fold sel.
  rewrite (filter_nil sel _ Hclosed).
  unfold set_sessionActivities at 1.
  rewrite (updateWhere_untouched sel _ _ Hclosed).
  destruct w2; reflexivity.
Qed.

Lemma session_validity_round_trip_witness :
  faultFree quietEnv /\ answers (fun _ => false) /\
  let params := SessionActivityService.mkParams "u1" "T9" None None None None in
  let token := SessionActivityService.sessionToken params in
  exists w1 row w2,
    createSession quietEnv params aliceOnline = (w1, inr row) /\
    isSessionValid (fun _ => false) token w1 = (w1, inr true) /\
    invalidateSession quietEnv token "manual" w1 = (w2, inr true) /\
    isSessionValid (fun _ => false) token w2 = (w2, inr false) /\
    invalidateSession quietEnv token "manual" w2 = (w2, inr false).
Proof.
  split; [exact quietEnv_faultFree|]. split; [intros q; reflexivity|].
  exact (session_validity_round_trip quietEnv (fun _ => false)
           (SessionActivityService.mkParams "u1" "T9" None None None None)
           "manual" aliceOnline quietEnv_faultFree (fun q => eq_refl)).
Defined.

(** X9.  Logging a user out of all sessions, as the session controller
    does it, reports the number of sessions that were active, leaves the
    user none and the other users theirs, and does not touch the user
    table: unlike [forceLogout], it leaves [currentSessionToken] as it
    was. *)
Theorem logoutAllUserSessions_effect env userId w :
  faultFree env ->
  exists w',
    logoutAllUserSessions env userId w
      = (w', inr (List.length (activeSessionsOf userId w))) /\
    activeSessionsOf userId w' = [] /\
    (forall other, other <> userId ->
       activeSessionsOf other w' = activeSessionsOf other w) /\
    users w' = users w.
Proof.
  intros Hff.
  unfold logoutAllUserSessions, invalidateAllUserSessions,
    sessionActivity_updateMany, prisma.
  rewrite Hff. eexists; split; [reflexivity|].
  unfold activeSessionsOf, updateWhere.
  cbn [sessionActivities set_sessionActivities users set_users].
  split; [|split; [|reflexivity]].
  - apply filter_map_none. intros r _.
    destruct (String.eqb (SessionActivity.userId r) userId
              && SessionActivity.isActive r) eqn:E; [|exact E].
    cbn. apply andb_false_r.
  - intros other Hneq. apply filter_map_same. intros r _.
    destruct (String.eqb (SessionActivity.userId r) userId) eqn:Eu;
      cbn [andb].
    + apply String.eqb_eq in Eu.
      assert (String.eqb (SessionActivity.userId r) other = false) as Ho.
      { apply String.eqb_neq. congruence. }
      destruct (SessionActivity.isActive r); cbn; rewrite Ho; split;
        auto; discriminate.
    + split; auto.
Qed.

Lemma logoutAllUserSessions_effect_witness :
  faultFree quietEnv /\
  exists w',
    logoutAllUserSessions quietEnv "u1" aliceOnline
      = (w', inr (List.length (activeSessionsOf "u1" aliceOnline))) /\
    activeSessionsOf "u1" w' = [] /\
    (forall other, other <> "u1" ->
       activeSessionsOf other w' = activeSessionsOf other aliceOnline) /\
    users w' = users aliceOnline.
Proof.
  split; [exact quietEnv_faultFree|].
  exact (logoutAllUserSessions_effect quietEnv "u1" aliceOnline
           quietEnv_faultFree).
Defined.

Lemma setDate_back t n : setDate t (getDate t - n) = t - n * msPerDay.
Proof.
  pose proof (MakeDay_fields t) as Hday.
  unfold setDate, getDate.
  replace (DateFromTime t - n) with (DateFromTime t + - n) by lia.
  rewrite MakeDay_date_shift, Hday.
  rewrite <- (MakeDate_Day t) at 3. unfold MakeDate. lia.
Qed.

(** X10.  [cleanupOldSessions (daysOld)] deletes the closed sessions
    whose [logoutAt] is more than [daysOld] days of 24 hours before the
    call, and reports their number.  It never deletes an active session,
    a session with no [logoutAt], or one closed at or after that
    instant, and it does not touch the user table. *)
Theorem cleanupOldSessions_effect env rejects daysOld w :
  answers rejects ->
  let cutoff := now env - daysOld * msPerDay in
  exists w',
    cleanupOldSessions env rejects daysOld w
      = (w', inr (List.length (filter (oldSession cutoff) (sessionActivities w)))) /\
    sessionActivities w'
      = filter (fun s => negb (oldSession cutoff s)) (sessionActivities w) /\
    (forall s, In s (sessionActivities w) ->
       SessionActivity.isActive s = true \/
       SessionActivity.logoutAt s = None \/
       (exists t, SessionActivity.logoutAt s = Some t /\ cutoff <= t) ->
       In s (sessionActivities w')) /\
    (forall userId, activeSessionsOf userId w' = activeSessionsOf userId w) /\
    users w' = users w.
Proof.
  intros Hans cutoff.
  unfold cleanupOldSessions, sessionActivity_deleteMany, prismaAdmin.
  rewrite Hans, setDate_back. fold cutoff.
  eexists; split; [reflexivity|].
  cbn [sessionActivities set_sessionActivities users].
  split; [reflexivity|]. split; [|split; [|reflexivity]].
  - intros s Hin Hkeep. apply filter_In. split; [exact Hin|].
    unfold oldSession, BillingService.dateLt.
    destruct Hkeep as [Ha | [Hn | (t & Ht & Hle)]].
    + now rewrite Ha.
    + rewrite Hn. now rewrite andb_false_r.
    + rewrite Ht. replace (t <? cutoff)%Z with false
        by (symmetry; apply Z.ltb_ge; exact Hle).
      now rewrite andb_false_r.
  - intros userId. unfold activeSessionsOf.
    cbn [sessionActivities set_sessionActivities].
    induction (sessionActivities w) as [|r rows IH]; cbn; [reflexivity|].
    unfold oldSession at 1.
    destruct (SessionActivity.isActive r) eqn:Ea; cbn [negb andb].
    + cbn [filter]. rewrite Ea, IH. reflexivity.
    + rewrite andb_false_r.
      destruct (negb _); cbn [filter]; rewrite ?Ea, ?andb_false_r; exact IH.
Qed.

Lemma cleanupOldSessions_effect_witness :
  answers (fun _ => false) /\
  let cutoff := now (envAt 6000) - 30 * msPerDay in
  exists w',
    cleanupOldSessions (envAt 6000) (fun _ => false) 30 aliceOnline
      = (w', inr (List.length
                    (filter (oldSession cutoff) (sessionActivities aliceOnline)))) /\
    sessionActivities w'
      = filter (fun s => negb (oldSession cutoff s)) (sessionActivities aliceOnline) /\
    (forall s, In s (sessionActivities aliceOnline) ->
       SessionActivity.isActive s = true \/
       SessionActivity.logoutAt s = None \/
       (exists t, SessionActivity.logoutAt s = Some t /\ cutoff <= t) ->
       In s (sessionActivities w')) /\
    (forall userId,
       activeSessionsOf userId w' = activeSessionsOf userId aliceOnline) /\
    users w' = users aliceOnline.
Proof.
  split; [intros q; reflexivity|].
  exact (cleanupOldSessions_effect (envAt 6000) (fun _ => false) 30 aliceOnline
           (fun q => eq_refl)).
Defined.

End SessionMaintenanceFacts.

(* ================================================================== *)
(** * Security alerts in the admin panel *)
(* ================================================================== *)

Section AlertFacts.

Import Store JsDate Prisma SecurityAlertAdmin.
Import Fixtures.
Local Open Scope string_scope.

Lemma filter_length_le_sub {A} (p q : A -> bool) l :
  (forall x, p x = true -> q x = true) ->
  (List.length (filter p l) <= List.length (filter q l))%nat.
Proof.
  intros Hpq. induction l as [|x l IH]; cbn; [lia|].
  destruct (p x) eqn:Ep.
  - rewrite (Hpq _ Ep). cbn. lia.
  - destruct (q x); cbn; lia.
Qed.

Lemma filter_filter_sub {A} (p q : A -> bool) l :
  (forall x, p x = true -> q x = true) -> filter p (filter q l) = filter p l.
Proof.
  intros Hpq. induction l as [|x l IH]; cbn; [reflexivity|].
  destruct (p x) eqn:Ep.
  - rewrite (Hpq _ Ep). cbn. now rewrite Ep, IH.
  - destruct (q x); cbn; rewrite ?Ep; exact IH.
Qed.

(** X11.  [markAllAlertsAsRead] reports the number of alerts that were
    unread, dismissed ones included, so at least the number that
    [getUnreadAlertCount] showed; afterwards [getUnreadAlertCount]
    answers 0 and a second [markAllAlertsAsRead] reports 0 and changes
    nothing.  No alert is dismissed or restored by it. *)
Theorem markAllAlertsAsRead_clears_unread rejects w :
  answers rejects ->
  exists w' shown,
    getUnreadAlertCount rejects w = (w, inr shown) /\
    markAllAlertsAsRead rejects w
      = (w', inr (List.length
                    (filter (fun a => negb (SecurityAlert.isRead a))
                            (securityAlerts w)))) /\
    (shown <= List.length
                (filter (fun a => negb (SecurityAlert.isRead a))
                        (securityAlerts w)))%nat /\
    getUnreadAlertCount rejects w' = (w', inr O) /\
    markAllAlertsAsRead rejects w' = (w', inr O) /\
    map SecurityAlert.isDismissed (securityAlerts w')
      = map SecurityAlert.isDismissed (securityAlerts w).
Proof.
  intros Hans.
  unfold getUnreadAlertCount, markAllAlertsAsRead, securityAlert_count,
    securityAlert_updateMany, prismaAdmin.
  rewrite !Hans.
  set (w' := set_securityAlerts
               (updateWhere (fun a => negb (SecurityAlert.isRead a)) setRead) w).
  exists w', (List.length (filter pending (securityAlerts w))).
  assert (Hread : forall a, In a (securityAlerts w') ->
                            SecurityAlert.isRead a = true).
  { intros a Ha. apply In_updateWhere in Ha as (a0 & _ & ->).
    destruct (SecurityAlert.isRead a0) eqn:E; cbn; [exact E | reflexivity]. }
  split; [reflexivity|]. split; [reflexivity|]. split.
  { apply filter_length_le_sub. intros a Ha. unfold pending in Ha.
    now apply andb_true_iff in Ha as [-> _]. }
  split.
  { rewrite ?Hans. rewrite (filter_nil pending); [reflexivity|].
    intros a Ha. unfold pending. now rewrite (Hread a Ha). }
  split.
  { rewrite ?Hans.
    rewrite (filter_nil (fun a => negb (SecurityAlert.isRead a)));
      [|intros a Ha; now rewrite (Hread a Ha)].
    unfold set_securityAlerts at 1.
    rewrite updateWhere_untouched
      by (intros a Ha; now rewrite (Hread a Ha)).
    destruct w'; reflexivity. }
  subst w'. cbn [securityAlerts set_securityAlerts]. unfold updateWhere.
  rewrite map_map. apply map_ext. intros a.
  now destruct (negb (SecurityAlert.isRead a)).
Qed.

Lemma markAllAlertsAsRead_clears_unread_witness :
  answers (fun _ => false) /\
  exists w' shown,
    getUnreadAlertCount (fun _ => false) AlertFixtures.alertDesk = (AlertFixtures.alertDesk, inr shown) /\
    markAllAlertsAsRead (fun _ => false) AlertFixtures.alertDesk
      = (w', inr (List.length
                    (filter (fun a => negb (SecurityAlert.isRead a))
                            (securityAlerts AlertFixtures.alertDesk)))) /\
    (shown <= List.length
                (filter (fun a => negb (SecurityAlert.isRead a))
                        (securityAlerts AlertFixtures.alertDesk)))%nat /\
    getUnreadAlertCount (fun _ => false) w' = (w', inr O) /\
    markAllAlertsAsRead (fun _ => false) w' = (w', inr O) /\
    map SecurityAlert.isDismissed (securityAlerts w')
      = map SecurityAlert.isDismissed (securityAlerts AlertFixtures.alertDesk).
Proof.
  split; [intros q; reflexivity|].
  exact (markAllAlertsAsRead_clears_unread (fun _ => false) AlertFixtures.alertDesk
           (fun q => eq_refl)).
Defined.

(** X12.  Dismissing an alert takes it out of the unread count without
    marking it read: [dismissAlert] of an existing alert returns it
    dismissed, leaves every [isRead] flag as it was, and afterwards
    [getUnreadAlertCount] counts the alerts that were pending and have
    another id.  For an id that no alert has, [dismissAlert] throws and
    changes nothing. *)
Theorem dismissAlert_effect rejects alertId w :
  answers rejects ->
  match find (fun a => String.eqb (SecurityAlert.id a) alertId)
             (securityAlerts w) with
  | Some alert =>
      exists w',
        dismissAlert rejects alertId w = (w', inr (setDismissed alert)) /\
        map SecurityAlert.isRead (securityAlerts w')
          = map SecurityAlert.isRead (securityAlerts w) /\
        getUnreadAlertCount rejects w'
          = (w', inr (List.length
                        (filter (fun a => pending a
                                          && negb (String.eqb (SecurityAlert.id a)
                                                              alertId))
                                (securityAlerts w))))
  | None => dismissAlert rejects alertId w = (w, inl recordNotFound)
  end.
Proof.
  intros Hans.
  unfold dismissAlert, getUnreadAlertCount, securityAlert_update,
    securityAlert_count, prismaAdmin.
  rewrite Hans.
  destruct (find _ (securityAlerts w)) as [alert|]; [|reflexivity].
  eexists; split; [reflexivity|].
  rewrite ?Hans. cbn [securityAlerts set_securityAlerts]. unfold updateWhere.
  split.
  - rewrite map_map. apply map_ext. intros a.
    now destruct (String.eqb (SecurityAlert.id a) alertId).
  - do 2 f_equal.
    induction (securityAlerts w) as [|a l IH]; cbn; [reflexivity|].
    destruct (String.eqb (SecurityAlert.id a) alertId) eqn:E.
    + unfold pending at 1. cbn. rewrite !andb_false_r. exact IH.
    + rewrite andb_true_r. destruct (pending a); cbn; now rewrite IH.
Qed.

Lemma dismissAlert_effect_witness :
  answers (fun _ => false) /\
  exists w',
    dismissAlert (fun _ => false) "a1" AlertFixtures.alertDesk
      = (w', inr (setDismissed AlertFixtures.a1)) /\
    map SecurityAlert.isRead (securityAlerts w')
      = map SecurityAlert.isRead (securityAlerts AlertFixtures.alertDesk) /\
    getUnreadAlertCount (fun _ => false) w'
      = (w', inr (List.length
                    (filter (fun a => pending a
                                      && negb (String.eqb (SecurityAlert.id a) "a1"))
                            (securityAlerts AlertFixtures.alertDesk)))).
Proof.
  split; [intros q; reflexivity|].
  exact (dismissAlert_effect (fun _ => false) "a1" AlertFixtures.alertDesk
           (fun q => eq_refl)).
Defined.

(** X13.  [cleanupOldAlerts (daysOld)] deletes the dismissed alerts
    created more than [daysOld] days of 24 hours before the call and
    reports their number; an alert that is not dismissed is never
    deleted, so the unread count is as before. *)
Theorem cleanupOldAlerts_effect env rejects daysOld w :
  answers rejects ->
  let cutoff := now env - daysOld * msPerDay in
  exists w' shown,
    cleanupOldAlerts env rejects daysOld w
      = (w', inr (List.length (filter (oldAlert cutoff) (securityAlerts w)))) /\
    securityAlerts w'
      = filter (fun a => negb (oldAlert cutoff a)) (securityAlerts w) /\
    (forall a, In a (securityAlerts w) ->
       SecurityAlert.isDismissed a = false \/ cutoff <= SecurityAlert.createdAt a ->
       In a (securityAlerts w')) /\
    getUnreadAlertCount rejects w = (w, inr shown) /\
    getUnreadAlertCount rejects w' = (w', inr shown).
Proof.
  intros Hans cutoff.
  unfold cleanupOldAlerts, securityAlert_deleteMany, getUnreadAlertCount,
    securityAlert_count, prismaAdmin.
  rewrite !Hans, setDate_back. fold cutoff.
  do 2 eexists; split; [reflexivity|].
  cbn [securityAlerts set_securityAlerts].
  split; [reflexivity|]. split; [|split; [reflexivity|]].
  - intros a Hin Hkeep. apply filter_In. split; [exact Hin|].
    unfold oldAlert. destruct Hkeep as [-> | Hle]; [reflexivity|].
    replace (SecurityAlert.createdAt a <? cutoff)%Z with false
      by (symmetry; apply Z.ltb_ge; exact Hle).
    now rewrite andb_false_r.
  - rewrite ?Hans. do 3 f_equal.
    apply filter_filter_sub. intros a Ha. unfold pending in Ha.
    apply andb_true_iff in Ha as [_ Ha]. unfold oldAlert.
    now destruct (SecurityAlert.isDismissed a).
Qed.

Lemma cleanupOldAlerts_effect_witness :
  answers (fun _ => false) /\
  let cutoff := now AlertFixtures.deskEnv - 90 * msPerDay in
  exists w' shown,
    cleanupOldAlerts AlertFixtures.deskEnv (fun _ => false) 90 AlertFixtures.alertDesk
      = (w', inr (List.length (filter (oldAlert cutoff) (securityAlerts AlertFixtures.alertDesk)))) /\
    securityAlerts w'
      = filter (fun a => negb (oldAlert cutoff a)) (securityAlerts AlertFixtures.alertDesk) /\
    (forall a, In a (securityAlerts AlertFixtures.alertDesk) ->
       SecurityAlert.isDismissed a = false \/ cutoff <= SecurityAlert.createdAt a ->
       In a (securityAlerts w')) /\
    getUnreadAlertCount (fun _ => false) AlertFixtures.alertDesk = (AlertFixtures.alertDesk, inr shown) /\
    getUnreadAlertCount (fun _ => false) w' = (w', inr shown).
Proof.
  split; [intros q; reflexivity|].
  exact (cleanupOldAlerts_effect AlertFixtures.deskEnv (fun _ => false) 90 AlertFixtures.alertDesk
           (fun q => eq_refl)).
Defined.

Lemma list_sum_map_add {A} (f g : A -> nat) l :
  list_sum (map (fun x => f x + g x)%nat l)
  = (list_sum (map f l) + list_sum (map g l))%nat.
Proof.
  unfold list_sum. induction l as [|x l IH]; cbn [map fold_right]; lia.
Qed.

Lemma list_sum_nonzero {K} (f : K -> nat) keys :
  list_sum (map snd (filter (fun entry => negb (Nat.eqb (snd entry) 0))
                            (map (fun k => (k, f k)) keys)))
  = list_sum (map f keys).
Proof.
  unfold list_sum.
  induction keys as [|k keys IH]; cbn [map filter snd fold_right];
    [reflexivity|].
  destruct (Nat.eqb (f k) 0) eqn:E; cbn [negb map fold_right snd]; rewrite IH.
  - apply Nat.eqb_eq in E. lia.
  - reflexivity.
Qed.

Lemma countBy_sum {K} (keys : list K) (eqb : K -> K -> bool)
  (key : SecurityAlert.t -> K) rows :
  (forall a, list_sum (map (fun k => if eqb (key a) k then 1 else 0)%nat keys) = 1%nat) ->
  list_sum (map snd (countBy keys eqb key rows)) = List.length rows.
Proof.
  intros Hone. unfold countBy. rewrite list_sum_nonzero.
  induction rows as [|a rows IH].
  - cbn [filter List.length]. clear Hone.
    unfold list_sum. induction keys; cbn [map fold_right]; auto.
  - rewrite (map_ext _
      (fun k => ((if eqb (key a) k then 1 else 0)
                 + List.length (filter (fun a => eqb (key a) k) rows))%nat)).
    + rewrite list_sum_map_add, Hone, IH. reflexivity.
    + intros k. cbn [filter]. destruct (eqb (key a) k); reflexivity.
Qed.

(** X14.  The statistics of the admin panel agree with its unread
    count: the numbers of [bySeverity] add up to the number that
    [getUnreadAlertCount] reports, and so do those of [byType]; that
    number is at most [unread], which also counts dismissed alerts, and
    [unread] and [today] are at most [total], the number of alerts.
    The call changes nothing. *)
Theorem getAlertStats_consistent env rejects w :
  answers rejects ->
  exists stats,
    getAlertStats env rejects w = (w, inr stats) /\
    getUnreadAlertCount rejects w
      = (w, inr (list_sum (map snd (bySeverity stats)))) /\
    list_sum (map snd (byType stats)) = list_sum (map snd (bySeverity stats)) /\
    (list_sum (map snd (bySeverity stats)) <= unread stats)%nat /\
    (unread stats <= total stats)%nat /\
    (today stats <= total stats)%nat /\
    total stats = List.length (securityAlerts w).
Proof.
  intros Hans.
  unfold getAlertStats, getUnreadAlertCount, securityAlert_count, bind,
    prismaAdmin, ret.
  rewrite !Hans.
  eexists; split; [reflexivity|].
  cbn [bySeverity byType unread total today].
  assert (Hsev : forall rows,
             list_sum (map snd (countBy severities SecurityAlertSeverity_eqb
                                  SecurityAlert.severity rows))
             = List.length rows).
  { intros rows. apply countBy_sum. intros a.
    destruct (SecurityAlert.severity a); reflexivity. }
  assert (Hty : forall rows,
             list_sum (map snd (countBy alertTypes SecurityAlertType_eqb
                                  SecurityAlert.alertType rows))
             = List.length rows).
  { intros rows. apply countBy_sum. intros a.
    destruct (SecurityAlert.alertType a); reflexivity. }
  rewrite Hsev, Hty.
  split; [reflexivity|]. split; [reflexivity|].
  assert (Hall : filter (fun _ : SecurityAlert.t => true) (securityAlerts w)
                 = securityAlerts w).
  { induction (securityAlerts w); cbn; congruence. }
  rewrite Hall.
  split.
  { apply filter_length_le_sub. intros a Ha. unfold pending in Ha.
    now apply andb_true_iff in Ha as [-> _]. }
  split; [apply filter_length_le|]. split; [apply filter_length_le | reflexivity].
Qed.

Lemma getAlertStats_consistent_witness :
  answers (fun _ => false) /\
  exists stats,
    getAlertStats AlertFixtures.deskEnv (fun _ => false) AlertFixtures.alertDesk
      = (AlertFixtures.alertDesk, inr stats) /\
    getUnreadAlertCount (fun _ => false) AlertFixtures.alertDesk
      = (AlertFixtures.alertDesk, inr (list_sum (map snd (bySeverity stats)))) /\
    list_sum (map snd (byType stats)) = list_sum (map snd (bySeverity stats)) /\
    (list_sum (map snd (bySeverity stats)) <= unread stats)%nat /\
    (unread stats <= total stats)%nat /\
    (today stats <= total stats)%nat /\
    total stats = List.length (securityAlerts AlertFixtures.alertDesk).
Proof.
  split; [intros q; reflexivity|].
  exact (getAlertStats_consistent AlertFixtures.deskEnv (fun _ => false) AlertFixtures.alertDesk
           (fun q => eq_refl)).
Defined.

End AlertFacts.

(* ================================================================== *)
(** * Billing: plans, payments and reports *)
(* ================================================================== *)

Section BillingFacts.

Import Store JsDate Prisma BillingService BillingReports BillingClaims.
Import Fixtures.
Local Open Scope string_scope.

Lemma find_updated i data us (u : User.t) :
  (forall u, User.id (data u) = User.id u) ->
  find (fun u => String.eqb (User.id u) i) us = Some u ->
  find (fun u => String.eqb (User.id u) i)
       (updateWhere (fun u => String.eqb (User.id u) i) data us)
  = Some (data u).
Proof.
  intros Hid Hf. unfold updateWhere.
  rewrite find_map_preserving.
  - rewrite Hf. cbn. destruct (find_some _ _ Hf) as [_ ->]. reflexivity.
  - intros u0. destruct (String.eqb (User.id u0) i) eqn:E; [|exact E].
    now rewrite Hid.
Qed.

Lemma stackedStart_eq now_ user :
  match User.billingCycleEndDate user with
  | Some e => if (now_ <? e)%Z then e else now_
  | None => now_
  end = stackedStart now_ user.
Proof.
  unfold stackedStart. destruct (User.billingCycleEndDate user) as [e|].
  - destruct (Z.ltb_spec now_ e); lia.
  - lia.
Qed.

(** What a payment leaves in the store when every query is answered. *)
Lemma addPayment_run env userId cycle amount memo adminId w user :
  faultFree env ->
  find (fun u => String.eqb (User.id u) userId) (users w) = Some user ->
  let cycleStart := stackedStart (now env) user in
  let cycleEnd := calculateCycleEndDate cycleStart cycle in
  let data := addPaymentData cycle cycleStart cycleEnd (now env) in
  exists w' payment row,
    addPayment env userId cycle amount memo adminId w
      = (w', inr (payment, data user)) /\
    payments w' = (payments w ++ [payment])%list /\
    Payment.userId payment = userId /\
    Payment.cycleEndDate payment = cycleEnd /\
    users w' = updateWhere (fun u => String.eqb (User.id u) userId) data (users w) /\
    billingHistories w' = (billingHistories w ++ [row])%list /\
    BillingHistory.userId row = userId /\
    BillingHistory.action row = "PAYMENT_ADDED" /\
    In ("paymentId", Js.JString (Payment.id payment)) (BillingHistory.details row).
Proof.
  intros Hff Hfind cycleStart cycleEnd data.
  unfold addPayment, user_findUnique_id, user_update, billingHistory_create,
    freshId, modify, ret, bind.
  rewrite prisma_ok by apply Hff. rewrite Hfind. cbn beta iota.
  rewrite stackedStart_eq. fold cycleStart cycleEnd data.
  rewrite prisma_ok by apply Hff. cbn beta iota.
  rewrite prisma_ok by apply Hff.
  cbn [users set_payments bump_nextId]. rewrite Hfind.
  rewrite prisma_ok by apply Hff. cbn beta iota.
  do 3 eexists. split; [reflexivity|].
  cbn [payments users billingHistories set_payments set_users
       set_billingHistories bump_nextId Payment.userId Payment.cycleEndDate
       BillingHistory.userId BillingHistory.action BillingHistory.details
       Payment.id].
  repeat split; try reflexivity. left; reflexivity.
Qed.

Lemma ceilDiv_span a m :
  m * msPerDay <= a -> m <= Js.ceilDiv a (1000 * 60 * 60 * 24).
Proof.
  unfold Js.ceilDiv, msPerDay. intros H.
  change (1000 * 60 * 60 * 24) with 86400000.
  Z.div_mod_to_equations. lia.
Qed.

Lemma status_of_running_cycle envQ user ps e :
  User.isTrialActive user = false ->
  User.isBillingActive user = true ->
  User.billingCycleEndDate user = Some e ->
  isExpired (billingStatusOf envQ user ps) = (e <? now envQ)%Z /\
  daysRemaining (billingStatusOf envQ user ps)
    = if (e <? now envQ)%Z then None
      else Some (Js.ceilDiv (e - now envQ) msPerDay).
Proof.
  intros Ht Hb He. unfold billingStatusOf. rewrite Ht, Hb, He.
  unfold getTime. change (1000 * 60 * 60 * 24) with msPerDay.
  destruct (User.trialEndDate user); destruct (e <? now envQ)%Z; split; reflexivity.
Qed.

Lemma getUserBillingStatus_run envQ userId w user :
  faultFree envQ ->
  find (fun u => String.eqb (User.id u) userId) (users w) = Some user ->
  exists ps,
    getUserBillingStatus envQ userId w = (w, inr (billingStatusOf envQ user ps)).
Proof.
  intros Hff Hfind.
  unfold getUserBillingStatus, user_findUnique_id, bind, get, ret.
  rewrite prisma_ok by apply Hff. rewrite Hfind. eexists; reflexivity.
Qed.

(** X15.  After [addPayment], [getUserBillingStatus] reads the new
    cycle: the account is reported expired exactly when the end of the
    paid cycle is before the instant of the question, and otherwise with
    the days that remain, rounded up.  Asked at the instant of the
    payment or before, it is never expired and has at least the shortest
    length of the cycle left, a day at the least. *)
Theorem billing_status_after_payment
  env envQ userId cycle amount memo adminId w user :
  faultFree env -> faultFree envQ ->
  find (fun u => String.eqb (User.id u) userId) (users w) = Some user ->
  let cycleEnd := calculateCycleEndDate (stackedStart (now env) user) cycle in
  exists w' paid status,
    addPayment env userId cycle amount memo adminId w = (w', inr paid) /\
    getUserBillingStatus envQ userId w' = (w', inr status) /\
    isExpired status = (cycleEnd <? now envQ)%Z /\
    daysRemaining status
      = (if (cycleEnd <? now envQ)%Z then None
         else Some (Js.ceilDiv (cycleEnd - now envQ) msPerDay)) /\
    (now envQ <= now env ->
     isExpired status = false /\
     exists days, daysRemaining status = Some days /\
                  1 <= minCycleDays cycle <= days).
Proof.
  intros Hff HffQ Hfind cycleEnd.
  destruct (addPayment_run env userId cycle amount memo adminId w user Hff Hfind)
    as (w' & payment & row & Hrun & _ & _ & _ & Hus & _).
  fold cycleEnd in Hrun, Hus.
  set (data := addPaymentData cycle (stackedStart (now env) user) cycleEnd (now env))
    in *.
  assert (Hfind' : find (fun u => String.eqb (User.id u) userId) (users w')
                   = Some (data user)).
  { rewrite Hus. apply find_updated; [reflexivity | exact Hfind]. }
  destruct (getUserBillingStatus_run envQ userId w' _ HffQ Hfind') as [ps Hq].
  destruct (status_of_running_cycle envQ (data user) ps cycleEnd
              eq_refl eq_refl eq_refl) as [He Hd].
  exists w', (payment, data user), (billingStatusOf envQ (data user) ps).
  split; [exact Hrun|]. split; [exact Hq|]. split; [exact He|].
  split; [exact Hd|].
  intros Hle.
  pose proof (calculateCycleEndDate_span (stackedStart (now env) user) cycle)
    as Hspan. fold cycleEnd in Hspan.
  assert (Hst : now env <= stackedStart (now env) user)
    by (unfold stackedStart; lia).
  assert (Hmin : 1 <= minCycleDays cycle) by (destruct cycle; cbn; lia).
  assert (Hlt : (cycleEnd <? now envQ)%Z = false).
  { apply Z.ltb_ge. unfold msPerDay in Hspan. nia. }
  rewrite He, Hd, Hlt. split; [reflexivity|].
  eexists; split; [reflexivity|]. split; [exact Hmin|].
  apply ceilDiv_span. nia.
Qed.

Lemma billing_status_after_payment_witness :
  faultFree (envAt 6000) /\ faultFree (envAt 6000) /\
  find (fun u => String.eqb (User.id u) "u2") (users bobAndCarol) = Some bob /\
  let cycleEnd := calculateCycleEndDate (stackedStart (now (envAt 6000)) bob) WEEKLY in
  exists w' paid status,
    addPayment (envAt 6000) "u2" WEEKLY 20 None None bobAndCarol = (w', inr paid) /\
    getUserBillingStatus (envAt 6000) "u2" w' = (w', inr status) /\
    isExpired status = (cycleEnd <? now (envAt 6000))%Z /\
    daysRemaining status
      = (if (cycleEnd <? now (envAt 6000))%Z then None
         else Some (Js.ceilDiv (cycleEnd - now (envAt 6000)) msPerDay)) /\
    (now (envAt 6000) <= now (envAt 6000) ->
     isExpired status = false /\
     exists days, daysRemaining status = Some days /\
                  1 <= minCycleDays WEEKLY <= days).
Proof.
  split; [apply envAt_faultFree|]. split; [apply envAt_faultFree|].
  split; [reflexivity|].
  exact (billing_status_after_payment (envAt 6000) (envAt 6000) "u2" WEEKLY 20
           None None bobAndCarol bob (envAt_faultFree 6000) (envAt_faultFree 6000)
           eq_refl).
Defined.

Lemma setHours_forward t h : setHours t (getHours t + h) = t + h * msPerHour.
Proof.
  unfold setHours, getHours, MakeDate, Day, TimeWithinDay, msPerDay, msPerHour.
  Z.div_mod_to_equations. lia.
Qed.

Lemma ceilDiv_hours h :
  Js.ceilDiv (h * msPerHour) (1000 * 60 * 60 * 24) = Js.ceilDiv h 24.
Proof.
  unfold Js.ceilDiv, msPerHour. change (1000 * 60 * 60 * 24) with 86400000.
  Z.div_mod_to_equations. lia.
Qed.

(** X16.  [setTrialPeriod (userId, hours)] replaces whatever plan the
    user had by a trial that ends [hours] hours of 3600 seconds after
    the call: the billing cycle and its dates are erased, the trial flag
    is set and the billing flag cleared, and one TRIAL_STARTED row is
    added to the billing history.  Asked at the same instant,
    [getUserBillingStatus] reports the trial with [hours / 24] days
    remaining, rounded up, and as expired only for a negative number of
    hours. *)
Theorem setTrialPeriod_effect env userId hours w user :
  faultFree env ->
  find (fun u => String.eqb (User.id u) userId) (users w) = Some user ->
  let trialEnd := now env + hours * msPerHour in
  let data := setTrialData hours (now env) trialEnd (now env) in
  exists w' row status,
    setTrialPeriod env userId hours w = (w', inr (data user)) /\
    users w' = updateWhere (fun u => String.eqb (User.id u) userId) data (users w) /\
    User.billingCycleEndDate (data user) = None /\
    User.isBillingActive (data user) = false /\
    User.isTrialActive (data user) = true /\
    billingHistories w' = (billingHistories w ++ [row])%list /\
    BillingHistory.userId row = userId /\
    BillingHistory.action row = "TRIAL_STARTED" /\
    payments w' = payments w /\
    getUserBillingStatus env userId w' = (w', inr status) /\
    isExpired status = (hours <? 0)%Z /\
    daysRemaining status
      = (if (hours <? 0)%Z then None else Some (Js.ceilDiv hours 24)).
Proof.
  intros Hff Hfind trialEnd data.
  assert (Hrun : exists w' row,
    setTrialPeriod env userId hours w = (w', inr (data user)) /\
    users w' = updateWhere (fun u => String.eqb (User.id u) userId) data (users w) /\
    billingHistories w' = (billingHistories w ++ [row])%list /\
    BillingHistory.userId row = userId /\
    BillingHistory.action row = "TRIAL_STARTED" /\
    payments w' = payments w).
  { unfold setTrialPeriod, user_findUnique_id, user_update,
      billingHistory_create, freshId, modify, ret, bind.
    rewrite prisma_ok by apply Hff. rewrite Hfind. cbn beta iota.
    rewrite setHours_forward. fold trialEnd data.
    rewrite prisma_ok by apply Hff. rewrite Hfind.
    rewrite prisma_ok by apply Hff. cbn beta iota.
    do 2 eexists. split; [reflexivity|].
    cbn [users payments billingHistories set_users set_billingHistories
         bump_nextId BillingHistory.userId BillingHistory.action].
    repeat split; reflexivity. }
  destruct Hrun as (w' & row & Hrun & Hus & Hh & Hu & Ha & Hp).
  assert (Hfind' : find (fun u => String.eqb (User.id u) userId) (users w')
                   = Some (data user)).
  { rewrite Hus. apply find_updated; [reflexivity | exact Hfind]. }
  destruct (getUserBillingStatus_run env userId w' _ Hff Hfind') as [ps Hq].
  exists w', row, (billingStatusOf env (data user) ps).
  repeat (split; [first [assumption | reflexivity]|]).
  unfold billingStatusOf, data, setTrialData, getTime.
  cbn [User.isTrialActive User.trialEndDate].
  assert (Hlt : (trialEnd <? now env)%Z = (hours <? 0)%Z).
  { unfold trialEnd, msPerHour.
    destruct (Z.ltb_spec hours 0); [apply Z.ltb_lt | apply Z.ltb_ge]; lia. }
  rewrite Hlt. destruct (hours <? 0)%Z; cbn [isExpired daysRemaining];
    split; try reflexivity.
  unfold trialEnd. replace (now env + hours * msPerHour - now env)
    with (hours * msPerHour) by lia.
  now rewrite ceilDiv_hours.
Qed.

Lemma setTrialPeriod_effect_witness :
  faultFree (envAt 6000) /\
  find (fun u => String.eqb (User.id u) "u2") (users bobAndCarol) = Some bob /\
  let trialEnd := now (envAt 6000) + 48 * msPerHour in
  let data := setTrialData 48 (now (envAt 6000)) trialEnd (now (envAt 6000)) in
  exists w' row status,
    setTrialPeriod (envAt 6000) "u2" 48 bobAndCarol = (w', inr (data bob)) /\
    users w' = updateWhere (fun u => String.eqb (User.id u) "u2") data
                           (users bobAndCarol) /\
    User.billingCycleEndDate (data bob) = None /\
    User.isBillingActive (data bob) = false /\
    User.isTrialActive (data bob) = true /\
    billingHistories w' = (billingHistories bobAndCarol ++ [row])%list /\
    BillingHistory.userId row = "u2" /\
    BillingHistory.action row = "TRIAL_STARTED" /\
    payments w' = payments bobAndCarol /\
    getUserBillingStatus (envAt 6000) "u2" w' = (w', inr status) /\
    isExpired status = (48 <? 0)%Z /\
    daysRemaining status
      = (if (48 <? 0)%Z then None else Some (Js.ceilDiv 48 24)).
Proof.
  split; [apply envAt_faultFree|]. split; [reflexivity|].
  exact (setTrialPeriod_effect (envAt 6000) "u2" 48 bobAndCarol bob
           (envAt_faultFree 6000) eq_refl).
Defined.

(** X17.  [startBillingCycle] ends a trial and starts a cycle at the
    given date, or at the instant of the call if none is given: the
    trial dates are erased, the cycle is at least as long as its
    shortest calendar length, and one CYCLE_STARTED row is added to the
    billing history.  The start date is not checked against the clock:
    [getUserBillingStatus] reports the new cycle as expired exactly when
    its computed end is before the instant of the question. *)
Theorem startBillingCycle_effect env envQ userId cycle startDate w user :
  faultFree env -> faultFree envQ ->
  find (fun u => String.eqb (User.id u) userId) (users w) = Some user ->
  let cycleStart := match startDate with Some d => d | None => now env end in
  let cycleEnd := calculateCycleEndDate cycleStart cycle in
  let data := startCycleData cycle cycleStart cycleEnd (now env) in
  exists w' row status,
    startBillingCycle env userId cycle startDate w = (w', inr (data user)) /\
    users w' = updateWhere (fun u => String.eqb (User.id u) userId) data (users w) /\
    User.isTrialActive (data user) = false /\
    User.trialEndDate (data user) = None /\
    cycleStart + minCycleDays cycle * msPerDay <= cycleEnd /\
    billingHistories w' = (billingHistories w ++ [row])%list /\
    BillingHistory.userId row = userId /\
    BillingHistory.action row = "CYCLE_STARTED" /\
    getUserBillingStatus envQ userId w' = (w', inr status) /\
    isExpired status = (cycleEnd <? now envQ)%Z.
Proof.
  intros Hff HffQ Hfind cycleStart cycleEnd data.
  assert (Hrun : exists w' row,
    startBillingCycle env userId cycle startDate w = (w', inr (data user)) /\
    users w' = updateWhere (fun u => String.eqb (User.id u) userId) data (users w) /\
    billingHistories w' = (billingHistories w ++ [row])%list /\
    BillingHistory.userId row = userId /\
    BillingHistory.action row = "CYCLE_STARTED").
  { unfold startBillingCycle, user_findUnique_id, user_update,
      billingHistory_create, freshId, modify, ret, bind.
    rewrite prisma_ok by apply Hff. rewrite Hfind. cbn beta iota.
    fold cycleStart. fold cycleEnd. fold data.
    rewrite prisma_ok by apply Hff. rewrite Hfind.
    rewrite prisma_ok by apply Hff. cbn beta iota.
    do 2 eexists. split; [reflexivity|].
    cbn [users billingHistories set_users set_billingHistories
         bump_nextId BillingHistory.userId BillingHistory.action].
    repeat split; reflexivity. }
  destruct Hrun as (w' & row & Hrun & Hus & Hh & Hu & Ha).
  assert (Hfind' : find (fun u => String.eqb (User.id u) userId) (users w')
                   = Some (data user)).
  { rewrite Hus. apply find_updated; [reflexivity | exact Hfind]. }
  destruct (getUserBillingStatus_run envQ userId w' _ HffQ Hfind') as [ps Hq].
  destruct (status_of_running_cycle envQ (data user) ps cycleEnd
              eq_refl eq_refl eq_refl) as [He _].
  exists w', row, (billingStatusOf envQ (data user) ps).
  repeat (split; [first [assumption | reflexivity
                        | apply calculateCycleEndDate_span]|]).
  exact He.
Qed.

Lemma startBillingCycle_effect_witness :
  faultFree (envAt 6000) /\ faultFree (envAt 6000) /\
  find (fun u => String.eqb (User.id u) "u3") (users bobAndCarol) = Some carol /\
  let cycleStart := match Some 1000 with Some d => d | None => now (envAt 6000) end in
  let cycleEnd := calculateCycleEndDate cycleStart DAILY in
  let data := startCycleData DAILY cycleStart cycleEnd (now (envAt 6000)) in
  exists w' row status,
    startBillingCycle (envAt 6000) "u3" DAILY (Some 1000) bobAndCarol
      = (w', inr (data carol)) /\
    users w' = updateWhere (fun u => String.eqb (User.id u) "u3") data
                           (users bobAndCarol) /\
    User.isTrialActive (data carol) = false /\
    User.trialEndDate (data carol) = None /\
    cycleStart + minCycleDays DAILY * msPerDay <= cycleEnd /\
    billingHistories w' = (billingHistories bobAndCarol ++ [row])%list /\
    BillingHistory.userId row = "u3" /\
    BillingHistory.action row = "CYCLE_STARTED" /\
    getUserBillingStatus (envAt 6000) "u3" w' = (w', inr status) /\
    isExpired status = (cycleEnd <? now (envAt 6000))%Z.
Proof.
  split; [apply envAt_faultFree|]. split; [apply envAt_faultFree|].
  split; [reflexivity|].
  exact (startBillingCycle_effect (envAt 6000) (envAt 6000) "u3" DAILY (Some 1000)
           bobAndCarol carol (envAt_faultFree 6000) (envAt_faultFree 6000)
           eq_refl).
Defined.

(** X18.  A payment is not atomic.  If the database answers the lookup
    and the insert of the payment but rejects the update of the user,
    [addPayment] throws with the Payment row already written: the
    payment is on record, and the user's cycle, flags and billing
    history are as before. *)
Theorem addPayment_is_not_atomic env userId cycle amount memo adminId w user :
  fails env UserFindUnique = false ->
  fails env PaymentCreate = false ->
  fails env UserUpdate = true ->
  find (fun u => String.eqb (User.id u) userId) (users w) = Some user ->
  let cycleStart := stackedStart (now env) user in
  let cycleEnd := calculateCycleEndDate cycleStart cycle in
  exists w' payment,
    addPayment env userId cycle amount memo adminId w
      = (w', inl (PrismaError UserUpdate)) /\
    payments w' = (payments w ++ [payment])%list /\
    paymentRecorded env userId cycle amount cycleStart cycleEnd payment /\
    users w' = users w /\
    billingHistories w' = billingHistories w.
Proof.
  intros Hfu Hpc Huu Hfind cycleStart cycleEnd.
  unfold addPayment, user_findUnique_id, user_update, freshId, modify, ret, bind.
  rewrite prisma_ok by exact Hfu. rewrite Hfind. cbn beta iota.
  rewrite stackedStart_eq. fold cycleStart cycleEnd.
  rewrite prisma_ok by exact Hpc. cbn beta iota.
  rewrite prisma_fails by exact Huu.
  do 2 eexists. split; [reflexivity|].
  cbn [payments users billingHistories set_payments bump_nextId].
  split; [reflexivity|]. split; [|split; reflexivity].
  unfold paymentRecorded. cbn. repeat split; reflexivity.
Qed.

Lemma addPayment_is_not_atomic_witness :
  let env := sessionEnv 6000 "" ""
               (fun q => match q with UserUpdate => true | _ => false end) in
  fails env UserFindUnique = false /\
  fails env PaymentCreate = false /\
  fails env UserUpdate = true /\
  find (fun u => String.eqb (User.id u) "u2") (users bobAndCarol) = Some bob /\
  let cycleStart := stackedStart (now env) bob in
  let cycleEnd := calculateCycleEndDate cycleStart MONTHLY in
  exists w' payment,
    addPayment env "u2" MONTHLY 50 None None bobAndCarol
      = (w', inl (PrismaError UserUpdate)) /\
    payments w' = (payments bobAndCarol ++ [payment])%list /\
    paymentRecorded env "u2" MONTHLY 50 cycleStart cycleEnd payment /\
    users w' = users bobAndCarol /\
    billingHistories w' = billingHistories bobAndCarol.
Proof.
  intros env. repeat (split; [reflexivity|]).
  exact (addPayment_is_not_atomic env "u2" MONTHLY 50 None None bobAndCarol bob
           eq_refl eq_refl eq_refl eq_refl).
Defined.

(** X19.  Every billing call on a user starts by reading the user: for
    an id that no user has, [startBillingCycle], [addPayment],
    [setTrialPeriod] and [getUserBillingStatus] throw the 404 "User not
    found" and leave the store as it was. *)
Theorem billing_calls_need_the_user env userId w :
  fails env UserFindUnique = false ->
  find (fun u => String.eqb (User.id u) userId) (users w) = None ->
  let notFound := AppError "User not found" 404 in
  (forall cycle startDate,
     startBillingCycle env userId cycle startDate w = (w, inl notFound)) /\
  (forall cycle amount memo adminId,
     addPayment env userId cycle amount memo adminId w = (w, inl notFound)) /\
  (forall hours, setTrialPeriod env userId hours w = (w, inl notFound)) /\
  getUserBillingStatus env userId w = (w, inl notFound).
Proof.
  intros Hfu Hfind notFound.
  unfold startBillingCycle, addPayment, setTrialPeriod, getUserBillingStatus,
    user_findUnique_id, bind, throw.
  rewrite !prisma_ok by exact Hfu. rewrite Hfind.
  repeat split; reflexivity.
Qed.

Lemma billing_calls_need_the_user_witness :
  fails quietEnv UserFindUnique = false /\
  find (fun u => String.eqb (User.id u) "u9") (users bobAndCarol) = None /\
  let notFound := AppError "User not found" 404 in
  (forall cycle startDate,
     startBillingCycle quietEnv "u9" cycle startDate bobAndCarol
       = (bobAndCarol, inl notFound)) /\
  (forall cycle amount memo adminId,
     addPayment quietEnv "u9" cycle amount memo adminId bobAndCarol
       = (bobAndCarol, inl notFound)) /\
  (forall hours,
     setTrialPeriod quietEnv "u9" hours bobAndCarol = (bobAndCarol, inl notFound)) /\
  getUserBillingStatus quietEnv "u9" bobAndCarol = (bobAndCarol, inl notFound).
Proof.
  split; [reflexivity|]. split; [reflexivity|].
  exact (billing_calls_need_the_user quietEnv "u9" bobAndCarol eq_refl eq_refl).
Defined.

Lemma length_orderByDesc {R} (key : R -> Date) rows :
  List.length (orderByDesc key rows) = List.length rows.
Proof.
  unfold orderByDesc. induction rows as [|r rows IH]; cbn; [reflexivity|].
  rewrite <- IH. generalize (fold_right (insertDesc key) [] rows).
  intros l. induction l as [|x l IHl]; cbn; [reflexivity|].
  destruct (key x <? key r)%Z; cbn; [reflexivity | now rewrite IHl].
Qed.

(** X20.  A payment shows in both histories of the user: after
    [addPayment], [getPaymentHistory] lists the payment, among payments
    of that user only and as many as the user had before plus one, and
    [getBillingHistory] lists a PAYMENT_ADDED row that carries the
    payment's id. *)
Theorem payment_shows_in_histories
  env rejects userId cycle amount memo adminId w user :
  faultFree env -> answers rejects ->
  find (fun u => String.eqb (User.id u) userId) (users w) = Some user ->
  exists w' payment paidUser before after audit row,
    addPayment env userId cycle amount memo adminId w
      = (w', inr (payment, paidUser)) /\
    getPaymentHistory rejects userId w = (w, inr before) /\
    getPaymentHistory rejects userId w' = (w', inr after) /\
    In (viewOfPayment payment) after /\
    List.length after = S (List.length before) /\
    getBillingHistory rejects userId w' = (w', inr audit) /\
    In row audit /\
    BillingHistory.action row = "PAYMENT_ADDED" /\
    In ("paymentId", Js.JString (Payment.id payment)) (BillingHistory.details row) /\
    Forall (fun h => BillingHistory.userId h = userId) audit.
Proof.
  intros Hff Hans Hfind.
  destruct (addPayment_run env userId cycle amount memo adminId w user Hff Hfind)
    as (w' & payment & row & Hrun & Hp & Hpu & _ & _ & Hh & Hu & Ha & Hd).
  unfold getPaymentHistory, getBillingHistory, bind, prismaAdmin, ret.
  rewrite !Hans.
  exists w', payment. do 4 eexists. exists row.
  split; [exact Hrun|]. split; [reflexivity|]. split; [reflexivity|].
  assert (Hsel : String.eqb (Payment.userId payment) userId = true)
    by (rewrite Hpu; apply String.eqb_refl).
  split.
  { apply in_map. apply In_orderByDesc. rewrite Hp, filter_app.
    apply in_or_app; right. cbn. rewrite Hsel. left; reflexivity. }
  split.
  { rewrite !length_map, !length_orderByDesc, Hp, filter_app, length_app.
    cbn. rewrite Hsel. cbn. lia. }
  split; [reflexivity|].
  split.
  { apply In_orderByDesc. rewrite Hh, filter_app.
    apply in_or_app; right. cbn. rewrite Hu, String.eqb_refl. left; reflexivity. }
  split; [exact Ha|]. split; [exact Hd|].
  apply Forall_forall. intros h Hin.
  apply In_orderByDesc in Hin. apply filter_In in Hin as [_ Hin].
  now apply String.eqb_eq.
Qed.

Lemma payment_shows_in_histories_witness :
  faultFree (envAt 6000) /\ answers (fun _ => false) /\
  find (fun u => String.eqb (User.id u) "u2") (users bobAndCarol) = Some bob /\
  exists w' payment paidUser before after audit row,
    addPayment (envAt 6000) "u2" MONTHLY 50 None None bobAndCarol
      = (w', inr (payment, paidUser)) /\
    getPaymentHistory (fun _ => false) "u2" bobAndCarol = (bobAndCarol, inr before) /\
    getPaymentHistory (fun _ => false) "u2" w' = (w', inr after) /\
    In (viewOfPayment payment) after /\
    List.length after = S (List.length before) /\
    getBillingHistory (fun _ => false) "u2" w' = (w', inr audit) /\
    In row audit /\
    BillingHistory.action row = "PAYMENT_ADDED" /\
    In ("paymentId", Js.JString (Payment.id payment)) (BillingHistory.details row) /\
    Forall (fun h => BillingHistory.userId h = "u2") audit.
Proof.
  split; [apply envAt_faultFree|]. split; [intros q; reflexivity|].
  split; [reflexivity|].
  exact (payment_shows_in_histories (envAt 6000) (fun _ => false) "u2" MONTHLY 50
           None None bobAndCarol bob (envAt_faultFree 6000) (fun q => eq_refl)
           eq_refl).
Defined.

(** X21.  After the sweep, [getExpiredAccounts] lists disabled accounts
    only: the accounts the sweep has just disabled have lost the flag
    of their expired plan and are not listed, and what remains listed
    was disabled before with the flag still set.  The total is the sum
    of the two lists. *)
Theorem expired_accounts_after_sweep env w :
  faultFree env ->
  exists w1 swept report,
    checkAndDisableExpiredAccounts env w = (w1, inr swept) /\
    getExpiredAccounts env w1 = (w1, inr report) /\
    Forall (fun e => eb_status e = DISABLED) (expiredBilling report) /\
    Forall (fun e => et_status e = DISABLED) (expiredTrials report) /\
    total report
      = (List.length (expiredBilling report)
         + List.length (expiredTrials report))%nat.
Proof.
  intros Hff.
  destruct (sweep_run env Hff w) as (w1 & r1 & Hrun & Hus & _).
  exists w1, r1.
  unfold getExpiredAccounts, user_findMany, bind, ret.
  rewrite !prisma_ok by apply Hff.
  eexists. split; [exact Hrun|]. split; [reflexivity|].
  cbn [expiredBilling expiredTrials total].
  assert (Hsettled : forall u', In u' (users w1) ->
            expiredBillingWhere (now env) u' = false /\
            expiredTrialWhere (now env) u' = false).
  { intros u' Hin. rewrite Hus in Hin. apply in_map_iff in Hin as (u & <- & Hin).
    destruct (sweptRow_settled (now env) (users w) u Hin) as (H1 & H2 & _).
    split; assumption. }
  split; [|split; [|reflexivity]].
  - apply Forall_forall. intros e He.
    apply in_map_iff in He as (u & <- & Hu). cbn [eb_status].
    apply filter_In in Hu as [Hin Hsel].
    destruct (Hsettled u Hin) as [Hb _].
    unfold expiredBillingWhere in Hb. rewrite Hsel in Hb. cbn in Hb.
    destruct (User.status u); try discriminate; reflexivity.
  - apply Forall_forall. intros e He.
    apply in_map_iff in He as (u & <- & Hu). cbn [et_status].
    apply filter_In in Hu as [Hin Hsel].
    destruct (Hsettled u Hin) as [_ Ht].
    unfold expiredTrialWhere in Ht. rewrite Hsel in Ht. cbn in Ht.
    destruct (User.status u); try discriminate; reflexivity.
Qed.

Lemma expired_accounts_after_sweep_witness :
  faultFree (envAt 6000) /\
  exists w1 swept report,
    checkAndDisableExpiredAccounts (envAt 6000) bobAndCarol = (w1, inr swept) /\
    getExpiredAccounts (envAt 6000) w1 = (w1, inr report) /\
    Forall (fun e => eb_status e = DISABLED) (expiredBilling report) /\
    Forall (fun e => et_status e = DISABLED) (expiredTrials report) /\
    total report
      = (List.length (expiredBilling report)
         + List.length (expiredTrials report))%nat.
Proof.
  split; [apply envAt_faultFree|].
  exact (expired_accounts_after_sweep (envAt 6000) bobAndCarol
           (envAt_faultFree 6000)).
Defined.

End BillingFacts.

(* ================================================================== *)
(** * The first administrator, the billing job, and locations *)
(* ================================================================== *)

Section BootstrapFacts.

Import Store Prisma Bootstrap.
Import Fixtures.
Local Open Scope string_scope.

Lemma find_app_none {A} (p : A -> bool) l x :
  find p l = None -> p x = true -> find p (l ++ [x]) = Some x.
Proof.
  induction l as [|y l IH]; cbn; intros Hn Hp.
  - now rewrite Hp.
  - destruct (p y); [discriminate | auto].
Qed.

(** X22.  [bootstrapSuperAdmin] is idempotent.  If a super
    administrator exists, it changes nothing.  If none exists and the
    email is free, it adds exactly one user, an active SUPER_ADMIN with
    the given email and the hash of the given password, after which any
    further call changes nothing.  If none exists and the email belongs
    to another user, the insert is rejected and nothing changes. *)
Theorem bootstrapSuperAdmin_outcome rejects hashPassword email password w :
  answers rejects ->
  match find isSuperAdmin (users w) with
  | Some _ =>
      bootstrapSuperAdmin rejects hashPassword email password w = (w, inr tt)
  | None =>
      if existsb (fun u => String.eqb (User.email u) email) (users w)
      then bootstrapSuperAdmin rejects hashPassword email password w
           = (w, inl uniqueConstraintFailed)
      else
        exists w',
          bootstrapSuperAdmin rejects hashPassword email password w
            = (w', inr tt) /\
          users w'
            = (users w ++ [superAdminRow (cuid (nextId w)) email
                                         (hashPassword password)])%list /\
          forall email' password',
            bootstrapSuperAdmin rejects hashPassword email' password' w'
              = (w', inr tt)
  end.
Proof.
  intros Hans.
  unfold bootstrapSuperAdmin, user_create, bind, prismaAdmin, ret.
  rewrite !Hans.
  destruct (find isSuperAdmin (users w)) eqn:Ef; [reflexivity|].
  destruct (existsb _ (users w)); [reflexivity|].
  eexists; split; [reflexivity|].
  cbn [users set_users bump_nextId]. split; [reflexivity|].
  intros email' password'.
  rewrite find_app_none; [reflexivity | exact Ef | reflexivity].
Qed.

Lemma bootstrapSuperAdmin_outcome_witness :
  answers (fun _ => false) /\
  exists w',
    bootstrapSuperAdmin (fun _ => false) (fun p => "hash-of-" ++ p)
                        "root@x" "sesame" bobAndCarol = (w', inr tt) /\
    users w'
      = (users bobAndCarol
         ++ [superAdminRow (cuid (nextId bobAndCarol)) "root@x"
                           ("hash-of-" ++ "sesame")])%list /\
    forall email' password',
      bootstrapSuperAdmin (fun _ => false) (fun p => "hash-of-" ++ p)
                          email' password' w' = (w', inr tt).
Proof.
  split; [intros q; reflexivity|].
  exact (bootstrapSuperAdmin_outcome (fun _ => false) (fun p => "hash-of-" ++ p)
           "root@x" "sesame" bobAndCarol (fun q => eq_refl)).
Defined.

End BootstrapFacts.

Section BillingJobFacts.

Import Store BillingJob JobProperties.

Lemma disabledOrSame_refl u : disabledOrSame u u.
Proof. unfold disabledOrSame. tauto. Qed.

Lemma disabledOrSame_trans u1 u2 u3 :
  disabledOrSame u1 u2 -> disabledOrSame u2 u3 -> disabledOrSame u1 u3.
Proof.
  unfold disabledOrSame.
  intros (A1 & A2 & A3 & A4 & A5 & A6 & A7 & A8 & A9 & A10)
         (B1 & B2 & B3 & B4 & B5 & B6 & B7 & B8 & B9 & B10).
  repeat split; try congruence; auto.
  destruct B8 as [B8|B8]; [rewrite B8; exact A8 | auto].
Qed.

Lemma Forall2_refl_on {A} (R : A -> A -> Prop) l :
  (forall x, R x x) -> Forall2 R l l.
Proof. intros H; induction l; constructor; auto. Qed.

Lemma Forall2_trans_on {A} (R : A -> A -> Prop) l1 : forall l2 l3,
  (forall x y z, R x y -> R y z -> R x z) ->
  Forall2 R l1 l2 -> Forall2 R l2 l3 -> Forall2 R l1 l3.
Proof.
  induction l1 as [|x l1 IH]; intros l2 l3 Ht H12 H23;
    inversion H12; subst; inversion H23; subst; constructor; eauto.
Qed.

Lemma onlyDisables_ret {A} (a : A) : onlyDisables (ret a).
Proof.
  intros w. cbn. split; [|auto].
  apply Forall2_refl_on, disabledOrSame_refl.
Qed.

Lemma onlyDisables_bind {A B} (m : M A) (k : A -> M B) :
  onlyDisables m -> (forall a, onlyDisables (k a)) -> onlyDisables (bind m k).
Proof.
  intros Hm Hk w. unfold bind.
  destruct (Hm w) as (Hu & Hs & Hp).
  destruct (m w) as [w1 [e|a]]; cbn [fst] in *; [auto|].
  destruct (Hk a w1) as (Hu' & Hs' & Hp').
  split; [|split; congruence].
  eapply Forall2_trans_on; eauto using disabledOrSame_trans.
Qed.

Lemma onlyDisables_prisma env q {A} (body : M A) :
  onlyDisables body -> onlyDisables (prisma env q body).
Proof.
  intros Hb w. unfold prisma. destruct (fails env q); [|apply Hb].
  cbn. split; [|auto]. apply Forall2_refl_on, disabledOrSame_refl.
Qed.

Lemma onlyDisables_forEach {X} (xs : list X) (body : X -> M unit) :
  (forall x, onlyDisables (body x)) -> onlyDisables (forEach xs body).
Proof.
  intros Hb. induction xs as [|x xs IH]; cbn [forEach].
  - apply onlyDisables_ret.
  - apply onlyDisables_bind; auto.
Qed.

Lemma onlyDisables_user_update env i data :
  (forall u, disabledOrSame u (data u)) -> onlyDisables (user_update env i data).
Proof.
  intros Hd. unfold user_update. apply onlyDisables_prisma. intros w.
  destruct (find _ (users w)); cbn [fst users sessionActivities payments set_users].
  - split; [|auto]. eapply Forall2_impl; [|apply Forall2_updateWhere].
    intros u u' ->. destruct (String.eqb (User.id u) i);
      [apply Hd | apply disabledOrSame_refl].
  - split; [|auto]. apply Forall2_refl_on, disabledOrSame_refl.
Qed.

Lemma onlyDisables_billingHistory_create env userId action details :
  onlyDisables (BillingService.billingHistory_create env userId action details).
Proof.
  unfold BillingService.billingHistory_create. apply onlyDisables_prisma.
  intros w. cbn. split; [|auto]. apply Forall2_refl_on, disabledOrSame_refl.
Qed.

Lemma onlyDisables_sweep env :
  onlyDisables (BillingService.checkAndDisableExpiredAccounts env).
Proof.
  unfold BillingService.checkAndDisableExpiredAccounts, user_findMany.
  apply onlyDisables_bind; [|intros expiredBilling].
  { apply onlyDisables_prisma. intros w. cbn. split; [|auto].
    apply Forall2_refl_on, disabledOrSame_refl. }
  apply onlyDisables_bind; [|intros expiredTrial].
  { apply onlyDisables_prisma. intros w. cbn. split; [|auto].
    apply Forall2_refl_on, disabledOrSame_refl. }
  apply onlyDisables_bind; [|intros _].
  { apply onlyDisables_forEach. intros user.
    apply onlyDisables_bind; [|intros _].
    - apply onlyDisables_user_update. intros u.
      unfold disabledOrSame. cbn. repeat split; auto; discriminate.
    - apply onlyDisables_bind; [|intros _; apply onlyDisables_ret].
      apply onlyDisables_billingHistory_create. }
  apply onlyDisables_bind; [|intros _; apply onlyDisables_ret].
  apply onlyDisables_forEach. intros user.
  apply onlyDisables_bind; [|intros _].
  - apply onlyDisables_user_update. intros u.
    unfold disabledOrSame. cbn. repeat split; auto; discriminate.
  - apply onlyDisables_bind; [|intros _; apply onlyDisables_ret].
    apply onlyDisables_billingHistory_create.
Qed.

(** X23.  One run of the scheduled check never throws, whatever the
    database rejects and wherever the sweep stops, and it can only
    disable: every user keeps identity, credentials, session token and
    plan dates, the status is as before or DISABLED, no plan flag is
    switched on, and sessions and payments are untouched. *)
Theorem billingCheck_only_disables env w :
  snd (billingCheck env w) = inr tt /\
  Forall2 disabledOrSame (users w) (users (fst (billingCheck env w))) /\
  sessionActivities (fst (billingCheck env w)) = sessionActivities w /\
  payments (fst (billingCheck env w)) = payments w.
Proof.
  pose proof (onlyDisables_sweep env w) as H.
  unfold billingCheck, tryCatch, bind, ret.
  destruct (BillingService.checkAndDisableExpiredAccounts env w) as [w' [e|r]];
    cbn [fst snd] in *; split; auto.
Qed.

Lemma stopTask_last pre :
  stopTask (List.length pre) (pre ++ [true]) = (pre ++ [false])%list.
Proof. induction pre as [|t pre IH]; cbn; [reflexivity | now rewrite IH]. Qed.

Lemma none_running tasks :
  Forall (fun t => t = false) tasks -> filter (fun t : bool => t) tasks = [].
Proof.
  induction 1 as [|t tasks Ht _ IH]; cbn; [reflexivity|]. now rewrite Ht.
Qed.

Lemma call_wellScheduled s c : wellScheduled s -> wellScheduled (call s c).
Proof.
  unfold wellScheduled. destruct c; cbn [call];
    unfold startBillingJob, stopBillingJob;
    destruct (billingJob s) as [task|] eqn:E; rewrite ?E; auto;
    cbn [billingJob cronTasks].
  - intros Hall. exists (cronTasks s). auto.
  - intros (stopped & -> & <- & Hall). rewrite stopTask_last.
    apply Forall_app. split; [exact Hall | repeat constructor].
Qed.

Lemma calls_wellScheduled calls : forall s,
  wellScheduled s -> wellScheduled (fold_left call calls s).
Proof.
  induction calls as [|c calls IH]; intros s Hs; cbn; [exact Hs|].
  apply IH, call_wellScheduled, Hs.
Qed.

(** X24.  Whatever calls of [startBillingJob] and [stopBillingJob] are
    made, in whatever order, at most one cron task is running: exactly
    one while [billingJob] holds a task, which is that task, and none
    while it is null.  A start while the job runs schedules nothing. *)
Theorem at_most_one_billing_job calls :
  let s := fold_left call calls idle in
  wellScheduled s /\
  running s = (match billingJob s with Some _ => 1 | None => 0 end)%nat /\
  startBillingJob (startBillingJob s) = startBillingJob s.
Proof.
  intros s.
  assert (Hs : wellScheduled s).
  { apply calls_wellScheduled. unfold wellScheduled. cbn. constructor. }
  split; [exact Hs|]. split.
  - unfold running. unfold wellScheduled in Hs.
    destruct (billingJob s) as [task|].
    + destruct Hs as (stopped & -> & _ & Hall).
      rewrite filter_app, (none_running _ Hall). reflexivity.
    + now rewrite (none_running _ Hs).
  - unfold startBillingJob.
    destruct (billingJob s) eqn:E; cbn [billingJob]; rewrite ?E; reflexivity.
Qed.

End BillingJobFacts.

(* ================================================================== *)
(** * A successful login *)
(* ================================================================== *)

Section LoginRuns.

Import Store SessionActivityService AuthService AuthClaims LoginProperties.
Import Fixtures.
Local Open Scope string_scope.

Variable env : Env.
Hypothesis Hff : faultFree env.

Lemma bind_run {A B} (m : M A) (k : A -> M B) w w1 a :
  m w = (w1, inr a) -> bind m k w = k a w1.
Proof. intros H. unfold bind. now rewrite H. Qed.

Lemma bind_stop {A B} (m : M A) (k : A -> M B) w w1 e :
  m w = (w1, inl e) -> bind m k w = (w1, inl e).
Proof. intros H. unfold bind. now rewrite H. Qed.

Lemma set_sessionActivities_id w : set_sessionActivities (fun rows => rows) w = w.
Proof. destruct w; reflexivity. Qed.

Lemma invalidated_step at_ reason x xs r :
  invalidated at_ reason xs
    (if String.eqb (SessionActivity.sessionToken r) (SessionActivity.sessionToken x)
        && SessionActivity.isActive r
     then markInactive at_ reason r else r)
  = invalidated at_ reason (x :: xs) r.
Proof.
  unfold invalidated. cbn [existsb].
  destruct (SessionActivity.isActive r) eqn:Ea;
    [|rewrite andb_false_r; cbn [andb]; now rewrite Ea].
  destruct (String.eqb (SessionActivity.sessionToken r)
                       (SessionActivity.sessionToken x)) eqn:Et;
    cbn [andb orb]; [reflexivity | now rewrite Ea].
Qed.

Lemma invalidated_nil at_ reason rows :
  map (invalidated at_ reason []) rows = rows.
Proof.
  unfold invalidated. cbn [existsb].
  induction rows as [|r rows IHr]; cbn; [reflexivity|].
  rewrite andb_false_r. congruence.
Qed.

Lemma invalidated_cons at_ reason x xs rows :
  map (invalidated at_ reason xs)
      (updateWhere
         (fun r => String.eqb (SessionActivity.sessionToken r)
                              (SessionActivity.sessionToken x)
                   && SessionActivity.isActive r)
         (markInactive at_ reason) rows)
  = map (invalidated at_ reason (x :: xs)) rows.
Proof.
  unfold updateWhere. rewrite map_map.
  apply map_ext. intros r. apply invalidated_step.
Qed.

Lemma invalidation_loop_run reason sessions : forall w,
  forEach sessions
    (fun session =>
       Store.bind
         (invalidateSession env (SessionActivity.sessionToken session) reason)
         (fun _ => ret tt)) w
  = (set_sessionActivities (map (invalidated (now env) reason sessions)) w,
     inr tt).
Proof.
  induction sessions as [|x xs IH]; intros w; cbn [forEach].
  - unfold ret, set_sessionActivities. rewrite invalidated_nil.
    destruct w; reflexivity.
  - unfold bind at 1 2. unfold invalidateSession, bind, sessionActivity_updateMany,
      ret. rewrite prisma_ok by apply Hff. rewrite IH.
    unfold set_sessionActivities.
    cbn [users sessionActivities loginHistories securityAlerts payments
         billingHistories nextId httpRequests].
    now rewrite invalidated_cons.
Qed.

Lemma user_update_run i data w (u : User.t) :
  find (fun u => String.eqb (User.id u) i) (users w) = Some u ->
  user_update env i data w
  = (set_users (updateWhere (fun u => String.eqb (User.id u) i) data) w,
     inr (data u)).
Proof.
  intros Hf. unfold user_update. rewrite prisma_ok by apply Hff.
  now rewrite Hf.
Qed.

Lemma located ip w :
  exists w' loc,
    (if Js.truthy ip then Geo.getLocationFromIP env ip else ret None) w
      = (w', inr loc) /\
    Runs.sameTables w w' /\ nextId w' = nextId w.
Proof.
  destruct (Js.truthy ip).
  - destruct (getLocationFromIP_run env ip w) as (reqs & loc & ->).
    do 2 eexists. split; [reflexivity|]. unfold Runs.sameTables. cbn. tauto.
  - exists w, None. unfold Runs.sameTables. repeat split; reflexivity.
Qed.

Lemma getLocationFromIP_tables ip w :
  exists w' loc,
    Geo.getLocationFromIP env ip w = (w', inr loc) /\
    Runs.sameTables w w' /\ nextId w' = nextId w.
Proof.
  destruct (getLocationFromIP_run env ip w) as (reqs & loc & ->).
  do 2 eexists. split; [reflexivity|]. unfold Runs.sameTables. cbn. tauto.
Qed.

Lemma createLoginHistory_run params w :
  exists w' entry,
    LoginHistoryService.createLoginHistory env params w = (w', inr entry) /\
    users w' = users w /\
    sessionActivities w' = sessionActivities w /\
    loginHistories w' = (loginHistories w ++ [entry])%list /\
    securityAlerts w' = securityAlerts w /\
    LoginHistory.userId entry = LoginHistoryService.userId params /\
    LoginHistory.success entry = LoginHistoryService.success params /\
    LoginHistory.failureReason entry = LoginHistoryService.failureReason params /\
    LoginHistory.loginAt entry = now env.
Proof.
  unfold LoginHistoryService.createLoginHistory.
  destruct (located (LoginHistoryService.ipAddress params) w)
    as (w0 & loc & Hloc & (Hu & Hs & Hh & Ha & _) & _).
  rewrite (bind_run _ _ _ _ _ Hloc).
  rewrite prisma_ok by apply Hff.
  unfold bind, freshId, modify, ret.
  do 2 eexists. split; [reflexivity|].
  cbn [users sessionActivities loginHistories securityAlerts
       set_loginHistories bump_nextId
       LoginHistory.userId LoginHistory.success LoginHistory.failureReason
       LoginHistory.loginAt].
  rewrite Hu, Hs, Hh, Ha. repeat split; reflexivity.
Qed.

Lemma createSession_run params w :
  exists w' session,
    createSession env params w = (w', inr session) /\
    users w' = users w /\
    sessionActivities w' = (sessionActivities w ++ [session])%list /\
    loginHistories w' = loginHistories w /\
    securityAlerts w' = securityAlerts w /\
    SessionActivity.userId session = SessionActivityService.userId params /\
    SessionActivity.sessionToken session
      = SessionActivityService.sessionToken params /\
    SessionActivity.isActive session = true /\
    SessionActivity.loginAt session = now env.
Proof.
  unfold createSession.
  destruct (located (SessionActivityService.ipAddress params) w)
    as (w0 & loc & Hloc & (Hu & Hs & Hh & Ha & _) & _).
  rewrite (bind_run _ _ _ _ _ Hloc).
  rewrite prisma_ok by apply Hff.
  unfold bind, freshId, modify, ret.
  do 2 eexists. split; [reflexivity|].
  cbn [users sessionActivities loginHistories securityAlerts
       set_sessionActivities bump_nextId
       SessionActivity.userId SessionActivity.sessionToken
       SessionActivity.isActive SessionActivity.loginAt].
  rewrite Hu, Hs, Hh, Ha. repeat split; reflexivity.
Qed.

Lemma createMultipleDeviceLoginAlert_run
  userId userEmail previousDevice previousIP previousLocation
  newDevice newIP newLocation w :
  exists w' alert,
    SecurityAlertService.createMultipleDeviceLoginAlert env userId userEmail
      previousDevice previousIP previousLocation newDevice newIP newLocation w
      = (w', inr alert) /\
    users w' = users w /\
    sessionActivities w' = sessionActivities w /\
    loginHistories w' = loginHistories w /\
    securityAlerts w' = (securityAlerts w ++ [alert])%list /\
    SecurityAlert.alertType alert = MULTIPLE_DEVICE_LOGIN /\
    SecurityAlert.userId alert = Some userId.
Proof.
  unfold SecurityAlertService.createMultipleDeviceLoginAlert,
    SecurityAlertService.createSecurityAlert.
  rewrite prisma_ok by apply Hff.
  unfold bind, freshId, modify, ret.
  do 2 eexists. split; [reflexivity|]. cbn. repeat split; reflexivity.
Qed.

Lemma existsb_same_members {A} (p : A -> bool) l l' :
  (forall x, In x l <-> In x l') -> existsb p l = existsb p l'.
Proof.
  intros H. destruct (existsb p l) eqn:E.
  - apply existsb_exists in E as (x & Hx & Hp). symmetry.
    apply existsb_exists. exists x. split; [now apply H | exact Hp].
  - destruct (existsb p l') eqn:E'; [|reflexivity].
    apply existsb_exists in E' as (x & Hx & Hp).
    assert (existsb p l = true)
      by (apply existsb_exists; exists x; split; [now apply H | exact Hp]).
    congruence.
Qed.

Lemma invalidated_ordered at_ reason l r :
  invalidated at_ reason (orderByDesc SessionActivity.loginAt l) r
  = invalidated at_ reason l r.
Proof.
  unfold invalidated.
  rewrite (existsb_same_members _ (orderByDesc SessionActivity.loginAt l) l);
    [reflexivity|].
  intros x. apply In_orderByDesc.
Qed.

Lemma updateWhere_twice {R} (p : R -> bool) f g rows :
  (forall r, p (g r) = p r) ->
  updateWhere p f (updateWhere p g rows)
  = updateWhere p (fun r => f (g r)) rows.
Proof.
  intros Hp. unfold updateWhere. rewrite map_map. apply map_ext. intros r.
  destruct (p r) eqn:E; [now rewrite Hp, E | now rewrite E].
Qed.

(** The invalidation of the sessions found at a login, with the alert
    for the administrators. *)
Lemma login_invalidation (user : User.t) metadata sessions w :
  BillingClaims.hasId (User.id user) (users w) ->
  exists w1,
    match sessions with
    | [] => ret tt
    | oldSession :: _ =>
        let previousDevice :=
          Some (Js.orElse (SessionActivity.deviceInfo oldSession)
                          "Unknown Device") in
        let previousIP :=
          Some (Js.orElse (SessionActivity.ipAddress oldSession)
                          "Unknown IP") in
        let previousLocation := SessionActivity.location oldSession in
        Store.bind
          (forEach sessions
             (fun session =>
                Store.bind
                  (invalidateSession env
                     (SessionActivity.sessionToken session) "new_login")
                  (fun _ => ret tt)))
          (fun _ =>
             Store.bind
               (user_update env (User.id user) clearSessionToken)
               (fun _ =>
                  match metadata with
                  | Some metadata =>
                      Store.bind
                        (Geo.getLocationFromIP env (ipAddress metadata))
                        (fun newLocation =>
                           let newDevice :=
                             deviceFingerprint env (userAgent metadata) in
                           Store.bind
                             (SecurityAlertService.createMultipleDeviceLoginAlert
                                env (User.id user) (User.email user)
                                previousDevice previousIP previousLocation
                                newDevice
                                (Js.orElse (ipAddress metadata) "Unknown")
                                (Js.orUndefined
                                   (Js.optChain newLocation Geo.location)))
                             (fun _ => ret tt))
                  | None => ret tt
                  end))
    end w = (w1, inr tt) /\
    users w1
      = match sessions with
        | [] => users w
        | _ :: _ =>
            updateWhere (fun u => String.eqb (User.id u) (User.id user))
                        clearSessionToken (users w)
        end /\
    sessionActivities w1
      = map (invalidated (now env) "new_login" sessions) (sessionActivities w) /\
    loginHistories w1 = loginHistories w /\
    match sessions, metadata with
    | _ :: _, Some _ =>
        exists alert,
          securityAlerts w1 = (securityAlerts w ++ [alert])%list /\
          SecurityAlert.alertType alert = MULTIPLE_DEVICE_LOGIN /\
          SecurityAlert.userId alert = Some (User.id user)
    | _, _ => securityAlerts w1 = securityAlerts w
    end.
Proof.
  intros Hid.
  destruct sessions as [|old rest].
  { exists w. rewrite invalidated_nil. repeat split; reflexivity. }
  cbv zeta.
  rewrite (bind_run _ _ _ _ _ (invalidation_loop_run "new_login" (old :: rest) w)).
  set (wL := set_sessionActivities _ w).
  destruct (find_hasId _ _ Hid) as [u0 Hu0].
  rewrite (bind_run _ _ _ _ _
             (user_update_run (User.id user) clearSessionToken wL u0 Hu0)).
  set (wC := set_users _ wL).
  destruct metadata as [metadata|].
  - destruct (getLocationFromIP_tables (ipAddress metadata) wC)
      as (wG & loc & Hloc & (Hu & Hs & Hh & Ha & _) & _).
    rewrite (bind_run _ _ _ _ _ Hloc).
    destruct (createMultipleDeviceLoginAlert_run
                (User.id user) (User.email user)
                (Some (Js.orElse (SessionActivity.deviceInfo old) "Unknown Device"))
                (Some (Js.orElse (SessionActivity.ipAddress old) "Unknown IP"))
                (SessionActivity.location old)
                (deviceFingerprint env (userAgent metadata))
                (Js.orElse (ipAddress metadata) "Unknown")
                (Js.orUndefined (Js.optChain loc Geo.location)) wG)
      as (wA & alert & Hal & Hu' & Hs' & Hh' & Ha' & Hty & Huid).
    rewrite (bind_run _ _ _ _ _ Hal).
    exists wA. split; [reflexivity|].
    rewrite Hu', Hs', Hh', Ha', Hu, Hs, Hh, Ha.
    repeat split; try reflexivity.
    exists alert. repeat split; auto.
  - exists wC. repeat split; reflexivity.
Qed.

Lemma recordLogin_clear at_ ip token u :
  recordLogin at_ ip token (clearSessionToken u) = recordLogin at_ ip token u.
Proof. destruct ip; reflexivity. Qed.

(** What a login with the right credentials leaves in the store when
    every query is answered. *)
Lemma login_run email password metadata w user :
  find (fun u => String.eqb (User.email u) email) (users w) = Some user ->
  User.status user = ACTIVE ->
  comparePassword env password (User.passwordHash user) = true ->
  let uid := User.id user in
  let tokens := issueTokens env uid (User.role user) in
  let previous := activeSessionsOf uid w in
  let closed := map (invalidated (now env) "new_login" previous)
                    (sessionActivities w) in
  exists w',
    login env email password metadata w = (w', inr (user, tokens)) /\
    users w'
      = updateWhere (fun u => String.eqb (User.id u) uid)
          (recordLogin (now env) (Js.optChain metadata ipAddress)
                       (accessToken tokens))
          (users w) /\
    match metadata with
    | Some _ =>
        exists session entry,
          sessionActivities w' = (closed ++ [session])%list /\
          SessionActivity.userId session = uid /\
          SessionActivity.sessionToken session = accessToken tokens /\
          SessionActivity.isActive session = true /\
          SessionActivity.loginAt session = now env /\
          loginHistories w' = (loginHistories w ++ [entry])%list /\
          LoginHistory.userId entry = uid /\
          LoginHistory.success entry = true
    | None =>
        sessionActivities w' = closed /\ loginHistories w' = loginHistories w
    end /\
    match previous, metadata with
    | _ :: _, Some _ =>
        exists alert,
          securityAlerts w' = (securityAlerts w ++ [alert])%list /\
          SecurityAlert.alertType alert = MULTIPLE_DEVICE_LOGIN /\
          SecurityAlert.userId alert = Some uid
    | _, _ => securityAlerts w' = securityAlerts w
    end.
Proof.
  intros Hfind Hst Hpw uid tokens previous closed.
  set (sessions := orderByDesc SessionActivity.loginAt previous).
  assert (Hid : BillingClaims.hasId uid (users w)).
  { exists user. split; [|reflexivity]. exact (proj1 (find_some _ _ Hfind)). }
  destruct (login_invalidation user metadata sessions w Hid)
    as (w1 & HA & Hu1 & Hs1 & Hh1 & Ha1).
  assert (Hclosed : map (invalidated (now env) "new_login" sessions)
                        (sessionActivities w) = closed).
  { apply map_ext. intros r. apply invalidated_ordered. }
  rewrite Hclosed in Hs1.
  assert (Hid1 : BillingClaims.hasId uid (users w1)).
  { rewrite Hu1. destruct sessions; [exact Hid|].
    apply hasId_updateWhere; [reflexivity | exact Hid]. }
  destruct (find_hasId _ _ Hid1) as [u1 Hfind1].
  pose proof (user_update_run uid
                (recordLogin (now env) (Js.optChain metadata ipAddress)
                             (accessToken tokens)) w1 u1 Hfind1) as HB.
  set (w2 := set_users _ w1) in HB.
  assert (Hu2 : users w2
                = updateWhere (fun u => String.eqb (User.id u) uid)
                    (recordLogin (now env) (Js.optChain metadata ipAddress)
                                 (accessToken tokens)) (users w)).
  { unfold w2. cbn [users set_users]. rewrite Hu1.
    destruct sessions; [reflexivity|].
    rewrite updateWhere_twice by reflexivity.
    unfold updateWhere. apply map_ext. intros u.
    now rewrite recordLogin_clear. }
  assert (Hprev : match sessions with [] => previous = [] | _ :: _ => previous <> [] end).
  { unfold sessions. destruct previous as [|p ps]; [reflexivity|].
    destruct (orderByDesc SessionActivity.loginAt (p :: ps)) eqn:E.
    - pose proof (length_orderByDesc SessionActivity.loginAt (p :: ps)) as Hl.
      rewrite E in Hl. discriminate.
    - discriminate. }
  assert (Halerts : match previous, metadata with
                    | _ :: _, Some _ =>
                        exists alert,
                          securityAlerts w1 = (securityAlerts w ++ [alert])%list /\
                          SecurityAlert.alertType alert = MULTIPLE_DEVICE_LOGIN /\
                          SecurityAlert.userId alert = Some uid
                    | _, _ => securityAlerts w1 = securityAlerts w
                    end).
  { destruct sessions; destruct previous; try congruence; exact Ha1. }
  clear Ha1 Hprev.
  assert (Hstart :
    login env email password metadata w
    = Store.bind
        (match metadata with
         | Some metadata =>
             Store.bind
               (LoginHistoryService.createLoginHistory env
                  (LoginHistoryService.mkParams uid (User.email user)
                     (ipAddress metadata) (userAgent metadata)
                     (macAddress metadata) (deviceMetadata metadata) true None))
               (fun _ =>
                  Store.bind
                    (createSession env
                       (SessionActivityService.mkParams uid
                          (accessToken tokens) (ipAddress metadata)
                          (userAgent metadata) (macAddress metadata)
                          (deviceMetadata metadata)))
                    (fun _ => ret tt))
         | None => ret tt
         end)
        (fun _ => ret (user, tokens)) w2).
  { unfold login, user_findUnique_email.
    rewrite (bind_run _ _ w w (Some user))
      by (rewrite prisma_ok by apply Hff; now rewrite Hfind).
    cbv beta iota. rewrite Hst, Hpw. cbn [UserStatus_eqb negb].
    rewrite (bind_run _ _ w w sessions)
      by (unfold getUserActiveSessions, sessionActivity_findMany;
          erewrite bind_run by (rewrite prisma_ok by apply Hff; reflexivity);
          reflexivity).
    rewrite (bind_run _ _ _ _ _ HA).
    rewrite (bind_run _ _ _ _ _ HB).
    reflexivity. }
  rewrite Hstart. clear Hstart.
  assert (Hs2 : sessionActivities w2 = closed) by exact Hs1.
  assert (Hh2 : loginHistories w2 = loginHistories w) by exact Hh1.
  assert (Ha2 : securityAlerts w2 = securityAlerts w1) by reflexivity.
  clearbody w2. clear HB.
  destruct metadata as [metadata|].
  - destruct (createLoginHistory_run
                (LoginHistoryService.mkParams uid (User.email user)
                   (ipAddress metadata) (userAgent metadata)
                   (macAddress metadata) (deviceMetadata metadata) true None) w2)
      as (w3 & entry & HC & Hu3 & Hs3 & Hh3 & Ha3 & Heu & Hes & _).
    destruct (createSession_run
                (SessionActivityService.mkParams uid
                   (accessToken tokens) (ipAddress metadata)
                   (userAgent metadata) (macAddress metadata)
                   (deviceMetadata metadata)) w3)
      as (w4 & session & HD & Hu4 & Hs4 & Hh4 & Ha4 & Hsu & Hst' & Hsa & Hsl).
    exists w4. split.
    { rewrite (bind_run _ _ w2 w4 tt); [reflexivity|].
      rewrite (bind_run _ _ _ _ _ HC), (bind_run _ _ _ _ _ HD). reflexivity. }
    split; [congruence|]. split.
    + exists session, entry.
      rewrite Hs4, Hs3, Hs2, Hh4, Hh3, Hh2. repeat split; auto.
    + rewrite Ha4, Ha3, Ha2. exact Halerts.
  - exists w2. split; [reflexivity|]. split; [exact Hu2|]. split; [auto|].
    rewrite Ha2. exact Halerts.
Qed.

End LoginRuns.

Section MissingBillingGate.

Import Store AuthService AuthClaims BillingService.

(** Login has no billing gate.  Whatever the plan of an active user,
    and so also when the status projection reports the plan expired, a
    login with the right password returns the user and a pair of tokens
    when every query is answered: it is never rejected as expired. *)
Lemma login_ignores_billing env email password metadata w user :
  faultFree env ->
  find (fun u => String.eqb (User.email u) email) (users w) = Some user ->
  User.status user = ACTIVE ->
  comparePassword env password (User.passwordHash user) = true ->
  (exists w',
     login env email password metadata w
       = (w', inr (user, issueTokens env (User.id user) (User.role user)))) /\
  ~ rejectedAsExpired env email password metadata w.
Proof.
  intros Hff Hfind Hst Hpw.
  destruct (login_run env Hff email password metadata w user Hfind Hst Hpw)
    as (w' & Hrun & _).
  split; [exists w'; exact Hrun|].
  intros (w2 & message & H & _). rewrite Hrun in H. discriminate H.
Qed.

End MissingBillingGate.

Section LoginOutcomes.

Import Store SessionActivityService AuthService AuthClaims LoginProperties.
Import Prisma LoginHistoryQueries.
Import Fixtures.
Local Open Scope string_scope.

Lemma closed_sessions_inactive at_ reason uid w :
  filter (fun s => String.eqb (SessionActivity.userId s) uid
                   && SessionActivity.isActive s)
         (map (invalidated at_ reason (activeSessionsOf uid w))
              (sessionActivities w))
  = [].
Proof.
  apply filter_map_none. intros r Hin. unfold invalidated.
  destruct (SessionActivity.isActive r) eqn:Ea; cbn [andb];
    [|rewrite Ea; apply andb_false_r].
  destruct (String.eqb (SessionActivity.userId r) uid) eqn:Eu.
  - assert (Hex : existsb
                    (fun s => String.eqb (SessionActivity.sessionToken r)
                                         (SessionActivity.sessionToken s))
                    (activeSessionsOf uid w) = true).
    { apply existsb_exists. exists r. split; [|apply String.eqb_refl].
      unfold activeSessionsOf. apply filter_In. split; [exact Hin|].
      now rewrite Eu, Ea. }
    rewrite Hex. cbn. apply andb_false_r.
  - destruct (existsb _ _); cbn; now rewrite Eu.
Qed.

(** X25.  A login with the right credentials of an active user, made
    with request metadata while every query is answered, returns the
    user and a fresh pair of tokens and leaves the user with exactly one
    active session, the new one, whose token is the access token now in
    [currentSessionToken].  Every session the user had open is closed
    with the reason "new_login", together with any session that bears
    the token of one of them; one successful LoginHistory row is added;
    and the administrators get one MULTIPLE_DEVICE_LOGIN alert if, and
    only if, a session was open. *)
Theorem login_establishes_session env email password metadata w user :
  faultFree env ->
  find (fun u => String.eqb (User.email u) email) (users w) = Some user ->
  User.status user = ACTIVE ->
  comparePassword env password (User.passwordHash user) = true ->
  let uid := User.id user in
  let tokens := issueTokens env uid (User.role user) in
  let previous := activeSessionsOf uid w in
  exists w' session entry,
    login env email password (Some metadata) w = (w', inr (user, tokens)) /\
    activeSessionsOf uid w' = [session] /\
    SessionActivity.sessionToken session = accessToken tokens /\
    SessionActivity.loginAt session = now env /\
    (forall u, In u (users w') -> User.id u = uid ->
       User.currentSessionToken u = Some (accessToken tokens) /\
       User.lastLoginAt u = Some (now env)) /\
    sessionActivities w'
      = (map (invalidated (now env) "new_login" previous) (sessionActivities w)
         ++ [session])%list /\
    (forall old, In old previous ->
       In (markInactive (now env) "new_login" old) (sessionActivities w')) /\
    loginHistories w' = (loginHistories w ++ [entry])%list /\
    LoginHistory.userId entry = uid /\
    LoginHistory.success entry = true /\
    match previous with
    | [] => securityAlerts w' = securityAlerts w
    | _ :: _ =>
        exists alert,
          securityAlerts w' = (securityAlerts w ++ [alert])%list /\
          SecurityAlert.alertType alert = MULTIPLE_DEVICE_LOGIN /\
          SecurityAlert.userId alert = Some uid
    end.
Proof.
  intros Hff Hfind Hst Hpw uid tokens previous.
  destruct (login_run env Hff email password (Some metadata) w user
              Hfind Hst Hpw)
    as (w' & Hrun & Hus & (session & entry & Hs & Hsu & Hstok & Hsa & Hsl
                           & Hh & Heu & Hes) & Hal).
  fold uid tokens previous in Hrun, Hus, Hs, Hsu, Hstok, Hh, Heu, Hal.
  exists w', session, entry.
  split; [exact Hrun|]. split.
  { unfold activeSessionsOf. rewrite Hs, filter_app.
    unfold previous. rewrite closed_sessions_inactive. cbn.
    now rewrite Hsu, String.eqb_refl, Hsa. }
  split; [exact Hstok|]. split; [exact Hsl|]. split.
  { intros u Hin Hid. rewrite Hus in Hin.
    apply In_updateWhere in Hin as (u0 & _ & ->).
    destruct (String.eqb (User.id u0) uid) eqn:E; [split; reflexivity|].
    apply String.eqb_neq in E. contradiction. }
  split; [exact Hs|]. split.
  { intros old Hold. rewrite Hs. apply in_or_app; left.
    assert (Hold' := Hold). unfold previous, activeSessionsOf in Hold'.
    apply filter_In in Hold' as [Hin Hsel].
    apply andb_true_iff in Hsel as [_ Hact].
    apply in_map_iff. exists old. split; [|exact Hin].
    unfold invalidated. rewrite Hact. cbn [andb].
    replace (existsb _ previous) with true; [reflexivity|].
    symmetry. apply existsb_exists. exists old.
    split; [exact Hold | apply String.eqb_refl]. }
  split; [exact Hh|]. split; [exact Heu|]. split; [exact Hes|].
  destruct previous; exact Hal.
Qed.

Lemma login_establishes_session_witness :
  let env := sessionEnv 2000 "T2" "R2" noFault in
  faultFree env /\
  find (fun u => String.eqb (User.email u) "alice@x") (users aliceOnline)
    = Some alice /\
  User.status alice = ACTIVE /\
  comparePassword env "sesame" (User.passwordHash alice) = true /\
  let uid := User.id alice in
  let tokens := issueTokens env uid (User.role alice) in
  let previous := activeSessionsOf uid aliceOnline in
  exists w' session entry,
    login env "alice@x" "sesame" (Some fromWindows) aliceOnline
      = (w', inr (alice, tokens)) /\
    activeSessionsOf uid w' = [session] /\
    SessionActivity.sessionToken session = accessToken tokens /\
    SessionActivity.loginAt session = now env /\
    (forall u, In u (users w') -> User.id u = uid ->
       User.currentSessionToken u = Some (accessToken tokens) /\
       User.lastLoginAt u = Some (now env)) /\
    sessionActivities w'
      = (map (invalidated (now env) "new_login" previous)
             (sessionActivities aliceOnline)
         ++ [session])%list /\
    (forall old, In old previous ->
       In (markInactive (now env) "new_login" old) (sessionActivities w')) /\
    loginHistories w' = (loginHistories aliceOnline ++ [entry])%list /\
    LoginHistory.userId entry = uid /\
    LoginHistory.success entry = true /\
    match previous with
    | [] => securityAlerts w' = securityAlerts aliceOnline
    | _ :: _ =>
        exists alert,
          securityAlerts w' = (securityAlerts aliceOnline ++ [alert])%list /\
          SecurityAlert.alertType alert = MULTIPLE_DEVICE_LOGIN /\
          SecurityAlert.userId alert = Some uid
    end.
Proof.
  intros env. split; [apply sessionEnv_faultFree|].
  repeat (split; [reflexivity|]).
  exact (login_establishes_session env "alice@x" "sesame" fromWindows aliceOnline
           alice (sessionEnv_faultFree 2000 "T2" "R2") eq_refl eq_refl eq_refl).
Defined.

(** X26.  A login made without request metadata, which the service
    accepts, replaces the session token and records nothing: it closes
    the sessions the user had open, sets [currentSessionToken] to the
    new access token, and adds no session row, no LoginHistory row and
    no alert.  The user is left with a token and no active session. *)
Theorem login_without_metadata env email password w user :
  faultFree env ->
  find (fun u => String.eqb (User.email u) email) (users w) = Some user ->
  User.status user = ACTIVE ->
  comparePassword env password (User.passwordHash user) = true ->
  let uid := User.id user in
  let tokens := issueTokens env uid (User.role user) in
  exists w',
    login env email password None w = (w', inr (user, tokens)) /\
    (forall u, In u (users w') -> User.id u = uid ->
       User.currentSessionToken u = Some (accessToken tokens)) /\
    activeSessionsOf uid w' = [] /\
    List.length (sessionActivities w') = List.length (sessionActivities w) /\
    loginHistories w' = loginHistories w /\
    securityAlerts w' = securityAlerts w.
Proof.
  intros Hff Hfind Hst Hpw uid tokens.
  destruct (login_run env Hff email password None w user Hfind Hst Hpw)
    as (w' & Hrun & Hus & (Hs & Hh) & Hal).
  fold uid tokens in Hrun, Hus, Hs, Hal.
  exists w'. split; [exact Hrun|]. split.
  { intros u Hin Hid. rewrite Hus in Hin.
    apply In_updateWhere in Hin as (u0 & _ & ->).
    destruct (String.eqb (User.id u0) uid) eqn:E; [reflexivity|].
    apply String.eqb_neq in E. contradiction. }
  split.
  { unfold activeSessionsOf. rewrite Hs. apply closed_sessions_inactive. }
  split; [rewrite Hs; apply length_map|]. split; [exact Hh|].
  destruct (activeSessionsOf uid w); exact Hal.
Qed.

Lemma login_without_metadata_witness :
  let env := sessionEnv 2000 "T2" "R2" noFault in
  faultFree env /\
  find (fun u => String.eqb (User.email u) "alice@x") (users aliceOnline)
    = Some alice /\
  User.status alice = ACTIVE /\
  comparePassword env "sesame" (User.passwordHash alice) = true /\
  let uid := User.id alice in
  let tokens := issueTokens env uid (User.role alice) in
  exists w',
    login env "alice@x" "sesame" None aliceOnline = (w', inr (alice, tokens)) /\
    (forall u, In u (users w') -> User.id u = uid ->
       User.currentSessionToken u = Some (accessToken tokens)) /\
    activeSessionsOf uid w' = [] /\
    List.length (sessionActivities w') = List.length (sessionActivities aliceOnline) /\
    loginHistories w' = loginHistories aliceOnline /\
    securityAlerts w' = securityAlerts aliceOnline.
Proof.
  intros env. split; [apply sessionEnv_faultFree|].
  repeat (split; [reflexivity|]).
  exact (login_without_metadata env "alice@x" "sesame" aliceOnline alice
           (sessionEnv_faultFree 2000 "T2" "R2") eq_refl eq_refl eq_refl).
Defined.

(** X27.  A login with a wrong password is counted.  When every query
    is answered, such a login with request metadata throws the 401 and
    adds one failed LoginHistory row, dated at the attempt, so that
    [getFailedLoginAttempts] for a window that reaches back to the
    attempt, by default 24 hours, lists one attempt more than before.
    Users, sessions and alerts are as before. *)
Theorem wrong_password_is_counted
  env envQ rejects email password metadata since w user :
  faultFree env -> answers rejects ->
  find (fun u => String.eqb (User.email u) email) (users w) = Some user ->
  User.status user = ACTIVE ->
  comparePassword env password (User.passwordHash user) = false ->
  match since with
  | Some d => d
  | None => now envQ - 24 * 60 * 60 * 1000
  end <= now env ->
  exists w' before after,
    login env email password (Some metadata) w = (w', inl invalidCredentials) /\
    getFailedLoginAttempts envQ rejects (User.id user) since w = (w, inr before) /\
    getFailedLoginAttempts envQ rejects (User.id user) since w' = (w', inr after) /\
    List.length after = S (List.length before) /\
    users w' = users w /\
    sessionActivities w' = sessionActivities w /\
    securityAlerts w' = securityAlerts w.
Proof.
  intros Hff Hans Hfind Hst Hpw Hsince.
  destruct (createLoginHistory_run env Hff
              (LoginHistoryService.mkParams (User.id user) email
                 (ipAddress metadata) (userAgent metadata)
                 (macAddress metadata) None false (Some "Incorrect password")) w)
    as (w' & entry & HC & Hu & Hs & Hh & Ha & Heu & Hes & _ & Hel).
  cbn [LoginHistoryService.userId LoginHistoryService.success] in Heu, Hes.
  assert (Hrun : login env email password (Some metadata) w
                 = (w', inl invalidCredentials)).
  { unfold login, user_findUnique_email.
    rewrite (bind_run _ _ w w (Some user))
      by (rewrite prisma_ok by apply Hff; now rewrite Hfind).
    cbv beta iota. rewrite Hst, Hpw. cbn [UserStatus_eqb negb].
    rewrite (bind_run _ _ _ _ _ HC). reflexivity. }
  unfold getFailedLoginAttempts, bind, prismaAdmin, ret.
  rewrite !Hans.
  exists w'. do 2 eexists.
  split; [exact Hrun|]. split; [reflexivity|]. split; [reflexivity|].
  split; [|auto].
  rewrite !length_orderByDesc, Hh, filter_app, length_app.
  cbn [filter]. unfold failedSince at 2.
  rewrite Heu, Hes, Hel, String.eqb_refl. cbn [negb andb].
  unfold dateGte. replace (_ <=? now env)%Z with true
    by (symmetry; apply Z.leb_le; exact Hsince).
  cbn. lia.
Qed.

Lemma wrong_password_is_counted_witness :
  let env := sessionEnv 2000 "T2" "R2" noFault in
  faultFree env /\ answers (fun _ => false) /\
  find (fun u => String.eqb (User.email u) "alice@x") (users aliceOnline)
    = Some alice /\
  User.status alice = ACTIVE /\
  comparePassword env "guess" (User.passwordHash alice) = false /\
  match @None JsDate.Date with
  | Some d => d
  | None => now (envAt 6000) - 24 * 60 * 60 * 1000
  end <= now env /\
  exists w' before after,
    login env "alice@x" "guess" (Some fromWindows) aliceOnline
      = (w', inl invalidCredentials) /\
    getFailedLoginAttempts (envAt 6000) (fun _ => false) (User.id alice) None
                           aliceOnline = (aliceOnline, inr before) /\
    getFailedLoginAttempts (envAt 6000) (fun _ => false) (User.id alice) None w'
      = (w', inr after) /\
    List.length after = S (List.length before) /\
    users w' = users aliceOnline /\
    sessionActivities w' = sessionActivities aliceOnline /\
    securityAlerts w' = securityAlerts aliceOnline.
Proof.
  intros env. split; [apply sessionEnv_faultFree|].
  split; [intros q; reflexivity|].
  repeat (split; [reflexivity|]).
  split; [cbn; lia|].
  exact (wrong_password_is_counted env (envAt 6000) (fun _ => false)
           "alice@x" "guess" fromWindows None aliceOnline alice
           (sessionEnv_faultFree 2000 "T2" "R2") (fun q => eq_refl)
           eq_refl eq_refl eq_refl
           ltac:(cbn; lia)).
Defined.

End LoginOutcomes.

(* ================================================================== *)
(** * Cycles of fixed length and the yearly cycle *)
(* ================================================================== *)

Section YearlyCycle.

Import JsDate Store BillingService.

Lemma leap_then_not_leap y : isLeapYear y = true -> isLeapYear (y + 1) = false.
Proof.
  unfold isLeapYear.
  destruct (Z.eqb_spec (y mod 4) 0), (Z.eqb_spec (y mod 100) 0),
    (Z.eqb_spec (y mod 400) 0); cbn [andb orb negb]; try discriminate;
    intros _;
    destruct (Z.eqb_spec ((y + 1) mod 4) 0), (Z.eqb_spec ((y + 1) mod 100) 0),
      (Z.eqb_spec ((y + 1) mod 400) 0); cbn [andb orb negb]; try reflexivity;
    exfalso; Z.div_mod_to_equations; lia.
Qed.

Lemma MakeDay_next_year y m d :
  0 <= m <= 11 ->
  MakeDay (y + 1) m d = MakeDay y m d + 365 \/
  MakeDay (y + 1) m d = MakeDay y m d + 366.
Proof.
  intros Hm. unfold MakeDay.
  pose proof (DayFromYear_succ y) as Hsucc. unfold DaysInYear in Hsucc.
  pose proof (leap_then_not_leap y) as Hleap.
  rewrite Z.div_small, Z.mod_small by lia. rewrite !Z.add_0_r, Hsucc.
  destruct (isLeapYear y); [rewrite (Hleap eq_refl) | destruct (isLeapYear (y + 1))];
    month_cases m; eval_months; lia.
Qed.

Lemma DaysInMonth_next_year y m :
  0 <= m <= 11 ->
  DaysInMonth (y + 1) m = DaysInMonth y m \/
  (m = 1 /\ DaysInMonth y m = 29 /\ DaysInMonth (y + 1) m = 28) \/
  (m = 1 /\ DaysInMonth y m = 28 /\ DaysInMonth (y + 1) m = 29).
Proof.
  intros Hm. unfold DaysInMonth, leapDay.
  pose proof (leap_then_not_leap y) as Hleap.
  destruct (Z.eqb_spec m 1); [|left; reflexivity].
  destruct (isLeapYear y); [rewrite (Hleap eq_refl) | destruct (isLeapYear (y + 1))];
    [right; left | right; right | left]; repeat split; auto.
Qed.

Lemma DaysInMonth_feb y : DaysInMonth y 1 = 28 \/ DaysInMonth y 1 = 29.
Proof.
  unfold DaysInMonth, leapDay. cbn [Z.eqb Pos.eqb].
  destruct (isLeapYear y); auto.
Qed.

Lemma feb_then_march y : DaysInMonth y 1 = 29 -> DaysInMonth (y + 1) 1 = 28.
Proof.
  unfold DaysInMonth, leapDay. cbn [Z.eqb Pos.eqb].
  pose proof (leap_then_not_leap y) as Hleap.
  destruct (isLeapYear y); [now rewrite (Hleap eq_refl) | discriminate].
Qed.

(** X28.  In a process that runs in UTC, a DAILY cycle lasts exactly 24
    hours and a WEEKLY cycle exactly 7 times 24 hours.  A YEARLY cycle
    lasts 365 or 366 days and ends in the next calendar year at the
    same time of day, on the same day of the same month, except for a
    start on 29 February: the next year has no such day, and the cycle
    then ends on 1 March. *)
Theorem fixed_and_yearly_cycles start :
  calculateCycleEndDate start DAILY = start + msPerDay /\
  calculateCycleEndDate start WEEKLY = start + 7 * msPerDay /\
  (calculateCycleEndDate start YEARLY = start + 365 * msPerDay \/
   calculateCycleEndDate start YEARLY = start + 366 * msPerDay) /\
  getFullYear (calculateCycleEndDate start YEARLY) = getFullYear start + 1 /\
  TimeWithinDay (calculateCycleEndDate start YEARLY) = TimeWithinDay start /\
  if (getMonth start =? 1) && (getDate start =? 29)
  then getMonth (calculateCycleEndDate start YEARLY) = 2 /\
       getDate (calculateCycleEndDate start YEARLY) = 1
  else getMonth (calculateCycleEndDate start YEARLY) = getMonth start /\
       getDate (calculateCycleEndDate start YEARLY) = getDate start.
Proof.
  pose proof (MonthFromTime_range start) as Hm.
  pose proof (DateFromTime_range start) as Hd.
  pose proof (TimeWithinDay_bounds start) as Htod.
  pose proof (MakeDay_fields start) as Hday.
  split; [rewrite (calculateCycleEndDate_days start DAILY 1) by auto; lia|].
  split; [apply (calculateCycleEndDate_days start WEEKLY 7); auto|].
  unfold calculateCycleEndDate, setFullYear, getFullYear, getMonth, getDate.
  set (y := YearFromTime start) in *.
  set (m := MonthFromTime start) in *.
  set (d := DateFromTime start) in *.
  set (tod := TimeWithinDay start) in *.
  split.
  { destruct (MakeDay_next_year y m d Hm) as [-> | ->]; rewrite Hday;
      [left | right]; rewrite <- (MakeDate_Day start) at 2;
      fold tod; unfold MakeDate; lia. }
  assert (Hcase : (d <= DaysInMonth (y + 1) m /\ ~ (m = 1 /\ d = 29)) \/
                  (m = 1 /\ d = 29 /\ DaysInMonth (y + 1) 1 = 28)).
  { pose proof (feb_then_march y) as Hfeb.
    destruct (Z.eq_dec m 1) as [E1|E1].
    - rewrite E1 in *. destruct (DaysInMonth_feb y) as [H28|H29].
      + left. split; [|lia]. pose proof (DaysInMonth_bounds (y + 1) 1). lia.
      + destruct (Z.eq_dec d 29) as [E2|E2].
        * right. auto.
        * left. split; [|lia]. pose proof (DaysInMonth_bounds (y + 1) 1). lia.
    - left. split; [|lia].
      destruct (DaysInMonth_next_year y m Hm) as [Hs | [(?&_) | (?&_)]]; lia. }
  destruct Hcase as [(Hfit & Hnot) | (E1 & E2 & H28)].
  - assert (Hfit' : 1 <= d <= DaysInMonth (y + 1) m) by lia.
    pose proof (fields_of_MakeDate (y + 1) m d tod Hm Hfit' Htod) as Hf.
    cbv zeta in Hf. destruct Hf as (Fy & Fm & Fd & Ft).
    split; [exact Fy|]. split; [exact Ft|].
    destruct (Z.eqb_spec m 1) as [E1|E1]; cbn [andb]; [|split; assumption].
    destruct (Z.eqb_spec d 29) as [E2|E2]; [|split; assumption].
    exfalso. apply Hnot. split; assumption.
  - assert (Hmove : MakeDay (y + 1) m d = MakeDay (y + 1) 2 1).
    { rewrite E1, E2. replace 29 with (DaysInMonth (y + 1) 1 + 1) by lia.
      now rewrite MakeDay_overflow by lia. }
    rewrite Hmove.
    assert (Hm2 : 0 <= 2 <= 11) by lia.
    assert (Hd1 : 1 <= 1 <= DaysInMonth (y + 1) 2) by (cbn; lia).
    pose proof (fields_of_MakeDate (y + 1) 2 1 tod Hm2 Hd1 Htod) as Hf.
    cbv zeta in Hf. destruct Hf as (Fy & Fm & Fd & Ft).
    split; [exact Fy|]. split; [exact Ft|].
    rewrite E1, E2. cbn [Z.eqb Pos.eqb andb]. split; assumption.
Qed.

End YearlyCycle.

(* ================================================================== *)
(** * Rejected logins and looked-up locations *)
(* ================================================================== *)

Section RejectedLogins.

Import Store AuthService AuthClaims GeoClaims.
Import Fixtures.
Local Open Scope string_scope.

Lemma createFailedLoginAlert_run env email ip location count reason w :
  faultFree env ->
  exists w' alert,
    SecurityAlertService.createFailedLoginAlert env email ip location count reason w
      = (w', inr alert) /\
    users w' = users w /\
    sessionActivities w' = sessionActivities w /\
    loginHistories w' = loginHistories w /\
    securityAlerts w' = (securityAlerts w ++ [alert])%list /\
    SecurityAlert.alertType alert = FAILED_LOGIN_ATTEMPT /\
    SecurityAlert.userId alert = None /\
    SecurityAlert.severity alert = (if (5 <=? count)%Z then HIGH else MEDIUM).
Proof.
  intros Hff.
  unfold SecurityAlertService.createFailedLoginAlert,
    SecurityAlertService.createSecurityAlert.
  rewrite prisma_ok by apply Hff.
  unfold bind, freshId, modify, ret.
  do 2 eexists. split; [reflexivity|]. cbn. repeat split; reflexivity.
Qed.

(** X29.  A login to an account that is not active is rejected like a
    wrong password, with the 401 "Invalid email or password", but it is
    recorded twice: as a failed LoginHistory row and as a
    FAILED_LOGIN_ATTEMPT alert that names no user.  The alert always
    has severity MEDIUM, since the login passes the attempt count 1.
    Users and sessions are as before. *)
Theorem inactive_account_login env email password metadata w user :
  faultFree env ->
  find (fun u => String.eqb (User.email u) email) (users w) = Some user ->
  User.status user <> ACTIVE ->
  exists w' entry alert,
    login env email password (Some metadata) w = (w', inl invalidCredentials) /\
    loginHistories w' = (loginHistories w ++ [entry])%list /\
    LoginHistory.userId entry = User.id user /\
    LoginHistory.success entry = false /\
    LoginHistory.failureReason entry
      = Some "Invalid credentials or inactive account" /\
    securityAlerts w' = (securityAlerts w ++ [alert])%list /\
    SecurityAlert.alertType alert = FAILED_LOGIN_ATTEMPT /\
    SecurityAlert.severity alert = MEDIUM /\
    SecurityAlert.userId alert = None /\
    users w' = users w /\
    sessionActivities w' = sessionActivities w.
Proof.
  intros Hff Hfind Hst.
  destruct (createLoginHistory_run env Hff
              (LoginHistoryService.mkParams (User.id user) email
                 (ipAddress metadata) (userAgent metadata)
                 (macAddress metadata) None false
                 (Some "Invalid credentials or inactive account")) w)
    as (w1 & entry & HC & Hu1 & Hs1 & Hh1 & Ha1 & Heu & Hes & Her & _).
  destruct (getLocationFromIP_tables env (ipAddress metadata) w1)
    as (w2 & loc & HL & (Hu2 & Hs2 & Hh2 & Ha2 & _) & _).
  destruct (createFailedLoginAlert_run env email
              (Js.orElse (ipAddress metadata) "Unknown")
              (Js.orUndefined (Js.optChain loc Geo.location))
              1 "Invalid credentials or inactive account" w2 Hff)
    as (w3 & alert & HA & Hu3 & Hs3 & Hh3 & Ha3 & Hty & Huid & Hsev).
  exists w3, entry, alert. split.
  { unfold login, user_findUnique_email.
    rewrite (bind_run _ _ w w (Some user))
      by (rewrite prisma_ok by apply Hff; now rewrite Hfind).
    cbv beta iota.
    assert (Hneg : negb (UserStatus_eqb (User.status user) ACTIVE) = true).
    { destruct (UserStatus_eqb (User.status user) ACTIVE) eqn:E; [|reflexivity].
      apply UserStatus_eqb_eq in E. contradiction. }
    rewrite Hneg.
    rewrite (bind_run _ _ _ _ _ HC), (bind_run _ _ _ _ _ HL),
      (bind_run _ _ _ _ _ HA).
    reflexivity. }
  rewrite Hh3, Hh2, Hh1, Ha3, Ha2, Ha1, Hu3, Hu2, Hu1, Hs3, Hs2, Hs1.
  repeat split; auto.
Qed.

Lemma inactive_account_login_witness :
  let env := sessionEnv 2000 "T2" "R2" noFault in
  faultFree env /\
  find (fun u => String.eqb (User.email u) "dave@x") (users daveSuspended)
    = Some dave /\
  User.status dave <> ACTIVE /\
  exists w' entry alert,
    login env "dave@x" "plugh" (Some fromWindows) daveSuspended
      = (w', inl invalidCredentials) /\
    loginHistories w' = (loginHistories daveSuspended ++ [entry])%list /\
    LoginHistory.userId entry = User.id dave /\
    LoginHistory.success entry = false /\
    LoginHistory.failureReason entry
      = Some "Invalid credentials or inactive account" /\
    securityAlerts w' = (securityAlerts daveSuspended ++ [alert])%list /\
    SecurityAlert.alertType alert = FAILED_LOGIN_ATTEMPT /\
    SecurityAlert.severity alert = MEDIUM /\
    SecurityAlert.userId alert = None /\
    users w' = users daveSuspended /\
    sessionActivities w' = sessionActivities daveSuspended.
Proof.
  intros env. split; [apply sessionEnv_faultFree|]. split; [reflexivity|].
  split; [discriminate|].
  exact (inactive_account_login env "dave@x" "plugh" fromWindows daveSuspended dave
           (sessionEnv_faultFree 2000 "T2" "R2") eq_refl
           ltac:(discriminate)).
Defined.

(** X30.  A successful lookup always gives a location text, the city
    and the country separated by a comma.  The city of the text is the
    provider's, which is then also the [city] field, or "Unknown" when
    the provider leaves it out or empty, and then the field is absent;
    the same holds of the country.  A coordinate that the provider
    reports as 0, on the equator or on the prime meridian, is dropped
    like a missing one, while any other coordinate is kept. *)
Theorem lookup_drops_zero_coordinates env ip data w :
  ~ answeredLocally (Some ip) ->
  axiosGet env (Geo.lookupUrl ip) = AxiosResponse data ->
  api_status data = Some "success" ->
  exists loc city country,
    Geo.getLocationFromIP env (Some ip) w
      = (log_request (Geo.lookupUrl ip) w, inr (Some loc)) /\
    Geo.location loc = Some (city ++ ", " ++ country) /\
    city <> "" /\ country <> "" /\
    (Js.truthy (api_city data) = true ->
       api_city data = Some city /\ Geo.city loc = Some city) /\
    (Js.truthy (api_city data) = false ->
       city = "Unknown" /\ Geo.city loc = None) /\
    (Js.truthy (api_country data) = true ->
       api_country data = Some country /\ Geo.country loc = Some country) /\
    (Js.truthy (api_country data) = false ->
       country = "Unknown" /\ Geo.country loc = None) /\
    (forall q, api_lat data = Some q ->
       (q == 0)%Q -> Geo.latitude loc = None) /\
    (forall q, api_lat data = Some q ->
       ~ (q == 0)%Q -> Geo.latitude loc = Some q) /\
    (forall q, api_lon data = Some q ->
       (q == 0)%Q -> Geo.longitude loc = None) /\
    (forall q, api_lon data = Some q ->
       ~ (q == 0)%Q -> Geo.longitude loc = Some q).
Proof.
  intros Hn Hax Hst.
  exists (Geo.locationOfResponse data),
         (Js.orElse (api_city data) "Unknown"),
         (Js.orElse (api_country data) "Unknown").
  split.
  { rewrite (getLocationFromIP_lookup env ip w Hn), Hax, Hst. reflexivity. }
  assert (Hne : forall s, Js.orElse s "Unknown" <> "").
  { intros [s|]; cbn; [|discriminate].
    destruct (String.eqb s "") eqn:E; [discriminate|].
    now apply String.eqb_neq. }
  assert (Htext : forall c,
            (Js.truthy c = true ->
               c = Some (Js.orElse c "Unknown") /\
               Js.orUndefined c = Some (Js.orElse c "Unknown")) /\
            (Js.truthy c = false ->
               Js.orElse c "Unknown" = "Unknown" /\ Js.orUndefined c = None)).
  { intros [s|]; unfold Js.orUndefined; cbn.
    - destruct (String.eqb s ""); cbn; split; auto; discriminate.
    - split; [discriminate | auto]. }
  assert (Hnum : forall c q, c = Some q ->
            ((q == 0)%Q -> Js.numOrUndefined c = None) /\
            (~ (q == 0)%Q -> Js.numOrUndefined c = Some q)).
  { intros c q ->. cbn. destruct (Qeq_bool q 0) eqn:E.
    - apply Qeq_bool_iff in E. split; [reflexivity | contradiction].
    - split; [|reflexivity]. intros H. apply Qeq_bool_iff in H. congruence. }
  split; [reflexivity|]. split; [apply Hne|]. split; [apply Hne|].
  cbn [Geo.locationOfResponse Geo.city Geo.country Geo.latitude Geo.longitude].
  split; [apply (Htext (api_city data))|].
  split; [apply (Htext (api_city data))|].
  split; [apply (Htext (api_country data))|].
  split; [apply (Htext (api_country data))|].
  repeat split; intros q Hq; apply (Hnum _ q Hq).
Qed.

Lemma lookup_drops_zero_coordinates_witness :
  let env := GeoFixtures.equatorEnv in
  let data := GeoFixtures.onEquator in
  let ip := "8.8.8.8" in
  let w := emptyWorld in
  ~ answeredLocally (Some ip) /\
  axiosGet env (Geo.lookupUrl ip) = AxiosResponse data /\
  api_status data = Some "success" /\
  exists loc city country,
    Geo.getLocationFromIP env (Some ip) w
      = (log_request (Geo.lookupUrl ip) w, inr (Some loc)) /\
    Geo.location loc = Some (city ++ ", " ++ country) /\
    city <> "" /\ country <> "" /\
    (Js.truthy (api_city data) = true ->
       api_city data = Some city /\ Geo.city loc = Some city) /\
    (Js.truthy (api_city data) = false ->
       city = "Unknown" /\ Geo.city loc = None) /\
    (Js.truthy (api_country data) = true ->
       api_country data = Some country /\ Geo.country loc = Some country) /\
    (Js.truthy (api_country data) = false ->
       country = "Unknown" /\ Geo.country loc = None) /\
    (forall q, api_lat data = Some q ->
       (q == 0)%Q -> Geo.latitude loc = None) /\
    (forall q, api_lat data = Some q ->
       ~ (q == 0)%Q -> Geo.latitude loc = Some q) /\
    (forall q, api_lon data = Some q ->
       (q == 0)%Q -> Geo.longitude loc = None) /\
    (forall q, api_lon data = Some q ->
       ~ (q == 0)%Q -> Geo.longitude loc = Some q).
Proof.
  intros env data ip w.
  assert (Hn : ~ answeredLocally (Some ip)).
  { intros [[H|[H|[H|[H|H]]]]|H]; discriminate H. }
  split; [exact Hn|]. split; [reflexivity|]. split; [reflexivity|].
  exact (lookup_drops_zero_coordinates env ip data w Hn eq_refl eq_refl).
Defined.

End RejectedLogins.
